(** * AApp: a JSON-file document store behind an Express router

    A shallow embedding of the server of this repository (the file with
    the [/:collection] routes) and the properties of its specification.

    Layout:
    - JSON values and the JavaScript operations the handlers use;
    - the file system seen through [fs.readFile] / [fs.writeFile], and a
      small monad [prog] whose nodes are the handlers' [await] points;
    - the helpers [getFilePath], [readCollection], [writeCollection],
      [generateId], then one definition per route handler;
    - the router (routes in registration order, first match wins);
    - interpreters: sequential, bounded (a crash after [n] file-system
      calls), interleaved (several requests in flight);
    - the theorems. *)

From Stdlib Require Import Ascii.
From stdpp Require Import gmap strings list fin_maps pretty.

Set Warnings "-register-all,-clear-no-such-hyp".
Set Default Proof Using "Type".

(* ================================================================== *)
(** * JSON values *)
(* ================================================================== *)

(** What [JSON.parse] produces. Numbers are the integers (the handlers
    produce no other number: the only arithmetic is [.length]); an
    object is a finite map from property names to values, so two
    objects with the same properties are equal whatever the order they
    were written in. JavaScript's [undefined] is not a JSON value: a
    possibly-undefined value is an [option value], [None] being
    [undefined]. Strings are sequences of code units. *)
Inductive value : Type :=
| VNull
| VBool (b : bool)
| VNum (n : Z)
| VStr (s : string)
| VArr (l : list value)
| VObj (m : gmap string value).

(** The errors the program meets. [Error m] is [new Error(m)];
    [SyntaxError] is what [JSON.parse] throws; [TypeError] is a property
    read on [null]/[undefined] or a call of something that is not a
    function; [FsError c] is a rejected [fs] promise with [err.code = c]. *)
Inductive fs_error : Type := ENOENT | EIO.

Inductive exn : Type :=
| Error (message : string)
| SyntaxError
| TypeError
| FsError (code : fs_error).

(** Synchronous code that may throw. *)
Inductive result (A : Type) : Type :=
| Ok (a : A)
| Raise (e : exn).
Arguments Ok {A} a.
Arguments Raise {A} e.

#[export] Instance result_ret : MRet result := fun A a => Ok a.
#[export] Instance result_bind : MBind result := fun A B f r =>
  match r with Ok a => f a | Raise e => Raise e end.
#[export] Instance result_fmap : FMap result := fun A B f r =>
  match r with Ok a => Ok (f a) | Raise e => Raise e end.

(* ================================================================== *)
(** * The JavaScript operations the handlers use *)
(* ================================================================== *)

Module Js.

(** [ToBoolean]: what [if (x)], [!x] and [x || y] test. *)
Definition truthy (x : option value) : bool :=
  match x with
  | None | Some VNull => false
  | Some (VBool b) => b
  | Some (VNum n) => negb (bool_decide (n = 0%Z))
  | Some (VStr s) => negb (bool_decide (s = EmptyString))
  | Some (VArr _) | Some (VObj _) => true
  end.

(** [x || y] where [y] is a JSON value. *)
Definition or_else (x : option value) (y : value) : value :=
  match x with
  | Some v => if truthy x then v else y
  | None => y
  end.

(** How [JSON.stringify] writes an array entry or keeps a value:
    [undefined] inside an array is written [null]. *)
Definition stored (x : option value) : value := default VNull x.

(** [===] (and the [SameValueZero] of [Array.prototype.includes], which
    agrees with it away from [NaN]) between a value [x] parsed from a
    file and a value [y] taken from the request. Objects and arrays are
    equal only to themselves, and the two sides come from two different
    [JSON.parse] calls, so they are never the same object. *)
Definition strict_eq (x : value) (y : option value) : bool :=
  match x, y with
  | VNull, Some VNull => true
  | VBool a, Some (VBool b) => bool_decide (a = b)
  | VNum a, Some (VNum b) => bool_decide (a = b)
  | VStr a, Some (VStr b) => bool_decide (a = b)
  | _, _ => false
  end.

(** [arr.includes(y)] *)
Definition includes (arr : list value) (y : option value) : bool :=
  existsb (fun x => strict_eq x y) arr.

(** [arr.filter(id => id !== y)] *)
Definition without (arr : list value) (y : option value) : list value :=
  List.filter (fun x => negb (strict_eq x y)) arr.

(** What [==] and [doc[key]] rely on that is the language and not code
    of this repository. [StringToNumber s] is the integer a string
    denotes ([None] when it denotes no integer: [NaN], a fraction, an
    infinity); [ToPrimitive o] is the string an array or an object
    converts to ([Array.prototype.join], ["[object Object]"]), or the
    [TypeError] thrown when the object's own [toString]/[valueOf]
    properties hide the inherited methods. [Inherited o k] is the
    property named [k] that the value [o] inherits from its prototype
    ([constructor], [toString], [__proto__], [push], ...), [None] when
    it inherits none; an inherited property is a built-in function or a
    prototype object, not a JSON value, and the table gives the
    primitive it converts to under [==] (the source text of the
    function, ["[object Object]"] for [Object.prototype]). Every theorem
    below holds whatever these three functions are. *)
Class Coercions : Type := {
  StringToNumber : string -> option Z;
  ToPrimitive : value -> result string;
  Inherited : value -> string -> option value
}.

Section LooseEquality.
Context `{Coercions}.

Definition is_object (v : value) : bool :=
  match v with VArr _ | VObj _ => true | _ => false end.

(** [ToNumber] on the one type [==] applies it to first. *)
Definition bool_to_number (v : value) : value :=
  match v with VBool b => VNum (Z.b2z b) | _ => v end.

(** [==] between numbers and strings. *)
Definition scalar_loose_eq (x y : value) : bool :=
  match x, y with
  | VNum a, VNum b => bool_decide (a = b)
  | VStr a, VStr b => bool_decide (a = b)
  | VNum a, VStr s | VStr s, VNum a => bool_decide (StringToNumber s = Some a)
  | _, _ => false
  end.

(** [x == y] (IsLooselyEqual): [null] and [undefined] equal each other
    and nothing else; a boolean is first turned into a number; an object
    against a number or a string is first turned into a string; two
    objects are compared by identity and, coming from two different
    parses, differ. *)
Definition loose_eq (x y : option value) : result bool :=
  match x, y with
  | (None | Some VNull), (None | Some VNull) => Ok true
  | (None | Some VNull), Some _ | Some _, (None | Some VNull) => Ok false
  | Some a, Some b =>
      let a := bool_to_number a in
      let b := bool_to_number b in
      match is_object a, is_object b with
      | true, true => Ok false
      | true, false => s ← ToPrimitive a; Ok (scalar_loose_eq (VStr s) b)
      | false, true => s ← ToPrimitive b; Ok (scalar_loose_eq a (VStr s))
      | false, false => Ok (scalar_loose_eq a b)
      end
  end.

End LooseEquality.

(** [o.k] for the property names the handlers spell out ([id],
    [username], [password], [likers], [length], [following],
    [followers]): own properties of an object, [length] of an array or
    a string, [undefined] otherwise, and a [TypeError] on [null]. None
    of these names is inherited from a prototype and none is an index;
    a name the request chooses goes through [get_index] instead. *)
Definition get_prop (o : value) (k : string) : result (option value) :=
  match o with
  | VNull => Raise TypeError
  | VObj m => Ok (m !! k)
  | VArr l => Ok (if bool_decide (k = "length") then Some (VNum (Z.of_nat (length l))) else None)
  | VStr s => Ok (if bool_decide (k = "length") then Some (VNum (Z.of_nat (String.length s))) else None)
  | VBool _ | VNum _ => Ok None
  end.

(** [o.k = x] as the next [JSON.stringify] sees it. On an object the
    property is set, and a property set to [undefined] is not written
    out. The file is not in strict mode: on a number, a string or a
    boolean the assignment does nothing, and on an array it sets a named
    property that [JSON.stringify] leaves out. On [null] it throws. *)
Definition set_prop (o : value) (k : string) (x : option value) : result value :=
  match o with
  | VNull => Raise TypeError
  | VObj m => Ok (VObj (match x with Some v => <[k := v]> m | None => delete k m end))
  | _ => Ok o
  end.

(** The own enumerable properties [{...o}] copies: those of an object,
    the indices of an array or of a string, none otherwise. *)
Fixpoint chars (s : string) : list value :=
  match s with
  | EmptyString => []
  | String c s' => VStr (String c EmptyString) :: chars s'
  end.

Definition indexed (l : list value) : gmap string value :=
  list_to_map (imap (fun i v => (pretty i, v)) l).

Definition spread (o : option value) : gmap string value :=
  match o with
  | Some (VObj m) => m
  | Some (VArr l) => indexed l
  | Some (VStr s) => indexed (chars s)
  | _ => ∅
  end.

(** Array methods, on whatever [JSON.parse] returned: on anything but an
    array the method is missing or not a function, a [TypeError]. The
    callbacks may throw. *)
Definition as_array (v : value) : result (list value) :=
  match v with VArr l => Ok l | _ => Raise TypeError end.

Fixpoint array_findIndex_from (p : value -> result bool) (l : list value) (i : nat) : result (option nat) :=
  match l with
  | [] => Ok None
  | d :: l' =>
      b ← p d;
      if (b : bool) then Ok (Some i) else array_findIndex_from p l' (S i)
  end.

(** [arr.findIndex(p)]; [None] is [-1]. *)
Definition array_findIndex (p : value -> result bool) (l : list value) : result (option nat) :=
  array_findIndex_from p l 0.

(** [arr.find(p)] *)
Fixpoint array_find (p : value -> result bool) (l : list value) : result (option value) :=
  match l with
  | [] => Ok None
  | d :: l' =>
      b ← p d;
      if (b : bool) then Ok (Some d) else array_find p l'
  end.

(** [arr.some(p)] *)
Fixpoint array_some (p : value -> result bool) (l : list value) : result bool :=
  match l with
  | [] => Ok false
  | d :: l' =>
      b ← p d;
      if (b : bool) then Ok true else array_some p l'
  end.

(** [arr.filter(p)] *)
Fixpoint array_filter (p : value -> result bool) (l : list value) : result (list value) :=
  match l with
  | [] => Ok []
  | d :: l' =>
      b ← p d;
      r ← array_filter p l';
      Ok (if (b : bool) then d :: r else r)
  end.

End Js.

Export Js.

(* ================================================================== *)
(** * Files, and programs that read and write them *)
(* ================================================================== *)

(** The text of a file, as far as [JSON.parse] tells texts apart: the
    text of a JSON value, or a text that [JSON.parse] rejects. *)
Inductive text : Type :=
| Garbled
| Stringified (v : value).

Definition JSON_parse (t : text) : result value :=
  match t with
  | Stringified v => Ok v
  | Garbled => Raise SyntaxError
  end.

Definition JSON_stringify (v : value) : text := Stringified v.

(** The data directory: file name (relative to [dataDir]) to text. A
    name that is not bound is a file that does not exist. *)
Abbreviation files := (gmap string text).

(** How an [fs] promise settles. *)
Inductive outcome (A : Type) : Type :=
| Done (a : A)
| Failed (code : fs_error).
Arguments Done {A} a.
Arguments Failed {A} code.

(** An [async] function body. [ReadFile] and [WriteFile] are the two
    calls it awaits ([fs.readFile(path, 'utf-8')] and
    [fs.writeFile(path, data, 'utf-8')]); between two of them the code
    runs without interruption. *)
Inductive prog (A : Type) : Type :=
| Ret (a : A)
| Throw (e : exn)
| ReadFile (path : string) (k : outcome text -> prog A)
| WriteFile (path : string) (data : text) (k : outcome unit -> prog A).
Arguments Ret {A} a.
Arguments Throw {A} e.
Arguments ReadFile {A} path k.
Arguments WriteFile {A} path data k.

Fixpoint prog_bind {A B : Type} (f : A -> prog B) (p : prog A) : prog B :=
  match p with
  | Ret a => f a
  | Throw e => Throw e
  | ReadFile path k => ReadFile path (fun r => prog_bind f (k r))
  | WriteFile path data k => WriteFile path data (fun r => prog_bind f (k r))
  end.

#[export] Instance prog_mret : MRet prog := fun A a => Ret a.
#[export] Instance prog_mbind : MBind prog := fun A B f p => prog_bind f p.

(** [try { p } catch (err) { h err }] *)
Fixpoint try_catch {A : Type} (p : prog A) (h : exn -> prog A) : prog A :=
  match p with
  | Ret a => Ret a
  | Throw e => h e
  | ReadFile path k => ReadFile path (fun r => try_catch (k r) h)
  | WriteFile path data k => WriteFile path data (fun r => try_catch (k r) h)
  end.

(** Synchronous code inside an [async] function. *)
Definition lift {A : Type} (r : result A) : prog A :=
  match r with Ok a => Ret a | Raise e => Throw e end.

(* ================================================================== *)
(** * Helper functions of the server *)
(* ================================================================== *)

Definition allowed : list string :=
  ["users"; "ads"; "posts"; "notifications"; "reports"].

(** [getFilePath]: the path is kept relative to [dataDir]. *)
Definition getFilePath (collection : string) : result string :=
  if bool_decide (collection ∈ allowed)
  then Ok (collection +:+ ".json")
  else Raise (Error "Invalid collection").

(** [readCollection]: [getFilePath] is outside the [try]; inside it a
    missing file gives the empty array and every other error, the
    [SyntaxError] of [JSON.parse] included, is thrown again. *)
Definition readCollection (collection : string) : prog value :=
  file ← lift (getFilePath collection);
  ReadFile file (fun r =>
    match r with
    | Done data => lift (JSON_parse data)
    | Failed ENOENT => Ret (VArr [])
    | Failed code => Throw (FsError code)
    end).

(** [writeCollection]: one [fs.writeFile] on the collection's own file. *)
Definition writeCollection (collection : string) (data : value) : prog unit :=
  file ← lift (getFilePath collection);
  WriteFile file (JSON_stringify data) (fun r =>
    match r with
    | Done _ => Ret ()
    | Failed code => Throw (FsError code)
    end).

(** What a request reads from the random generator and the clock:
    [Math.random().toString(36).slice(2, 12)], [Date.now().toString(36)]
    and [new Date().toISOString()]. *)
Record clock : Type := Clock {
  random36 : string;
  now36 : string;
  now_iso : string
}.

Definition generateId (env : clock) : string := random36 env +:+ now36 env.

(* ================================================================== *)
(** * Requests and responses *)
(* ================================================================== *)

(** The body of a response: [res.json(v)], or [{ error: err.message }]
    for an error whose message the runtime words, or the bare status
    text of [res.sendStatus], or the router's own answer when no route
    matches. *)
Inductive payload : Type :=
| Json (v : value)
| RuntimeMessage (e : exn)
| StatusText
| NoRoute.

Record response : Type := Response {
  status : nat;
  payload_of : payload
}.

(** [{ error: message }] *)
Definition error_json (message : string) : payload :=
  Json (VObj {[ "error" := VStr message ]}).

(** [{ error: err.message }] *)
Definition error_body (err : exn) : payload :=
  match err with
  | Error message => error_json message
  | _ => RuntimeMessage err
  end.

(** The [try { ... } catch (err) { res.status(400).json({ error:
    err.message }) }] around every handler body. *)
Definition guarded (p : prog response) : prog response :=
  try_catch p (fun err => Ret (Response 400 (error_body err))).

(* ================================================================== *)
(** * The route handlers *)
(* ================================================================== *)

Section Handlers.
Context `{Coercions}.

(** A value other than [null] and [undefined]. *)
Definition defined (x : option value) : Prop :=
  match x with None | Some VNull => False | Some _ => True end.

(** [d => d.id == id] and [u => u.username == username] *)
Definition id_is (id : option value) (d : value) : result bool :=
  x ← get_prop d "id"; loose_eq x id.

Definition username_is (username : option value) (u : value) : result bool :=
  x ← get_prop u "username"; loose_eq x username.

(** [docs[idx].k = x] *)
Definition assign_at (docs : list value) (idx : nat) (k : string) (x : option value) : result (list value) :=
  match docs !! idx with
  | Some d => d' ← set_prop d k x; Ok (<[idx := d']> docs)
  | None => Raise TypeError
  end.

(** [doc[key]] for a name the request chooses. The own property when
    there is one: a property of an object, the [length] or an index of
    an array or of a string. Failing that, the property the value
    inherits from its prototype, when it inherits one of that name (see
    [Inherited]). [undefined] otherwise, and a [TypeError] on [null]. *)
Definition get_index (o : value) (k : string) : result (option value) :=
  x ← get_prop o k;
  Ok (match x with
      | Some v => Some v
      | None =>
          match spread (Some o) !! k with
          | Some v => Some v
          | None => Inherited o k
          end
      end).

(** [GET /:collection]: one [docs.filter(doc => doc[key] == val)] per
    entry of [req.query]. The entries are names and strings: a query
    parser that builds an array or an object for a repeated or
    bracketed name hands over a value that is not a string, which is
    outside the model. *)
Fixpoint filter_by (query : list (string * string)) (docs : value) : result value :=
  match query with
  | [] => Ok docs
  | (key, val) :: query' =>
      l ← as_array docs;
      l' ← array_filter (fun doc => x ← get_index doc key; loose_eq x (Some (VStr val))) l;
      filter_by query' (VArr l')
  end.

Definition list_docs (collection : string) (query : list (string * string)) : prog response :=
  guarded (
    docs ← readCollection collection;
    docs ← lift (filter_by query docs);
    Ret (Response 200 (Json docs))).

(** [GET /:collection/:id] *)
Definition get_doc (collection id : string) : prog response :=
  guarded (
    docs ← readCollection collection;
    l ← lift (as_array docs);
    doc ← lift (array_find (id_is (Some (VStr id))) l);
    if negb (truthy doc)
    then Ret (Response 404 (error_json "Not found"))
    else Ret (Response 200 (Json (stored doc)))).

(** [{ ...req.body, id: generateId(), createdAt: new Date().toISOString() }] *)
Definition new_doc (env : clock) (body : gmap string value) : value :=
  VObj (<["createdAt" := VStr (now_iso env)]>
       (<["id" := VStr (generateId env)]> body)).

(** [POST /:collection] *)
Definition insert_doc (env : clock) (collection : string) (body : gmap string value) : prog response :=
  guarded (
    docs ← readCollection collection;
    let newDoc := new_doc env body in
    l ← lift (as_array docs);
    writeCollection collection (VArr (l ++ [newDoc]));;
    Ret (Response 201 (Json newDoc))).

(** The notification a like adds. The message is the source's text,
    byte for byte; nothing measures it. *)
Definition like_message (collection : string) : string :=
  "تم الإعجاب بـ " +:+ (if bool_decide (collection = "posts") then "منشور" else "إعلان").

Definition like_notification (env : clock) (collection id : string) (body : gmap string value) : value :=
  VObj (<["id" := VStr (generateId env)]>
       (<["type" := VStr "like"]>
       (<["collection" := VStr collection]>
       (<["targetId" := VStr id]>
       (<["likerId" := or_else (body !! "likerId") VNull]>
       (<["createdAt" := VStr (now_iso env)]>
       (<["message" := VStr (like_message collection)]> ∅))))))).

(** The test that sends a patch to the like branch:
    [(collection === 'posts' || collection === 'ads') && req.body.likers] *)
Definition like_intercept (collection : string) (body : gmap string value) : bool :=
  (bool_decide (collection = "posts") || bool_decide (collection = "ads"))
  && truthy (body !! "likers").

(** [PATCH /:collection/:id] *)
Definition patch_doc (env : clock) (collection id : string) (body : gmap string value) : prog response :=
  guarded (
    docs ← readCollection collection;
    l ← lift (as_array docs);
    idx ← lift (array_findIndex (id_is (Some (VStr id))) l);
    match idx with
    | None => Ret (Response 404 (error_json "Not found"))
    | Some idx =>
        l ← (if like_intercept collection body
             then
               l ← lift (assign_at l idx "likers" (body !! "likers"));
               len ← lift (get_prop (stored (body !! "likers")) "length");
               l ← lift (assign_at l idx "likesCount" len);
               notifications ← readCollection "notifications";
               ns ← lift (as_array notifications);
               writeCollection "notifications"
                 (VArr (ns ++ [like_notification env collection id body]));;
               Ret l
             else
               Ret (<[idx := VObj (body ∪ spread (l !! idx))]> l));
        writeCollection collection (VArr l);;
        Ret (Response 200 (Json (stored (l !! idx))))
    end).

(** [DELETE /:collection/:id] *)
Definition delete_doc (collection id : string) : prog response :=
  guarded (
    docs ← readCollection collection;
    l ← lift (as_array docs);
    idx ← lift (array_findIndex (id_is (Some (VStr id))) l);
    match idx with
    | None => Ret (Response 404 (error_json "Not found"))
    | Some idx =>
        let removed := stored (l !! idx) in
        writeCollection collection (VArr (delete idx l));;
        Ret (Response 200 (Json removed))
    end).

(** ** Toggle follow

    [follower] and [following] are the elements [users[followerIdx]] and
    [users[followingIdx]] themselves, and are one and the same object
    when the two indices are equal. The handler's assignments are
    therefore made on a table of the elements' named properties, by
    index: [Some m] for an element that holds properties (an object; an
    array too, which starts with none of the names used here), [None]
    for a number, a string or a boolean, on which an assignment does
    nothing and a read gives [undefined]. *)
Definition props (e : value) : option (gmap string value) :=
  match e with
  | VObj m => Some m
  | VArr _ => Some ∅
  | _ => None
  end.

(** The element as [JSON.stringify] writes it afterwards: named
    properties of an array are left out. *)
Definition with_props (e : value) (p : option (gmap string value)) : value :=
  match e, p with
  | VObj _, Some m => VObj m
  | _, _ => e
  end.

Definition mem_get (mem : list (option (gmap string value))) (i : nat) (k : string) : option value :=
  p ← mem !! i; m ← p; m !! k.

Definition mem_set (mem : list (option (gmap string value))) (i : nat) (k : string) (v : value)
  : list (option (gmap string value)) :=
  alter (fmap (insert k v)) i mem.

Definition toggle (users : list value) (followerIdx followingIdx : nat)
    (followerId followingId : option value) : result (list value) :=
  let mem := props <$> users in
  (* follower.following = follower.following || [] *)
  let mem := mem_set mem followerIdx "following"
               (or_else (mem_get mem followerIdx "following") (VArr [])) in
  (* following.followers = following.followers || [] *)
  let mem := mem_set mem followingIdx "followers"
               (or_else (mem_get mem followingIdx "followers") (VArr [])) in
  fl ← from_option as_array (Raise TypeError) (mem_get mem followerIdx "following");
  mem ←
    (if negb (includes fl followingId) then
       let mem := mem_set mem followerIdx "following" (VArr (fl ++ [stored followingId])) in
       gl ← from_option as_array (Raise TypeError) (mem_get mem followingIdx "followers");
       Ok (mem_set mem followingIdx "followers" (VArr (gl ++ [stored followerId])))
     else
       let mem := mem_set mem followerIdx "following" (VArr (without fl followingId)) in
       gl ← from_option as_array (Raise TypeError) (mem_get mem followingIdx "followers");
       Ok (mem_set mem followingIdx "followers" (VArr (without gl followerId))));
  Ok (zip_with with_props users mem).

(** [POST /users/toggle-follow] *)
Definition toggle_follow (body : gmap string value) : prog response :=
  guarded (
    let followerId := body !! "followerId" in
    let followingId := body !! "followingId" in
    users ← readCollection "users";
    l ← lift (as_array users);
    followerIdx ← lift (array_findIndex (id_is followerId) l);
    followingIdx ← lift (array_findIndex (id_is followingId) l);
    match followerIdx, followingIdx with
    | Some followerIdx, Some followingIdx =>
        l ← lift (toggle l followerIdx followingIdx followerId followingId);
        writeCollection "users" (VArr l);;
        Ret (Response 200 (Json (VObj
          (<["follower" := stored (l !! followerIdx)]>
          (<["following" := stored (l !! followingIdx)]> ∅)))))
    | _, _ => Ret (Response 404 (error_json "User not found"))
    end).

(** The user a signup builds: the rest of the body, then [username],
    [password], [id], [createdAt], [approvalStatus], [isBlocked],
    [followers], [following]. *)
Definition new_user (env : clock) (body : gmap string value) : value :=
  let username := body !! "username" in
  let password := body !! "password" in
  let rest := delete "password" (delete "username" body) in
  VObj (<["following" := VArr []]>
       (<["followers" := VArr []]>
       (<["isBlocked" := VBool false]>
       (<["approvalStatus" := VStr "pending"]>
       (<["createdAt" := VStr (now_iso env)]>
       (<["id" := VStr (generateId env)]>
       (<["password" := stored password]>
       (<["username" := stored username]> rest)))))))).

(** [POST /signup] *)
Definition signup (env : clock) (body : gmap string value) : prog response :=
  guarded (
    let username := body !! "username" in
    let password := body !! "password" in
    if negb (truthy username) || negb (truthy password)
    then Ret (Response 400 (error_json "Missing username or password"))
    else
      users ← readCollection "users";
      l ← lift (as_array users);
      taken ← lift (array_some (username_is username) l);
      if (taken : bool)
      then Ret (Response 400 (error_json "Username already exists"))
      else
        let user := new_user env body in
        writeCollection "users" (VArr (l ++ [user]));;
        Ret (Response 201 (Json user))).

(** [POST /login] *)
Definition login (body : gmap string value) : prog response :=
  guarded (
    let username := body !! "username" in
    let password := body !! "password" in
    users ← readCollection "users";
    l ← lift (as_array users);
    user ← lift (array_find (fun u =>
              b ← username_is username u;
              if (b : bool)
              then x ← get_prop u "password"; loose_eq x password
              else Ok false) l);
    if negb (truthy user)
    then Ret (Response 401 (error_json "Invalid credentials"))
    else Ret (Response 200 (Json (stored user)))).

(** [POST /reports] *)
Definition submit_report (env : clock) (body : gmap string value) : prog response :=
  guarded (
    reports ← readCollection "reports";
    let report :=
      VObj (<["status" := VStr "new"]>
           (<["createdAt" := VStr (now_iso env)]>
           (<["id" := VStr (generateId env)]> body))) in
    l ← lift (as_array reports);
    writeCollection "reports" (VArr (l ++ [report]));;
    Ret (Response 201 (Json report))).

(** The four moderation routes: [docs[idx].field = x] on one
    collection. *)
Definition set_field (collection id field : string) (x : option value) (missing : string) : prog response :=
  guarded (
    docs ← readCollection collection;
    l ← lift (as_array docs);
    idx ← lift (array_findIndex (id_is (Some (VStr id))) l);
    match idx with
    | None => Ret (Response 404 (error_json missing))
    | Some idx =>
        l ← lift (assign_at l idx field x);
        writeCollection collection (VArr l);;
        Ret (Response 200 (Json (stored (l !! idx))))
    end).

(** [PATCH /ads/:id/approval] *)
Definition ad_approval (id : string) (body : gmap string value) : prog response :=
  set_field "ads" id "status" (body !! "status") "Ad not found".

(** [PATCH /users/:id/approval] *)
Definition user_approval (id : string) (body : gmap string value) : prog response :=
  set_field "users" id "approvalStatus" (body !! "approvalStatus") "User not found".

(** [PATCH /users/:id/block] *)
Definition user_block (id : string) (body : gmap string value) : prog response :=
  set_field "users" id "isBlocked" (body !! "isBlocked") "User not found".

(** [PATCH /reports/:id/resolve] *)
Definition resolve_report (id : string) : prog response :=
  set_field "reports" id "status" (Some (VStr "resolved")) "Report not found".

(* ================================================================== *)
(** * The router *)
(* ================================================================== *)

Inductive method : Type := GET | POST | PATCH | DELETE.

#[export] Instance method_eq_dec : EqDecision method.
Proof. solve_decision. Defined.

(** A request as the HTTP layer hands it over to the routes: the path
    cut at its slashes (the segments are not empty), the entries of
    [req.query] (names and strings), the body [express.json()] parsed
    (an object; the empty object when there is none). The methods are
    those the file registers routes for. What the middleware answers
    itself (a preflight [OPTIONS] by [cors()], a body [express.json()]
    refuses) never gets here. *)
Record request : Type := Request {
  req_method : method;
  req_path : list string;
  req_query : list (string * string);
  req_body : gmap string value
}.

(** A path pattern: literal segments and [:name] parameters. *)
Inductive segment : Type :=
| Lit (s : string)
| Param.

(** Express compares literal segments without regard to case. *)
Definition lower_ascii (c : Ascii.ascii) : Ascii.ascii :=
  let n := Ascii.nat_of_ascii c in
  if bool_decide (65 ≤ n ≤ 90) then Ascii.ascii_of_nat (n + 32) else c.

Fixpoint lower (s : string) : string :=
  match s with
  | EmptyString => EmptyString
  | String c s' => String (lower_ascii c) (lower s')
  end.

(** The parameters a path gives a pattern, in order, when it matches.
    The segments of a path are not empty, as Express binds no parameter
    to an empty string. *)
Fixpoint match_path (pattern : list segment) (path : list string) : option (list string) :=
  match pattern, path with
  | [], [] => Some []
  | Lit s :: pattern', x :: path' =>
      if bool_decide (lower s = lower x) then match_path pattern' path' else None
  | Param :: pattern', x :: path' => cons x <$> match_path pattern' path'
  | _, _ => None
  end.

Inductive handler : Type :=
| Root | Health
| ListDocs | GetDoc | InsertDoc | PatchDoc | DeleteDoc
| ToggleFollow | Signup | Login | SubmitReport
| AdApproval | UserApproval | UserBlock | ResolveReport.

(** The routes, in the order the file registers them. *)
Definition routes : list (method * list segment * handler) :=
  [ (GET, [], Root);
    (GET, [Lit "health"], Health);
    (GET, [Param], ListDocs);
    (GET, [Param; Param], GetDoc);
    (POST, [Param], InsertDoc);
    (PATCH, [Param; Param], PatchDoc);
    (DELETE, [Param; Param], DeleteDoc);
    (POST, [Lit "users"; Lit "toggle-follow"], ToggleFollow);
    (POST, [Lit "signup"], Signup);
    (POST, [Lit "login"], Login);
    (POST, [Lit "reports"], SubmitReport);
    (PATCH, [Lit "ads"; Param; Lit "approval"], AdApproval);
    (PATCH, [Lit "users"; Param; Lit "approval"], UserApproval);
    (PATCH, [Lit "users"; Param; Lit "block"], UserBlock);
    (PATCH, [Lit "reports"; Param; Lit "resolve"], ResolveReport) ].

(** The first route whose method and pattern match handles the request;
    no handler passes the request on. *)
Fixpoint dispatch_in (table : list (method * list segment * handler))
    (m : method) (path : list string) : option (handler * list string) :=
  match table with
  | [] => None
  | (m', pattern, h) :: table' =>
      if bool_decide (m' = m) then
        match match_path pattern path with
        | Some params => Some (h, params)
        | None => dispatch_in table' m path
        end
      else dispatch_in table' m path
  end.

Definition dispatch (m : method) (path : list string) : option (handler * list string) :=
  dispatch_in routes m path.

(** The application: what one request runs. *)
Definition serve (env : clock) (req : request) : prog response :=
  match dispatch (req_method req) (req_path req) with
  | Some (Root, _) =>
      Ret (Response 200 (Json (VObj (<["status" := VStr "ok"]> (<["service" := VStr "AApp"]> ∅)))))
  | Some (Health, _) => Ret (Response 200 StatusText)
  | Some (ListDocs, [collection]) => list_docs collection (req_query req)
  | Some (GetDoc, [collection; id]) => get_doc collection id
  | Some (InsertDoc, [collection]) => insert_doc env collection (req_body req)
  | Some (PatchDoc, [collection; id]) => patch_doc env collection id (req_body req)
  | Some (DeleteDoc, [collection; id]) => delete_doc collection id
  | Some (ToggleFollow, _) => toggle_follow (req_body req)
  | Some (Signup, _) => signup env (req_body req)
  | Some (Login, _) => login (req_body req)
  | Some (SubmitReport, _) => submit_report env (req_body req)
  | Some (AdApproval, [id]) => ad_approval id (req_body req)
  | Some (UserApproval, [id]) => user_approval id (req_body req)
  | Some (UserBlock, [id]) => user_block id (req_body req)
  | Some (ResolveReport, [id]) => resolve_report id
  | _ => Ret (Response 404 NoRoute)
  end.

End Handlers.

(* ================================================================== *)
(** * Running programs *)
(* ================================================================== *)

(** [fs.readFile]: the text, or [ENOENT] for a file that is not there. *)
Definition fs_read (fs : files) (path : string) : outcome text :=
  match fs !! path with
  | Some t => Done t
  | None => Failed ENOENT
  end.

(** One request alone, every write completing. *)
Fixpoint run {A : Type} (p : prog A) (fs : files) : files * result A :=
  match p with
  | Ret a => (fs, Ok a)
  | Throw e => (fs, Raise e)
  | ReadFile path k => run (k (fs_read fs path)) fs
  | WriteFile path data k => run (k (Done ())) (<[path := data]> fs)
  end.

(** The file-system calls a run makes, in order. *)
Inductive event : Type :=
| Read (path : string)
| Write (path : string) (data : text).

Fixpoint trace {A : Type} (p : prog A) (fs : files) : list event :=
  match p with
  | Ret _ | Throw _ => []
  | ReadFile path k => Read path :: trace (k (fs_read fs path)) fs
  | WriteFile path data k => Write path data :: trace (k (Done ())) (<[path := data]> fs)
  end.

(** One file-system call of a program: the unit of interleaving, and
    the unit a crash cuts a run at. *)
Definition step {A : Type} (p : prog A) (fs : files) : files * prog A :=
  match p with
  | ReadFile path k => (fs, k (fs_read fs path))
  | WriteFile path data k => (<[path := data]> fs, k (Done ()))
  | Ret _ | Throw _ => (fs, p)
  end.

Fixpoint steps {A : Type} (n : nat) (p : prog A) (fs : files) : files * prog A :=
  match n with
  | 0 => (fs, p)
  | S n' => let '(fs', p') := step p fs in steps n' p' fs'
  end.

(** The files a process leaves when it stops after [n] calls. *)
Definition crash_after {A : Type} (n : nat) (p : prog A) (fs : files) : files :=
  (steps n p fs).1.

(** Several requests in flight: a schedule names, call after call, the
    request whose next file-system call is served. *)
Definition serve_next (st : files * list (prog response)) (i : nat) : files * list (prog response) :=
  match st.2 !! i with
  | Some p => let '(fs', p') := step p st.1 in (fs', <[i := p']> st.2)
  | None => st
  end.

Definition interleave (schedule : list nat) (st : files * list (prog response))
  : files * list (prog response) :=
  fold_left serve_next schedule st.

(** [fs.writeFile] opens its file with flag ['w'], which empties it, and
    then writes the text. A write that is cut short leaves a proper
    prefix of the text; the text of an array begins with its opening
    bracket and ends with the closing one, so no proper prefix of it
    (the empty one included) is a JSON text. *)
Inductive fate : Type := Completes | Interrupted.

Definition fs_write (fs : files) (path : string) (data : text) (f : fate) : files :=
  match f with
  | Completes => <[path := data]> fs
  | Interrupted => <[path := Garbled]> fs
  end.

(** A run in which the writes meet the given fates, in order (a write
    beyond the list completes); the promise of an interrupted write is
    rejected. *)
Fixpoint run_with {A : Type} (fates : list fate) (p : prog A) (fs : files) : files * result A :=
  match p with
  | Ret a => (fs, Ok a)
  | Throw e => (fs, Raise e)
  | ReadFile path k => run_with fates (k (fs_read fs path)) fs
  | WriteFile path data k =>
      match fates with
      | Interrupted :: fates' => run_with fates' (k (Failed EIO)) (fs_write fs path data Interrupted)
      | _ => run_with (tail fates) (k (Done ())) (fs_write fs path data Completes)
      end
  end.

(** What [readCollection] returns, file by file. *)
Definition read_result (fs : files) (collection : string) : result value :=
  match fs !! (collection +:+ ".json") with
  | None => Ok (VArr [])
  | Some Garbled => Raise SyntaxError
  | Some (Stringified v) => Ok v
  end.

(** The documents [readCollection] hands to the array methods: those of
    the file when it holds an array, none when the file is missing. *)
Definition read_docs (fs : files) (collection : string) : option (list value) :=
  match read_result fs collection with
  | Ok (VArr l) => Some l
  | _ => None
  end.

(** A document after the two assignments of the like branch:
    [doc.likers = likers; doc.likesCount = likers.length]. *)
Definition with_like (likers : value) (doc : gmap string value) : gmap string value :=
  match get_prop likers "length" with
  | Ok (Some n) => <["likesCount" := n]> (<["likers" := likers]> doc)
  | _ => delete "likesCount" (<["likers" := likers]> doc)
  end.

(** The files after a sequence of calls: only the writes change them. *)
Definition apply_event (fs : files) (e : event) : files :=
  match e with
  | Write path data => <[path := data]> fs
  | Read _ => fs
  end.

Definition replay (events : list event) (fs : files) : files :=
  fold_left apply_event events fs.

(** The files a run writes, in order. *)
Definition written_paths {A : Type} (p : prog A) (fs : files) : list string :=
  omap (fun e => match e with Write path _ => Some path | Read _ => None end) (trace p fs).

(** ** Vocabulary for the users collection *)

(** The value of property [k] of the object [users[i]]. *)
Definition field (users : list value) (i : nat) (k : string) : option value :=
  match users !! i with
  | Some (VObj m) => m !! k
  | _ => None
  end.

(** The ids [users[i]] lists under [k] ([following] or [followers]):
    the entries of the array, none when there is no array. *)
Definition id_list (users : list value) (i : nat) (k : string) : list value :=
  match field users i k with
  | Some (VArr l) => l
  | _ => []
  end.

(** Two lists that hold the same ids, whatever the order and the
    repetitions. *)
Definition same_set (l1 l2 : list value) : Prop :=
  forall v, v ∈ l1 <-> v ∈ l2.

(** A boolean, a number or a string. *)
Definition scalar (v : value) : Prop :=
  match v with
  | VBool _ | VNum _ | VStr _ => True
  | _ => False
  end.

(** A property that holds an array, or that [x || []] replaces by the
    empty array (missing, [null], [false], [0], the empty string). *)
Definition array_or_falsy (x : option value) : Prop :=
  exists l, or_else x (VArr []) = VArr l.

(** [users[i].k = v] on a list of parsed elements. *)
Definition obj_set (k : string) (v : value) (e : value) : value :=
  match e with
  | VObj m => VObj (<[k := v]> m)
  | _ => e
  end.

Definition set_at (i : nat) (k : string) (v : value) (users : list value) : list value :=
  alter (obj_set k v) i users.

(** Two lists of elements that differ only in the properties of their
    objects. *)
Definition same_shape (users users' : list value) : Prop :=
  Forall2 (fun e e' => (exists m m', e = VObj m ∧ e' = VObj m') ∨ e = e') users users'.

(** The followed and follower lists one toggle leaves, from the lists
    [fl] and [gl] it found. *)
Definition toggled_following (fl : list value) (followingId : option value) : list value :=
  if includes fl followingId then without fl followingId else fl ++ [stored followingId].

Definition toggled_followers (fl gl : list value) (followerId followingId : option value) : list value :=
  if includes fl followingId then without gl followerId else gl ++ [stored followerId].

(** The users after one toggle between [users[fi]] and [users[gi]]. *)
Definition after_toggle (users : list value) (fi gi : nat) (followerId followingId : option value)
  : list value :=
  let fl := id_list users fi "following" in
  let gl := id_list users gi "followers" in
  set_at gi "followers" (VArr (toggled_followers fl gl followerId followingId))
    (set_at fi "following" (VArr (toggled_following fl followingId))
       (set_at gi "followers" (VArr gl)
          (set_at fi "following" (VArr fl) users))).

(** The schedule that serves [n] requests one after the other, each
    for [calls] file-system calls in a row. *)
Definition one_at_a_time (calls n : nat) : list nat :=
  flat_map (fun i => replicate calls i) (seq 0 n).

(** The requests [POST /:collection] of a list of callers, each with
    its own clock and body. *)
Definition inserts (collection : string) `{Coercions}
    (callers : list (clock * gmap string value)) : list (prog response) :=
  (fun c => serve c.1 (Request POST [collection] [] c.2)) <$> callers.

(** An encoded array of documents: the text of an array of objects. *)
Definition is_document (v : value) : bool :=
  match v with VObj _ => true | _ => false end.

Definition is_document_array (t : text) : bool :=
  match t with
  | Stringified (VArr l) => forallb is_document l
  | _ => false
  end.

(* ================================================================== *)
(** * A runtime for the closed examples *)
(* ================================================================== *)

(** The closed examples need some [Coercions]. This one reads the plain
    decimal numerals and joins arrays with commas; it gives no number to
    the other spellings the language accepts (blanks, exponents,
    hexadecimal) and prints every integer in decimal. [==] applies
    [ToPrimitive] to arrays and objects only. The examples compare
    strings with strings only, where [==] calls neither coercion. *)
Module Runtime.

Definition digit (c : Ascii.ascii) : option Z :=
  let n := Ascii.nat_of_ascii c in
  if bool_decide (48 ≤ n ≤ 57) then Some (Z.of_nat (n - 48)) else None.

Fixpoint digits (acc : Z) (s : string) : option Z :=
  match s with
  | EmptyString => Some acc
  | String c s' => d ← digit c; digits (10 * acc + d)%Z s'
  end.

Definition string_to_number (s : string) : option Z :=
  match s with
  | EmptyString => Some 0%Z
  | String "-"%char (String c s') => Z.opp <$> digits 0 (String c s')
  | _ => digits 0 s
  end.

Fixpoint join (parts : list string) : string :=
  match parts with
  | [] => EmptyString
  | [p] => p
  | p :: parts' => p +:+ "," +:+ join parts'
  end.

Fixpoint to_string (v : value) : result string :=
  match v with
  | VNull => Ok "null"
  | VBool b => Ok (if b then "true" else "false")
  | VNum n => Ok (pretty n)
  | VStr s => Ok s
  | VArr l =>
      join <$> (fix go (l : list value) : result (list string) :=
        match l with
        | [] => Ok []
        | VNull :: l' => cons EmptyString <$> go l'
        | x :: l' => s ← to_string x; cons s <$> go l'
        end) l
  | VObj m =>
      if bool_decide (is_Some (m !! "toString")) then Raise TypeError
      else Ok "[object Object]"
  end.

(** What a plain object inherits from [Object.prototype], as Node
    prints it. The stored documents are plain objects; the tables of
    [Array.prototype], [String.prototype], [Number.prototype] and
    [Boolean.prototype], from which a stored array, string, number or
    boolean would inherit, are not part of this instance. *)
Definition object_methods : list string :=
  ["__defineGetter__"; "__defineSetter__"; "hasOwnProperty"; "__lookupGetter__";
   "__lookupSetter__"; "isPrototypeOf"; "propertyIsEnumerable"; "toString";
   "valueOf"; "toLocaleString"].

Definition inherited (o : value) (k : string) : option value :=
  match o with
  | VObj _ =>
      if bool_decide (k = "constructor")
      then Some (VStr "function Object() { [native code] }")
      else if bool_decide (k = "__proto__")
      then Some (VStr "[object Object]")
      else if bool_decide (k ∈ object_methods)
      then Some (VStr ("function " +:+ k +:+ "() { [native code] }"))
      else None
  | _ => None
  end.

#[export] Instance decimal : Coercions := {|
  StringToNumber := string_to_number;
  ToPrimitive := to_string;
  Inherited := inherited
|}.

End Runtime.

Export Runtime.


(* ================================================================== *)
(** * Sample data for the closed examples *)
(* ================================================================== *)

Module Sample.

Definition env0 : clock := Clock "k3v9x0q2ab" "lq2x3abc" "2024-01-01T00:00:00.000Z".
Definition env1 : clock := Clock "p7m1z4r8cd" "lq2x3abd" "2024-01-01T00:00:00.001Z".

(** [posts.json] holds one post, [p1]. *)
Definition post1 : gmap string value :=
  <["id" := VStr "p1"]> (<["title" := VStr "hello"]> ∅).

Definition one_post : files :=
  {[ "posts.json" := Stringified (VArr [VObj post1]) ]}.

(** A like by three users, with a field the like branch does not apply. *)
Definition three_likers : list value := [VStr "u1"; VStr "u2"; VStr "u3"].

Definition like_body : gmap string value :=
  <["likers" := VArr three_likers]> (<["likerId" := VStr "u3"]> (<["title" := VStr "changed"]> ∅)).

(** [reports.json] holds the document [{ id: "d1", a: 0, b: 2 }]. *)
Definition doc_ab : gmap string value :=
  <["id" := VStr "d1"]> (<["a" := VNum 0]> (<["b" := VNum 2]> ∅)).

Definition one_doc : files :=
  {[ "reports.json" := Stringified (VArr [VObj doc_ab]) ]}.

Definition patch_a : gmap string value := {[ "a" := VNum 1 ]}.

(** [users.json] holds two users, [a] and [b], who do not follow each
    other. *)
Definition user_a : gmap string value :=
  <["id" := VStr "a"]> (<["username" := VStr "alice"]> ∅).

Definition user_b : gmap string value :=
  <["id" := VStr "b"]> (<["followers" := VArr []]> ∅).

Definition two_users : list value := [VObj user_a; VObj user_b].

Definition users_file : files :=
  {[ "users.json" := Stringified (VArr two_users) ]}.

Definition follow_body : gmap string value :=
  <["followerId" := VStr "a"]> (<["followingId" := VStr "b"]> ∅).

End Sample.

(* ================================================================== *)
(** * Vocabulary for the whole application *)
(* ================================================================== *)

(** [within W Q E p]: along every path of [p], whatever the file system
    answers, each write is to a file in [W], each result satisfies [Q]
    and each exception that escapes satisfies [E]. *)
Inductive within {A : Type} (W : string -> Prop) (Q : A -> Prop) (E : exn -> Prop)
  : prog A -> Prop :=
| within_ret (a : A) : Q a -> within W Q E (Ret a)
| within_throw (e : exn) : E e -> within W Q E (Throw e)
| within_read (path : string) (k : outcome text -> prog A) :
    (forall r, within W Q E (k r)) -> within W Q E (ReadFile path k)
| within_write (path : string) (data : text) (k : outcome unit -> prog A) :
    W path -> (forall r, within W Q E (k r)) -> within W Q E (WriteFile path data k).

(** The file of one of the five collections. *)
Definition collection_file (path : string) : Prop :=
  exists collection, collection ∈ allowed ∧ path = collection +:+ ".json".

(** The statuses the handlers send. *)
Definition statuses : list nat := [200; 201; 400; 401; 404].

(** The files a request may write, read off its route: the file of the
    collection it names, and the notifications for a patch. *)
Definition own_files (req : request) (path : string) : Prop :=
  match req_method req, req_path req with
  | GET, _ => False
  | POST, [collection] => path = collection +:+ ".json"
  | POST, _ => path = "users.json"
  | DELETE, [collection; _] => path = collection +:+ ".json"
  | DELETE, _ => False
  | PATCH, [collection; _] => path = collection +:+ ".json" ∨ path = "notifications.json"
  | PATCH, [collection; _; _] => path = lower collection +:+ ".json"
  | PATCH, _ => False
  end.

(** [doc => doc[key] == val], the test of one query entry. *)
Definition field_is `{Coercions} (key val : string) (doc : value) : result bool :=
  x ← get_index doc key; loose_eq x (Some (VStr val)).

(** An object after [o.k = x]: the property set, or gone from what is
    written when [x] is [undefined]. *)
Definition assigned (k : string) (x : option value) (doc : gmap string value)
  : gmap string value :=
  match x with
  | Some v => <[k := v]> doc
  | None => delete k doc
  end.

(** The test of the [users.find] of [POST /login]:
    [u.username == username && u.password == password]. *)
Definition credentials_are `{Coercions} (username password : option value) (u : value)
  : result bool :=
  b ← username_is username u;
  if (b : bool) then x ← get_prop u "password"; loose_eq x password else Ok false.

(** The first element [p] holds of is [l[idx]]. *)
Definition first_match (p : value -> result bool) (l : list value) (idx : nat) (d : value) : Prop :=
  l !! idx = Some d ∧ p d = Ok true ∧
  forall j x, j < idx -> l !! j = Some x -> p x = Ok false.

(* ================================================================== *)
(** * The read-only server ([server.js]) *)
(* ================================================================== *)

Module Server.

(** One route: [fs.readFile(name + '.json', 'utf8', (err, data) => ...)].
    Any read error is answered 500; the [JSON.parse] of the callback is
    under no [try], so what it throws escapes and no answer is sent. *)
Definition read_all (name : string) : prog response :=
  ReadFile (name +:+ ".json") (fun r =>
    match r with
    | Failed _ => Ret (Response 500 (error_json ("Cannot read " +:+ name)))
    | Done data => v ← lift (JSON_parse data); Ret (Response 200 (Json v))
    end).

(** The four routes, all under [GET]. *)
Definition serve (m : method) (path : list string) : prog response :=
  match m, path with
  | GET, [x] =>
      if bool_decide (lower x = "users") then read_all "users"
      else if bool_decide (lower x = "posts") then read_all "posts"
      else if bool_decide (lower x = "ads") then read_all "ads"
      else if bool_decide (lower x = "notifications") then read_all "notifications"
      else Ret (Response 404 NoRoute)
  | _, _ => Ret (Response 404 NoRoute)
  end.

End Server.

(* ================================================================== *)
(** * Requests in flight *)
(* ================================================================== *)

(** A request that makes a read and then a write, [k] calls into its
    run: not started, between its two calls, settled. *)
Definition in_flight (p mid : prog response) (resp : response) (k : nat) : prog response :=
  match k with
  | 0 => p
  | 1 => mid
  | _ => Ret resp
  end.

(** Its file once its write is made. *)
Definition written (path : string) (data : text) (k : nat) (fs : files) : files :=
  if decide (2 ≤ k) then <[path := data]> fs else fs.
(* ================================================================== *)
(** * Reasoning about runs *)
(* ================================================================== *)

Lemma run_bind {A B : Type} (p : prog A) (f : A -> prog B) (fs : files) :
  run (p ≫= f) fs =
  match run p fs with
  | (fs', Ok a) => run (f a) fs'
  | (fs', Raise e) => (fs', Raise e)
  end.
Proof.
  revert fs. induction p as [a|e|path k IH|path data k IH]; intros fs; simpl; auto.
Qed.

Lemma run_try_catch {A : Type} (p : prog A) (h : exn -> prog A) (fs : files) :
  run (try_catch p h) fs =
  match run p fs with
  | (fs', Ok a) => (fs', Ok a)
  | (fs', Raise e) => run (h e) fs'
  end.
Proof.
  revert fs. induction p as [a|e|path k IH|path data k IH]; intros fs; simpl; auto.
Qed.

Lemma run_lift {A : Type} (r : result A) (fs : files) : run (lift r) fs = (fs, r).
Proof. by destruct r. Qed.

Lemma trace_bind {A B : Type} (p : prog A) (f : A -> prog B) (fs : files) :
  trace (p ≫= f) fs =
  trace p fs ++
  match run p fs with
  | (fs', Ok a) => trace (f a) fs'
  | (_, Raise _) => []
  end.
Proof.
  revert fs. induction p as [a|e|path k IH|path data k IH]; intros fs; simpl;
    [done|done|f_equal; apply IH|f_equal; apply IH].
Qed.

Lemma trace_try_catch {A : Type} (p : prog A) (h : exn -> prog A) (fs : files) :
  trace (try_catch p h) fs =
  trace p fs ++
  match run p fs with
  | (_, Ok _) => []
  | (fs', Raise e) => trace (h e) fs'
  end.
Proof.
  revert fs. induction p as [a|e|path k IH|path data k IH]; intros fs; simpl;
    [done|done|f_equal; apply IH|f_equal; apply IH].
Qed.

Lemma trace_lift {A : Type} (r : result A) (fs : files) : trace (lift r) fs = [].
Proof. by destruct r. Qed.

(** A run is its first [n] calls followed by the rest. *)
Lemma run_steps {A : Type} (n : nat) (p : prog A) (fs : files) :
  run p fs = run (steps n p fs).2 (steps n p fs).1.
Proof.
  revert p fs. induction n as [|n IH]; intros p fs; [done|].
  destruct p as [a|e|path k|path data k]; simpl.
  - clear IH. induction n; simpl; auto.
  - clear IH. induction n; simpl; auto.
  - apply IH.
  - apply IH.
Qed.

(** Stopping a run after [n] calls leaves what its first [n] calls
    wrote. *)
Lemma crash_after_trace {A : Type} (n : nat) (p : prog A) (fs : files) :
  crash_after n p fs = replay (take n (trace p fs)) fs.
Proof.
  unfold crash_after. revert p fs. induction n as [|n IH]; intros p fs; [done|].
  destruct p as [a|e|path k|path data k]; simpl.
  - clear IH. induction n; simpl; auto.
  - clear IH. induction n; simpl; auto.
  - apply IH.
  - apply IH.
Qed.

Lemma getFilePath_allowed (collection : string) :
  collection ∈ allowed -> getFilePath collection = Ok (collection +:+ ".json").
Proof. intros Hc. unfold getFilePath. by rewrite bool_decide_eq_true_2. Qed.

Lemma getFilePath_other (collection : string) :
  collection ∉ allowed -> getFilePath collection = Raise (Error "Invalid collection").
Proof. intros Hc. unfold getFilePath. by rewrite bool_decide_eq_false_2. Qed.

Lemma run_readCollection (collection : string) (fs : files) :
  collection ∈ allowed ->
  run (readCollection collection) fs = (fs, read_result fs collection).
Proof.
  intros Hc. unfold readCollection, read_result.
  rewrite getFilePath_allowed by done. simpl. unfold fs_read.
  destruct (fs !! (collection +:+ ".json")) as [[|v]|]; done.
Qed.

Lemma trace_readCollection (collection : string) (fs : files) :
  collection ∈ allowed ->
  trace (readCollection collection) fs = [Read (collection +:+ ".json")].
Proof.
  intros Hc. unfold readCollection.
  rewrite getFilePath_allowed by done. simpl. unfold fs_read.
  destruct (fs !! (collection +:+ ".json")) as [[|v]|]; done.
Qed.

Lemma run_writeCollection (collection : string) (data : value) (fs : files) :
  collection ∈ allowed ->
  run (writeCollection collection data) fs =
  (<[collection +:+ ".json" := Stringified data]> fs, Ok ()).
Proof.
  intros Hc. unfold writeCollection. by rewrite getFilePath_allowed.
Qed.

Lemma trace_writeCollection (collection : string) (data : value) (fs : files) :
  collection ∈ allowed ->
  trace (writeCollection collection data) fs =
  [Write (collection +:+ ".json") (Stringified data)].
Proof.
  intros Hc. unfold writeCollection. by rewrite getFilePath_allowed.
Qed.

Lemma run_readCollection_other (collection : string) (fs : files) :
  collection ∉ allowed ->
  run (readCollection collection) fs = (fs, Raise (Error "Invalid collection")).
Proof.
  intros Hc. unfold readCollection. by rewrite getFilePath_other.
Qed.

Lemma read_docs_result (fs : files) (collection : string) (docs : list value) :
  read_docs fs collection = Some docs -> read_result fs collection = Ok (VArr docs).
Proof.
  unfold read_docs. destruct (read_result fs collection) as [[]|]; naive_solver.
Qed.

Lemma read_docs_insert (fs : files) (collection : string) (docs : list value) :
  read_docs (<[collection +:+ ".json" := Stringified (VArr docs)]> fs) collection = Some docs.
Proof. unfold read_docs, read_result. by rewrite lookup_insert_eq. Qed.

Lemma run_with_writeCollection (f : fate) (collection : string) (data : value) (fs : files) :
  collection ∈ allowed ->
  run_with [f] (writeCollection collection data) fs =
  (fs_write fs (collection +:+ ".json") (Stringified data) f,
   match f with Completes => Ok () | Interrupted => Raise (FsError EIO) end).
Proof.
  intros Hc. unfold writeCollection. rewrite getFilePath_allowed by done.
  by destruct f.
Qed.

Lemma readCollection_allowed (collection : string) :
  collection ∈ allowed ->
  readCollection collection
  = ReadFile (collection +:+ ".json") (fun r =>
      match r with
      | Done data => lift (JSON_parse data)
      | Failed ENOENT => Ret (VArr [])
      | Failed code => Throw (FsError code)
      end).
Proof. intros Hc. unfold readCollection. by rewrite getFilePath_allowed. Qed.

Lemma writeCollection_allowed (collection : string) (data : value) :
  collection ∈ allowed ->
  writeCollection collection data
  = WriteFile (collection +:+ ".json") (JSON_stringify data) (fun r =>
      match r with
      | Done _ => Ret ()
      | Failed code => Throw (FsError code)
      end).
Proof. intros Hc. unfold writeCollection. by rewrite getFilePath_allowed. Qed.

(** From here on the two helpers are used through the lemmas above. *)
Opaque readCollection writeCollection.

(** A literal collection name is checked by computation. *)
Ltac solve_allowed :=
  first [ assumption | apply (bool_decide_unpack _); vm_compute; exact I ].

(** Rewriting the trace of a handler into the traces of its parts. *)
Ltac trace_simpl :=
  repeat first
    [ rewrite trace_bind
    | rewrite trace_try_catch
    | rewrite trace_lift
    | rewrite trace_readCollection by solve_allowed
    | rewrite trace_writeCollection by solve_allowed
    | rewrite run_bind
    | rewrite run_try_catch
    | rewrite run_lift
    | rewrite run_readCollection by solve_allowed
    | rewrite run_writeCollection by solve_allowed
    | progress simpl ].

(** Rewriting a run of a handler into the runs of its parts. *)
Ltac run_simpl :=
  repeat first
    [ rewrite run_bind
    | rewrite run_try_catch
    | rewrite run_lift
    | rewrite run_readCollection by solve_allowed
    | rewrite run_writeCollection by solve_allowed
    | progress simpl ].

(* ================================================================== *)
(** * The operations on small inputs *)
(* ================================================================== *)

(** An empty array is truthy: a patch with [likers: []] takes the like
    branch. *)
Example empty_array_truthy : truthy (Some (VArr [])) = true.
Proof. reflexivity. Qed.

Example empty_string_falsy : truthy (Some (VStr EmptyString)) = false.
Proof. reflexivity. Qed.

Example undefined_loosely_null `{Coercions} : loose_eq None (Some VNull) = Ok true.
Proof. reflexivity. Qed.

Example undefined_not_a_string `{Coercions} (s : string) :
  loose_eq None (Some (VStr s)) = Ok false.
Proof. reflexivity. Qed.

Example strings_compared_exactly `{Coercions} :
  loose_eq (Some (VStr "Ann")) (Some (VStr "ann")) = Ok false.
Proof. reflexivity. Qed.

Example id_of_null_throws `{Coercions} (x : option value) : id_is x VNull = Raise TypeError.
Proof. reflexivity. Qed.

Example length_of_string : get_prop (VStr "abc") "length" = Ok (Some (VNum 3)).
Proof. reflexivity. Qed.

Example includes_is_strict :
  includes [VStr "1"] (Some (VNum 1)) = false ∧ includes [VNum 1] (Some (VNum 1)) = true.
Proof. split; reflexivity. Qed.

Example valid_name : getFilePath "posts" = Ok "posts.json".
Proof. reflexivity. Qed.

Example invalid_name : getFilePath "signup" = Raise (Error "Invalid collection").
Proof. reflexivity. Qed.

(** Routes of one segment under [POST] all fall to [/:collection]. *)
Example post_reports_is_insert : dispatch POST ["reports"] = Some (InsertDoc, ["reports"]).
Proof. reflexivity. Qed.

Example post_login_is_insert : dispatch POST ["login"] = Some (InsertDoc, ["login"]).
Proof. reflexivity. Qed.

Example patch_approval_routed :
  dispatch PATCH ["ads"; "7"; "approval"] = Some (AdApproval, ["7"]).
Proof. reflexivity. Qed.

(* ================================================================== *)
(** * The collection store: [readCollection] and [writeCollection] *)
(* ================================================================== *)

(** C8, as the code has it: on a valid collection name [readCollection]
    returns the empty array when the file does not exist, throws (the
    [SyntaxError] of [JSON.parse]) when the file's text is not JSON, and
    otherwise returns whatever value the text denotes, unchecked: an
    array of documents, but just as well an object, a number or an
    array of anything. It never changes a file. *)
Theorem readCollection_spec (collection : string) (fs : files) :
  collection ∈ allowed ->
  (fs !! (collection +:+ ".json") = None ->
     run (readCollection collection) fs = (fs, Ok (VArr []))) ∧
  (fs !! (collection +:+ ".json") = Some Garbled ->
     run (readCollection collection) fs = (fs, Raise SyntaxError)) ∧
  (forall v, fs !! (collection +:+ ".json") = Some (Stringified v) ->
     run (readCollection collection) fs = (fs, Ok v)).
Proof.
  intros Hc. rewrite run_readCollection by done. unfold read_result.
  repeat split; [intros ->|intros ->|intros v ->]; done.
Qed.

(** A collection that was never written reads as the empty array. *)
Lemma readCollection_spec_witness :
  run (readCollection "posts") ∅ = (∅, Ok (VArr [])).
Proof.
  assert (Hc : "posts" ∈ allowed) by solve_allowed.
  exact (proj1 (readCollection_spec "posts" ∅ Hc) eq_refl).
Defined.

(** C8, as the specification states it, fails on a file that holds JSON
    which is not an array of documents: the text [{}] is no encoded
    document array, and [readCollection] returns the object without any
    error. *)
Lemma readCollection_returns_non_array :
  is_document_array (Stringified (VObj ∅)) = false ∧
  run (readCollection "posts") {[ "posts.json" := Stringified (VObj ∅) ]}
  = ({[ "posts.json" := Stringified (VObj ∅) ]}, Ok (VObj ∅)).
Proof. split; reflexivity. Qed.

(** C9, as the code has it: on a valid collection name
    [writeCollection] makes exactly one file-system call, an
    [fs.writeFile] on the collection's own file (no temporary file, no
    rename). When the write completes the file holds the new array and
    [readCollection] returns it; when the write is cut short the promise
    is rejected and the file is left holding neither the old nor the new
    array. *)
Theorem writeCollection_in_place (collection : string) (data : value) (fs : files) :
  collection ∈ allowed ->
  trace (writeCollection collection data) fs
    = [Write (collection +:+ ".json") (JSON_stringify data)] ∧
  run_with [Completes] (writeCollection collection data) fs
    = (<[collection +:+ ".json" := JSON_stringify data]> fs, Ok ()) ∧
  run (readCollection collection) (<[collection +:+ ".json" := JSON_stringify data]> fs)
    = (<[collection +:+ ".json" := JSON_stringify data]> fs, Ok data) ∧
  run_with [Interrupted] (writeCollection collection data) fs
    = (<[collection +:+ ".json" := Garbled]> fs, Raise (FsError EIO)).
Proof.
  intros Hc. split; [by apply trace_writeCollection|].
  split; [|split].
  - by rewrite run_with_writeCollection.
  - rewrite run_readCollection by done. unfold read_result, JSON_stringify.
    by rewrite lookup_insert_eq.
  - by rewrite run_with_writeCollection.
Qed.

(** Writing the empty array to [posts] is one write of [posts.json]. *)
Lemma writeCollection_in_place_witness :
  trace (writeCollection "posts" (VArr [])) ∅ = [Write "posts.json" (Stringified (VArr []))].
Proof.
  assert (Hc : "posts" ∈ allowed) by solve_allowed.
  exact (proj1 (writeCollection_in_place "posts" (VArr []) ∅ Hc)).
Defined.

(** C9, as the specification states it, fails: a write of two documents
    over a file that held one, cut short, leaves a file from which
    neither the previous state nor the new one can be read. *)
Lemma writeCollection_torn :
  let d1 := VObj {[ "id" := VStr "a" ]} in
  let d2 := VObj {[ "id" := VStr "b" ]} in
  let before : files := {[ "posts.json" := Stringified (VArr [d1]) ]} in
  let after := (run_with [Interrupted] (writeCollection "posts" (VArr [d1; d2])) before).1 in
  run (readCollection "posts") before = (before, Ok (VArr [d1])) ∧
  after !! "posts.json" ≠ before !! "posts.json" ∧
  run (readCollection "posts") after = (after, Raise SyntaxError).
Proof.
  split; [reflexivity|split; [vm_compute; discriminate|reflexivity]].
Qed.

(* ================================================================== *)
(** * Routing *)
(* ================================================================== *)

Section Routing.
Context `{Coercions}.

Lemma dispatch_insert (collection : string) :
  dispatch POST [collection] = Some (InsertDoc, [collection]).
Proof. reflexivity. Qed.

Lemma dispatch_get (collection id : string) :
  dispatch GET [collection; id] = Some (GetDoc, [collection; id]).
Proof. unfold dispatch. simpl. by case_bool_decide. Qed.

Lemma dispatch_patch (collection id : string) :
  dispatch PATCH [collection; id] = Some (PatchDoc, [collection; id]).
Proof. reflexivity. Qed.

Lemma dispatch_toggle_follow :
  dispatch POST ["users"; "toggle-follow"] = Some (ToggleFollow, []).
Proof. reflexivity. Qed.

Lemma serve_insert (env : clock) (collection : string) q (body : gmap string value) :
  serve env (Request POST [collection] q body) = insert_doc env collection body.
Proof. reflexivity. Qed.

Lemma serve_get (env : clock) (collection id : string) q (body : gmap string value) :
  serve env (Request GET [collection; id] q body) = get_doc collection id.
Proof. unfold serve. simpl req_method. simpl req_path. by rewrite dispatch_get. Qed.

Lemma serve_patch (env : clock) (collection id : string) q (body : gmap string value) :
  serve env (Request PATCH [collection; id] q body) = patch_doc env collection id body.
Proof. reflexivity. Qed.

Lemma serve_toggle_follow (env : clock) q (body : gmap string value) :
  serve env (Request POST ["users"; "toggle-follow"] q body) = toggle_follow body.
Proof. reflexivity. Qed.

(** C5: a [POST /signup] never reaches the signup handler. The route
    [POST /:collection] is registered before [POST /signup] and matches
    the path with [collection = "signup"]; its handler rejects the name
    and answers 400 [Invalid collection], whatever the body and whatever
    the files hold, and writes nothing. *)
Theorem signup_route_shadowed (env : clock) q (body : gmap string value) (fs : files) :
  dispatch POST ["signup"] = Some (InsertDoc, ["signup"]) ∧
  run (serve env (Request POST ["signup"] q body)) fs
  = (fs, Ok (Response 400 (error_json "Invalid collection"))).
Proof. split; reflexivity. Qed.

(** What the signup handler does when it is called, which through the
    router it never is: 400 when [username] or [password] is missing or
    falsy, 400 when a stored user has the username, and otherwise 201
    with a pending, unblocked user without followers, appended to the
    users. *)
Lemma signup_when_called (env : clock) (body : gmap string value) (fs : files)
    (users : list value) :
  read_docs fs "users" = Some users ->
  (truthy (body !! "username") && truthy (body !! "password") = false ->
     run (signup env body) fs
     = (fs, Ok (Response 400 (error_json "Missing username or password")))) ∧
  (truthy (body !! "username") && truthy (body !! "password") = true ->
     array_some (username_is (body !! "username")) users = Ok true ->
     run (signup env body) fs
     = (fs, Ok (Response 400 (error_json "Username already exists")))) ∧
  (truthy (body !! "username") && truthy (body !! "password") = true ->
     array_some (username_is (body !! "username")) users = Ok false ->
     exists user,
       new_user env body = VObj user ∧
       run (signup env body) fs
       = (<["users.json" := Stringified (VArr (users ++ [VObj user]))]> fs,
          Ok (Response 201 (Json (VObj user)))) ∧
       user !! "approvalStatus" = Some (VStr "pending") ∧
       user !! "isBlocked" = Some (VBool false) ∧
       user !! "followers" = Some (VArr []) ∧
       user !! "following" = Some (VArr [])).
Proof.
  intros Hu. unfold signup, guarded. repeat split.
  - intros Hmiss. apply andb_false_iff in Hmiss.
    destruct Hmiss as [-> | ->]; simpl; [done|]. by rewrite orb_true_r.
  - intros Hboth Htaken. apply andb_true_iff in Hboth. destruct Hboth as [-> ->]. simpl.
    run_simpl. rewrite (read_docs_result _ _ _ Hu). run_simpl. by rewrite Htaken.
  - intros Hboth Hfree. apply andb_true_iff in Hboth. destruct Hboth as [-> ->]. simpl.
    eexists. split; [reflexivity|]. split.
    + run_simpl. rewrite (read_docs_result _ _ _ Hu). run_simpl. rewrite Hfree.
      run_simpl. done.
    + repeat split; (repeat rewrite lookup_insert_ne by done); apply lookup_insert_eq.
Qed.

End Routing.

(* ================================================================== *)
(** * Array searches *)
(* ================================================================== *)

Section Arrays.
Context `{Coercions}.

Lemma findIndex_from_found (p : value -> result bool) (l : list value) (i j : nat) :
  array_findIndex_from p l i = Ok (Some j) ->
  exists d, i ≤ j ∧ l !! (j - i) = Some d ∧ p d = Ok true.
Proof.
  revert i. induction l as [|d l IH]; intros i; simpl; [done|].
  destruct (p d) as [[|]|e] eqn:Hp; simpl; [| |done].
  - intros [= <-]. exists d. rewrite Nat.sub_diag. auto.
  - intros Hj. destruct (IH _ Hj) as (d' & Hle & Hd' & Hp').
    exists d'. split; [lia|]. split; [|done].
    replace (j - i) with (S (j - S i)) by lia. done.
Qed.

Lemma findIndex_found (p : value -> result bool) (l : list value) (j : nat) :
  array_findIndex p l = Ok (Some j) ->
  exists d, l !! j = Some d ∧ p d = Ok true.
Proof.
  intros Hj. destruct (findIndex_from_found _ _ _ _ Hj) as (d & _ & Hd & Hp).
  rewrite Nat.sub_0_r in Hd. eauto.
Qed.

Lemma findIndex_from_none (p : value -> result bool) (l : list value) (i : nat) :
  (forall d, d ∈ l -> p d = Ok false) -> array_findIndex_from p l i = Ok None.
Proof.
  revert i. induction l as [|d l IH]; intros i Hall; simpl; [done|].
  rewrite (Hall d) by set_solver. simpl. apply IH. intros; apply Hall; set_solver.
Qed.

Lemma findIndex_none (p : value -> result bool) (l : list value) :
  (forall d, d ∈ l -> p d = Ok false) -> array_findIndex p l = Ok None.
Proof. apply findIndex_from_none. Qed.

(** Two predicates that agree on every element give the same search. *)
Lemma findIndex_from_ext (p q : value -> result bool) (l l' : list value) (i : nat) :
  Forall2 (fun d d' => p d = q d') l l' ->
  array_findIndex_from p l i = array_findIndex_from q l' i.
Proof.
  intros Hall. revert i. induction Hall as [|d d' l l' Hd _ IH]; intros i; simpl; [done|].
  rewrite Hd. destruct (q d') as [[|]|]; simpl; auto.
Qed.


Lemma find_none (p : value -> result bool) (l : list value) :
  (forall x, x ∈ l -> p x = Ok false) -> array_find p l = Ok None.
Proof.
  intros Hall. induction l as [|x l IH]; simpl; [done|].
  rewrite (Hall x) by set_solver. simpl. apply IH. intros; apply Hall; set_solver.
Qed.

(** [null] and [undefined] apart, a value that [==] finds equal to a
    document's [id] belongs to an object that has an [id]: nothing else
    has the property. *)
Lemma id_is_object (x : option value) (d : value) :
  defined x -> id_is x d = Ok true ->
  exists m v, d = VObj m ∧ m !! "id" = Some v.
Proof.
  intros Hx. unfold id_is.
  destruct d as [|b|n|s|l|m]; simpl; try done.
  - destruct x as [[]|]; done.
  - destruct x as [[]|]; done.
  - destruct x as [[]|]; done.
  - destruct x as [[]|]; done.
  - destruct (m !! "id") as [v|] eqn:Hv; [eauto|].
    destruct x as [[]|]; done.
Qed.

Lemma id_is_string_string (s id : string) (m : gmap string value) :
  m !! "id" = Some (VStr s) ->
  id_is (Some (VStr id)) (VObj m) = Ok (bool_decide (s = id)).
Proof. intros Hs. unfold id_is. simpl. by rewrite Hs. Qed.

End Arrays.

(* ================================================================== *)
(** * Patch *)
(* ================================================================== *)

Section Patch.
Context `{Coercions}.

Lemma posts_or_ads_allowed (collection : string) :
  collection = "posts" ∨ collection = "ads" -> collection ∈ allowed.
Proof. intros [-> | ->]; solve_allowed. Qed.

Lemma like_intercept_true (collection : string) (body : gmap string value) :
  like_intercept collection body = true <->
  (collection = "posts" ∨ collection = "ads") ∧ truthy (body !! "likers") = true.
Proof.
  unfold like_intercept. rewrite andb_true_iff, orb_true_iff, !bool_decide_eq_true. done.
Qed.

Lemma run_patch_missing (env : clock) (collection id : string) (body : gmap string value)
    (fs : files) (docs : list value) :
  collection ∈ allowed ->
  read_docs fs collection = Some docs ->
  array_findIndex (id_is (Some (VStr id))) docs = Ok None ->
  run (patch_doc env collection id body) fs
  = (fs, Ok (Response 404 (error_json "Not found"))).
Proof.
  intros Hc Hdocs Hidx. unfold patch_doc, guarded. run_simpl.
  rewrite (read_docs_result _ _ _ Hdocs). run_simpl.
  rewrite Hidx. run_simpl. done.
Qed.

Lemma run_patch_merge (env : clock) (collection id : string) (body : gmap string value)
    (fs : files) (docs : list value) (idx : nat) (doc : gmap string value) :
  collection ∈ allowed ->
  read_docs fs collection = Some docs ->
  array_findIndex (id_is (Some (VStr id))) docs = Ok (Some idx) ->
  docs !! idx = Some (VObj doc) ->
  like_intercept collection body = false ->
  run (patch_doc env collection id body) fs
  = (<[collection +:+ ".json" := Stringified (VArr (<[idx := VObj (body ∪ doc)]> docs))]> fs,
     Ok (Response 200 (Json (VObj (body ∪ doc))))).
Proof.
  intros Hc Hdocs Hidx Hdoc Hlike. unfold patch_doc, guarded. run_simpl.
  rewrite (read_docs_result _ _ _ Hdocs). run_simpl.
  rewrite Hidx. run_simpl. rewrite Hlike. run_simpl.
  rewrite Hdoc. simpl.
  rewrite list_lookup_insert_eq by (by eapply lookup_lt_Some). done.
Qed.

Lemma truthy_get_length (x : option value) :
  truthy x = true -> exists len, get_prop (stored x) "length" = Ok len.
Proof. destruct x as [[]|]; simpl; eauto; done. Qed.


Lemma assign_likes (docs : list value) (idx : nat) (doc : gmap string value) (likers : option value) :
  docs !! idx = Some (VObj doc) ->
  truthy likers = true ->
  exists len,
    get_prop (stored likers) "length" = Ok len ∧
    (l ← assign_at docs idx "likers" likers; assign_at l idx "likesCount" len)
    = Ok (<[idx := VObj (with_like (stored likers) doc)]> docs).
Proof.
  intros Hdoc Hl. destruct likers as [v|]; [|done].
  destruct (truthy_get_length _ Hl) as [len Hlen]. simpl in Hlen.
  exists len. split; [done|].
  unfold assign_at. rewrite Hdoc. simpl.
  rewrite list_lookup_insert_eq by (by eapply lookup_lt_Some). simpl.
  rewrite list_insert_insert_eq. unfold with_like. rewrite Hlen.
  by destruct len.
Qed.

Lemma run_patch_like (env : clock) (collection id : string) (body : gmap string value)
    (fs : files) (docs ns : list value) (idx : nat) (doc : gmap string value) :
  like_intercept collection body = true ->
  read_docs fs collection = Some docs ->
  array_findIndex (id_is (Some (VStr id))) docs = Ok (Some idx) ->
  docs !! idx = Some (VObj doc) ->
  read_docs fs "notifications" = Some ns ->
  let doc' := with_like (stored (body !! "likers")) doc in
  run (patch_doc env collection id body) fs
  = (<[collection +:+ ".json" := Stringified (VArr (<[idx := VObj doc']> docs))]>
       (<["notifications.json" :=
            Stringified (VArr (ns ++ [like_notification env collection id body]))]> fs),
     Ok (Response 200 (Json (VObj doc')))).
Proof.
  intros Hlike Hdocs Hidx Hdoc Hns doc'.
  destruct (proj1 (like_intercept_true _ _) Hlike) as [Hc Hl].
  pose proof (posts_or_ads_allowed _ Hc) as Hal.
  destruct (assign_likes docs idx doc _ Hdoc Hl) as (len & Hlen & Hassign).
  unfold patch_doc, guarded. run_simpl.
  rewrite (read_docs_result _ _ _ Hdocs). run_simpl.
  rewrite Hidx. run_simpl. rewrite Hlike. run_simpl.
  unfold assign_at in *. rewrite Hdoc in *. simpl in *. run_simpl.
  rewrite Hlen. run_simpl.
  rewrite list_lookup_insert_eq in * by (by eapply lookup_lt_Some). simpl in *.
  injection Hassign as Hassign. rewrite Hassign. run_simpl.
  rewrite (read_docs_result _ _ _ Hns). run_simpl.
  rewrite list_lookup_insert_eq by (by eapply lookup_lt_Some). done.
Qed.

Lemma read_docs_none (fs : files) (collection : string) :
  read_docs fs collection = None ->
  exists e, (v ← read_result fs collection; as_array v) = Raise e.
Proof.
  unfold read_docs. destruct (read_result fs collection) as [[]|e]; simpl; eauto; done.
Qed.



Lemma run_patch_like_unreadable (env : clock) (collection id : string) (body : gmap string value)
    (fs : files) (docs : list value) (idx : nat) (doc : gmap string value) :
  like_intercept collection body = true ->
  read_docs fs collection = Some docs ->
  array_findIndex (id_is (Some (VStr id))) docs = Ok (Some idx) ->
  docs !! idx = Some (VObj doc) ->
  read_docs fs "notifications" = None ->
  exists p, run (patch_doc env collection id body) fs = (fs, Ok (Response 400 p)).
Proof.
  intros Hlike Hdocs Hidx Hdoc Hns.
  destruct (proj1 (like_intercept_true _ _) Hlike) as [Hc Hl].
  pose proof (posts_or_ads_allowed _ Hc) as Hal.
  destruct (assign_likes docs idx doc _ Hdoc Hl) as (len & Hlen & Hassign).
  destruct (read_docs_none _ _ Hns) as [e He].
  unfold patch_doc, guarded. run_simpl.
  rewrite (read_docs_result _ _ _ Hdocs). run_simpl.
  rewrite Hidx. run_simpl. rewrite Hlike. run_simpl.
  unfold assign_at in *. rewrite Hdoc in *. simpl in *. run_simpl.
  rewrite Hlen. run_simpl.
  rewrite list_lookup_insert_eq in * by (by eapply lookup_lt_Some). simpl in *.
  run_simpl.
  destruct (read_result fs "notifications") as [v|e']; simpl in *; run_simpl.
  - rewrite He. eauto.
  - eauto.
Qed.

(** The document an id designates is an object. *)
Lemma found_by_id (id : string) (docs : list value) (idx : nat) :
  array_findIndex (id_is (Some (VStr id))) docs = Ok (Some idx) ->
  exists doc v, docs !! idx = Some (VObj doc) ∧ doc !! "id" = Some v
                ∧ loose_eq (Some v) (Some (VStr id)) = Ok true.
Proof.
  intros Hidx. destruct (findIndex_found _ _ _ Hidx) as (d & Hd & Hp).
  destruct (id_is_object (Some (VStr id)) d I Hp) as (m & v & -> & Hv).
  exists m, v. split; [done|]. split; [done|].
  unfold id_is in Hp. simpl in Hp. by rewrite Hv in Hp.
Qed.

Lemma trace_patch_like (env : clock) (collection id : string) (body : gmap string value)
    (fs : files) (docs ns : list value) (idx : nat) (doc : gmap string value) :
  like_intercept collection body = true ->
  read_docs fs collection = Some docs ->
  array_findIndex (id_is (Some (VStr id))) docs = Ok (Some idx) ->
  docs !! idx = Some (VObj doc) ->
  read_docs fs "notifications" = Some ns ->
  trace (patch_doc env collection id body) fs
  = [ Read (collection +:+ ".json");
      Read "notifications.json";
      Write "notifications.json"
        (Stringified (VArr (ns ++ [like_notification env collection id body])));
      Write (collection +:+ ".json")
        (Stringified (VArr (<[idx := VObj (with_like (stored (body !! "likers")) doc)]> docs))) ].
Proof.
  intros Hlike Hdocs Hidx Hdoc Hns.
  destruct (proj1 (like_intercept_true _ _) Hlike) as [Hc Hl].
  pose proof (posts_or_ads_allowed _ Hc) as Hal.
  destruct (assign_likes docs idx doc _ Hdoc Hl) as (len & Hlen & Hassign).
  unfold patch_doc, guarded. trace_simpl.
  rewrite (read_docs_result _ _ _ Hdocs). trace_simpl.
  rewrite Hidx. trace_simpl. rewrite Hlike. trace_simpl.
  unfold assign_at in *. rewrite Hdoc in *. simpl in *. trace_simpl.
  rewrite Hlen. trace_simpl.
  rewrite list_lookup_insert_eq in * by (by eapply lookup_lt_Some). simpl in *.
  injection Hassign as Hassign. rewrite Hassign. trace_simpl.
  rewrite (read_docs_result _ _ _ Hns). trace_simpl. done.
Qed.

End Patch.

Section PatchClaims.
Context `{Coercions}.

(** C6: on a valid collection that [readCollection] can read, a patch
    answers 404 [Not found], and writes nothing, when no document has
    the id. When [docs[idx]] is the document the id designates and the
    like branch is not taken, the stored document becomes the shallow
    merge of the body onto it: a field named in the body takes the
    body's value, every other field keeps its value, the other
    documents and the other files are untouched, and the answer is 200
    with the merged document. *)
Theorem patch_not_found_or_merge (env : clock) (collection id : string)
    q (body : gmap string value) (fs : files) (docs : list value) :
  collection ∈ allowed ->
  read_docs fs collection = Some docs ->
  ((forall d, d ∈ docs -> id_is (Some (VStr id)) d = Ok false) ->
     run (serve env (Request PATCH [collection; id] q body)) fs
     = (fs, Ok (Response 404 (error_json "Not found")))) ∧
  (forall idx,
     array_findIndex (id_is (Some (VStr id))) docs = Ok (Some idx) ->
     like_intercept collection body = false ->
     exists doc,
       docs !! idx = Some (VObj doc) ∧
       run (serve env (Request PATCH [collection; id] q body)) fs
       = (<[collection +:+ ".json" := Stringified (VArr (<[idx := VObj (body ∪ doc)]> docs))]> fs,
          Ok (Response 200 (Json (VObj (body ∪ doc))))) ∧
       (forall k v, body !! k = Some v -> (body ∪ doc) !! k = Some v) ∧
       (forall k, body !! k = None -> (body ∪ doc) !! k = doc !! k)).
Proof.
  intros Hc Hdocs. split.
  - intros Hnone. rewrite serve_patch.
    eapply run_patch_missing; [done|done|]. by apply findIndex_none.
  - intros idx Hidx Hlike.
    destruct (found_by_id _ _ _ Hidx) as (doc & v & Hdoc & _ & _).
    exists doc. split; [done|]. split; [|split].
    + rewrite serve_patch. by apply run_patch_merge.
    + intros k v' Hk. by apply lookup_union_Some_l.
    + intros k Hk. by rewrite lookup_union_r.
Qed.

(** C2: on [posts] or [ads], when [docs[idx]] is the document the id
    designates and the body's [likers] is the array [u1, ..., un], and
    the notifications can be read, the patch answers 200; the stored
    document has [likers] equal to that array and [likesCount] equal to
    [n], the notifications are the former ones followed by exactly one
    new document, whose [type] is [like] and whose [targetId] is the id
    of the request, which is the document's own [id] when that is a
    string. *)
Theorem like_update (env : clock) (collection id : string)
    q (body : gmap string value) (fs : files) (docs ns us : list value) (idx : nat) :
  collection = "posts" ∨ collection = "ads" ->
  read_docs fs collection = Some docs ->
  array_findIndex (id_is (Some (VStr id))) docs = Ok (Some idx) ->
  body !! "likers" = Some (VArr us) ->
  read_docs fs "notifications" = Some ns ->
  exists doc note,
    let doc' := <["likesCount" := VNum (Z.of_nat (length us))]> (<["likers" := VArr us]> doc) in
    docs !! idx = Some (VObj doc) ∧
    like_notification env collection id body = VObj note ∧
    run (serve env (Request PATCH [collection; id] q body)) fs
    = (<[collection +:+ ".json" := Stringified (VArr (<[idx := VObj doc']> docs))]>
         (<["notifications.json" := Stringified (VArr (ns ++ [VObj note]))]> fs),
       Ok (Response 200 (Json (VObj doc')))) ∧
    doc' !! "likers" = Some (VArr us) ∧
    doc' !! "likesCount" = Some (VNum (Z.of_nat (length us))) ∧
    note !! "type" = Some (VStr "like") ∧
    note !! "targetId" = Some (VStr id) ∧
    (forall s, doc !! "id" = Some (VStr s) -> s = id).
Proof.
  intros Hc Hdocs Hidx Hlikers Hns.
  assert (Hlike : like_intercept collection body = true).
  { apply like_intercept_true. split; [done|]. by rewrite Hlikers. }
  destruct (found_by_id _ _ _ Hidx) as (doc & v & Hdoc & Hv & Heq).
  pose proof (run_patch_like env collection id body fs docs ns idx doc
                Hlike Hdocs Hidx Hdoc Hns) as Hrun.
  rewrite Hlikers in Hrun. simpl in Hrun.
  eexists doc, _. simpl. split; [done|]. split; [reflexivity|].
  split; [rewrite serve_patch; exact Hrun|].
  split; [by rewrite lookup_insert_ne, lookup_insert_eq|].
  split; [by rewrite lookup_insert_eq|].
  split; [done|]. split; [done|].
  intros s Hs. rewrite Hs in Hv. injection Hv as <-.
  simpl in Heq. injection Heq as Heq. by apply bool_decide_eq_true in Heq.
Qed.


(** C3, as the code has it: a like update writes the notifications
    first and the target collection second. A process that stops
    between the two writes (after its third file-system call) leaves
    the notification stored and the target collection as it was. *)
Theorem like_update_write_order (env : clock) (collection id : string)
    q (body : gmap string value) (fs : files) (docs ns : list value) (idx : nat) :
  like_intercept collection body = true ->
  read_docs fs collection = Some docs ->
  array_findIndex (id_is (Some (VStr id))) docs = Ok (Some idx) ->
  read_docs fs "notifications" = Some ns ->
  let p := serve env (Request PATCH [collection; id] q body) in
  let note := like_notification env collection id body in
  written_paths p fs = ["notifications.json"; collection +:+ ".json"] ∧
  crash_after 3 p fs = <["notifications.json" := Stringified (VArr (ns ++ [note]))]> fs ∧
  read_docs (crash_after 3 p fs) "notifications" = Some (ns ++ [note]) ∧
  read_docs (crash_after 3 p fs) collection = Some docs.
Proof.
  intros Hlike Hdocs Hidx Hns p note.
  destruct (found_by_id _ _ _ Hidx) as (doc & v & Hdoc & _ & _).
  destruct (proj1 (like_intercept_true _ _) Hlike) as [Hc _].
  pose proof (trace_patch_like env _ _ body _ _ _ _ _ Hlike Hdocs Hidx Hdoc Hns) as Htr.
  assert (Hcrash :
    crash_after 3 p fs = <["notifications.json" := Stringified (VArr (ns ++ [note]))]> fs).
  { rewrite crash_after_trace. unfold p. rewrite serve_patch, Htr. done. }
  split; [unfold written_paths, p; by rewrite serve_patch, Htr|].
  split; [done|]. rewrite Hcrash. split.
  - apply (read_docs_insert fs "notifications").
  - unfold read_docs, read_result in *.
    rewrite lookup_insert_ne; [done|]. by destruct Hc as [-> | ->].
Qed.

End PatchClaims.

(* ================================================================== *)
(** * Insert and get *)
(* ================================================================== *)

Section InsertGet.
Context `{Coercions}.

Lemma run_insert (env : clock) (collection : string) (body : gmap string value)
    (fs : files) (docs : list value) :
  collection ∈ allowed ->
  read_docs fs collection = Some docs ->
  let newDoc := new_doc env body in
  run (insert_doc env collection body) fs
  = (<[collection +:+ ".json" := Stringified (VArr (docs ++ [newDoc]))]> fs,
     Ok (Response 201 (Json newDoc))).
Proof.
  intros Hc Hdocs newDoc. unfold insert_doc, guarded. run_simpl.
  rewrite (read_docs_result _ _ _ Hdocs). run_simpl. done.
Qed.

Lemma run_get_found (collection id : string) (fs : files) (docs : list value) (d : value) :
  collection ∈ allowed ->
  read_docs fs collection = Some docs ->
  array_find (id_is (Some (VStr id))) docs = Ok (Some d) ->
  truthy (Some d) = true ->
  run (get_doc collection id) fs = (fs, Ok (Response 200 (Json d))).
Proof.
  intros Hc Hdocs Hfind Hd. unfold get_doc, guarded. run_simpl.
  rewrite (read_docs_result _ _ _ Hdocs). run_simpl.
  rewrite Hfind. run_simpl.
  destruct d; simpl in *; try done; by rewrite Hd.
Qed.

Lemma run_get_missing (collection id : string) (fs : files) (docs : list value) :
  collection ∈ allowed ->
  read_docs fs collection = Some docs ->
  array_find (id_is (Some (VStr id))) docs = Ok None ->
  run (get_doc collection id) fs = (fs, Ok (Response 404 (error_json "Not found"))).
Proof.
  intros Hc Hdocs Hfind. unfold get_doc, guarded. run_simpl.
  rewrite (read_docs_result _ _ _ Hdocs). run_simpl.
  rewrite Hfind. done.
Qed.


End InsertGet.

(* ================================================================== *)
(** * Toggle follow *)
(* ================================================================== *)

Section ToggleFollow.
Context `{Coercions}.

(** ** Strict equality on scalars *)

Lemma strict_eq_scalar (v y : value) :
  scalar y -> strict_eq v (Some y) = true <-> v = y.
Proof.
  intros Hy. destruct v, y; simpl in *; try done;
    rewrite bool_decide_eq_true; naive_solver.
Qed.

Lemma scalar_eq_dec (v y : value) : scalar y -> v = y ∨ v ≠ y.
Proof.
  intros Hy. destruct (strict_eq v (Some y)) eqn:Heq.
  - left. by apply strict_eq_scalar.
  - right. intros Hv. apply (strict_eq_scalar v y Hy) in Hv. congruence.
Qed.

Lemma includes_scalar (l : list value) (y : value) :
  scalar y -> includes l (Some y) = true <-> y ∈ l.
Proof.
  intros Hy. unfold includes. rewrite existsb_exists. split.
  - intros (v & Hin & Heq). apply strict_eq_scalar in Heq; [|done].
    subst. by apply list_elem_of_In.
  - intros Hin. exists y. split; [by apply list_elem_of_In|].
    by apply strict_eq_scalar.
Qed.

Lemma elem_of_without (l : list value) (y v : value) :
  scalar y -> v ∈ without l (Some y) <-> v ∈ l ∧ v ≠ y.
Proof.
  intros Hy. unfold without. rewrite !list_elem_of_In, filter_In.
  rewrite negb_true_iff, <- not_true_iff_false, strict_eq_scalar by done. done.
Qed.

Lemma without_absent (l : list value) (y : value) :
  scalar y -> y ∉ l -> without l (Some y) = l.
Proof.
  intros Hy. unfold without. induction l as [|v l IH]; intros Hnot; simpl; [done|].
  destruct (strict_eq v (Some y)) eqn:Heq; simpl.
  - apply strict_eq_scalar in Heq; [|done]. subst. set_solver.
  - f_equal. apply IH. set_solver.
Qed.

(** ** The table of properties against the list of elements *)

Lemma mem_get_props (users : list value) (i : nat) (k : string) :
  mem_get (props <$> users) i k = field users i k.
Proof.
  unfold mem_get, field. rewrite list_lookup_fmap.
  destruct (users !! i) as [[]|]; done.
Qed.

Lemma mem_set_props (users : list value) (i : nat) (k : string) (v : value)
    (m : gmap string value) :
  users !! i = Some (VObj m) ->
  mem_set (props <$> users) i k v = props <$> set_at i k v users.
Proof.
  intros Hi. unfold mem_set, set_at. apply list_eq. intros j.
  rewrite list_lookup_alter, !list_lookup_fmap, list_lookup_alter.
  destruct (decide (i = j)) as [<-|]; [|done].
  by rewrite Hi.
Qed.

Lemma set_at_lookup_obj (users : list value) (i j : nat) (k : string) (v : value)
    (m : gmap string value) :
  users !! j = Some (VObj m) ->
  exists m', set_at i k v users !! j = Some (VObj m').
Proof.
  intros Hj. unfold set_at. rewrite list_lookup_alter.
  destruct (decide (i = j)) as [<-|]; [|eauto]. rewrite Hj. simpl. eauto.
Qed.

Lemma field_set_at_eq (users : list value) (i : nat) (k : string) (v : value)
    (m : gmap string value) :
  users !! i = Some (VObj m) -> field (set_at i k v users) i k = Some v.
Proof.
  intros Hi. unfold field, set_at. rewrite list_lookup_alter.
  rewrite decide_True by done. rewrite Hi. simpl. by rewrite lookup_insert_eq.
Qed.

Lemma field_set_at_ne (users : list value) (i j : nat) (k k' : string) (v : value) :
  i ≠ j ∨ k ≠ k' -> field (set_at i k v users) j k' = field users j k'.
Proof.
  intros Hne. unfold field, set_at. rewrite list_lookup_alter.
  destruct (decide (i = j)) as [<-|]; [|done].
  destruct Hne as [|Hk]; [done|].
  destruct (users !! i) as [[]|]; simpl; try done.
  by rewrite lookup_insert_ne.
Qed.


Lemma same_shape_refl (users : list value) : same_shape users users.
Proof. apply Forall_Forall2_diag, Forall_forall. auto. Qed.

Lemma same_shape_set_at (users users' : list value) (i : nat) (k : string) (v : value) :
  same_shape users users' -> same_shape users (set_at i k v users').
Proof.
  unfold same_shape, set_at. intros Hs. revert i.
  induction Hs as [|e e' l l' He Hs IH]; intros i; [constructor|].
  destruct i as [|i]; simpl.
  - constructor; [|done].
    destruct He as [(m & m' & -> & ->)| ->].
    + left. simpl. eauto.
    + destruct e'; simpl; eauto.
  - constructor; [done|]. apply IH.
Qed.

Lemma zip_with_props (users users' : list value) :
  same_shape users users' -> zip_with with_props users (props <$> users') = users'.
Proof.
  induction 1 as [|e e' l l' He _ IH]; simpl; [done|].
  f_equal; [|done].
  destruct He as [(m & m' & -> & ->)| ->]; [done|]. by destruct e'.
Qed.

(** The search by id does not look at the properties a toggle sets. *)
Lemma id_is_set_at (x : option value) (users : list value) (i : nat) (k : string) (v : value) :
  k ≠ "id" ->
  Forall2 (fun d d' => id_is x d = id_is x d') users (set_at i k v users).
Proof.
  intros Hk. unfold set_at. revert i.
  induction users as [|e l IH]; intros i; [constructor|].
  destruct i as [|i]; simpl.
  - constructor; [|by apply Forall_Forall2_diag, Forall_forall].
    destruct e; simpl; try done. unfold id_is. simpl. by rewrite lookup_insert_ne.
  - constructor; [done|]. apply IH.
Qed.

Lemma findIndex_set_at (x : option value) (users : list value) (i : nat) (k : string) (v : value) :
  k ≠ "id" ->
  array_findIndex (id_is x) (set_at i k v users) = array_findIndex (id_is x) users.
Proof.
  intros Hk. symmetry. apply findIndex_from_ext. by apply id_is_set_at.
Qed.

(** ** One toggle *)

Lemma toggle_objects (users : list value) (fi gi : nat) (X Y : option value)
    (A B : gmap string value) (fl gl : list value) :
  users !! fi = Some (VObj A) ->
  users !! gi = Some (VObj B) ->
  or_else (field users fi "following") (VArr []) = VArr fl ->
  or_else (field users gi "followers") (VArr []) = VArr gl ->
  toggle users fi gi X Y
  = Ok (set_at gi "followers" (VArr (toggled_followers fl gl X Y))
       (set_at fi "following" (VArr (toggled_following fl Y))
       (set_at gi "followers" (VArr gl)
       (set_at fi "following" (VArr fl) users)))).
Proof.
  intros HA HB Hfl Hgl. unfold toggle.
  set (u1 := set_at fi "following" (VArr fl) users).
  set (u2 := set_at gi "followers" (VArr gl) u1).
  destruct (set_at_lookup_obj users fi gi "following" (VArr fl) B HB) as [B1 HB1].
  destruct (set_at_lookup_obj users fi fi "following" (VArr fl) A HA) as [A1 HA1].
  destruct (set_at_lookup_obj u1 gi fi "followers" (VArr gl) A1 HA1) as [A2 HA2].
  destruct (set_at_lookup_obj u1 gi gi "followers" (VArr gl) B1 HB1) as [B2 HB2].
  fold u1 in HB1, HA1. fold u2 in HA2, HB2.
  rewrite mem_get_props, Hfl.
  rewrite (mem_set_props users fi _ _ A HA). fold u1.
  rewrite mem_get_props.
  replace (field u1 gi "followers") with (field users gi "followers")
    by (symmetry; apply field_set_at_ne; by right).
  rewrite Hgl.
  rewrite (mem_set_props u1 gi _ _ B1 HB1). fold u2.
  rewrite mem_get_props.
  replace (field u2 fi "following") with (Some (VArr fl)).
  2: { unfold u2. rewrite field_set_at_ne by (by right).
       symmetry. by eapply field_set_at_eq. }
  simpl. unfold toggled_following, toggled_followers.
  destruct (includes fl Y) eqn:Hinc; simpl.
  - rewrite (mem_set_props u2 fi _ _ A2 HA2).
    set (u3 := set_at fi "following" (VArr (without fl Y)) u2).
    destruct (set_at_lookup_obj u2 fi gi "following" (VArr (without fl Y)) B2 HB2) as [B3 HB3].
    fold u3 in HB3.
    rewrite mem_get_props.
    replace (field u3 gi "followers") with (Some (VArr gl)).
    2: { unfold u3. rewrite field_set_at_ne by (by right).
         symmetry. by eapply field_set_at_eq. }
    simpl. rewrite (mem_set_props u3 gi _ _ B3 HB3).
    f_equal. apply zip_with_props.
    repeat apply same_shape_set_at. apply same_shape_refl.
  - rewrite (mem_set_props u2 fi _ _ A2 HA2).
    set (u3 := set_at fi "following" (VArr (fl ++ [stored Y])) u2).
    destruct (set_at_lookup_obj u2 fi gi "following" (VArr (fl ++ [stored Y])) B2 HB2)
      as [B3 HB3].
    fold u3 in HB3.
    rewrite mem_get_props.
    replace (field u3 gi "followers") with (Some (VArr gl)).
    2: { unfold u3. rewrite field_set_at_ne by (by right).
         symmetry. by eapply field_set_at_eq. }
    simpl. rewrite (mem_set_props u3 gi _ _ B3 HB3).
    f_equal. apply zip_with_props.
    repeat apply same_shape_set_at. apply same_shape_refl.
Qed.

Lemma or_else_id_list (users : list value) (i : nat) (k : string) :
  array_or_falsy (field users i k) ->
  or_else (field users i k) (VArr []) = VArr (id_list users i k).
Proof.
  intros [l Hl]. unfold id_list.
  destruct (field users i k) as [[| [] | n | s | l' | m]|]; simpl in *; try done.
  - destruct (bool_decide (n = 0%Z)); simpl in *; done.
  - destruct (bool_decide (s = EmptyString)); simpl in *; done.
Qed.

Lemma toggle_after (users : list value) (fi gi : nat) (X Y : option value)
    (A B : gmap string value) :
  users !! fi = Some (VObj A) ->
  users !! gi = Some (VObj B) ->
  array_or_falsy (field users fi "following") ->
  array_or_falsy (field users gi "followers") ->
  toggle users fi gi X Y = Ok (after_toggle users fi gi X Y).
Proof.
  intros HA HB Hf Hg.
  apply (toggle_objects users fi gi X Y A B); auto using or_else_id_list.
Qed.

Lemma after_toggle_obj (users : list value) (fi gi j : nat) (X Y : option value)
    (m : gmap string value) :
  users !! j = Some (VObj m) ->
  exists m', after_toggle users fi gi X Y !! j = Some (VObj m').
Proof.
  intros Hj. unfold after_toggle.
  destruct (set_at_lookup_obj users fi j "following"
              (VArr (id_list users fi "following")) m Hj) as [m1 H1].
  destruct (set_at_lookup_obj _ gi j "followers"
              (VArr (id_list users gi "followers")) m1 H1) as [m2 H2].
  destruct (set_at_lookup_obj _ fi j "following"
              (VArr (toggled_following (id_list users fi "following") Y)) m2 H2) as [m3 H3].
  by eapply set_at_lookup_obj.
Qed.

Lemma after_toggle_following (users : list value) (fi gi : nat) (X Y : option value)
    (A : gmap string value) :
  users !! fi = Some (VObj A) ->
  id_list (after_toggle users fi gi X Y) fi "following"
  = toggled_following (id_list users fi "following") Y.
Proof.
  intros HA. unfold id_list at 1. unfold after_toggle.
  rewrite field_set_at_ne by (by right).
  destruct (set_at_lookup_obj users fi fi "following"
              (VArr (id_list users fi "following")) A HA) as [m1 H1].
  destruct (set_at_lookup_obj _ gi fi "followers"
              (VArr (id_list users gi "followers")) m1 H1) as [m2 H2].
  by rewrite (field_set_at_eq _ _ _ _ m2 H2).
Qed.

Lemma after_toggle_followers (users : list value) (fi gi : nat) (X Y : option value)
    (B : gmap string value) :
  users !! gi = Some (VObj B) ->
  id_list (after_toggle users fi gi X Y) gi "followers"
  = toggled_followers (id_list users fi "following") (id_list users gi "followers") X Y.
Proof.
  intros HB. unfold id_list at 1. unfold after_toggle.
  destruct (set_at_lookup_obj users fi gi "following"
              (VArr (id_list users fi "following")) B HB) as [m1 H1].
  destruct (set_at_lookup_obj _ gi gi "followers"
              (VArr (id_list users gi "followers")) m1 H1) as [m2 H2].
  destruct (set_at_lookup_obj _ fi gi "following"
              (VArr (toggled_following (id_list users fi "following") Y)) m2 H2) as [m3 H3].
  by rewrite (field_set_at_eq _ _ _ _ m3 H3).
Qed.

(** A toggle touches two properties: [following] of the follower and
    [followers] of the followed. *)
Lemma after_toggle_frame (users : list value) (fi gi j : nat) (X Y : option value) (k : string) :
  (j ≠ fi ∨ k ≠ "following") ->
  (j ≠ gi ∨ k ≠ "followers") ->
  field (after_toggle users fi gi X Y) j k = field users j k.
Proof.
  intros H1 H2. unfold after_toggle.
  assert (H1' : fi ≠ j ∨ "following" ≠ k) by (destruct H1; [left|right]; congruence).
  assert (H2' : gi ≠ j ∨ "followers" ≠ k) by (destruct H2; [left|right]; congruence).
  by rewrite !field_set_at_ne.
Qed.

Lemma findIndex_after_toggle (x : option value) (users : list value) (fi gi : nat)
    (X Y : option value) :
  array_findIndex (id_is x) (after_toggle users fi gi X Y) = array_findIndex (id_is x) users.
Proof. unfold after_toggle. by rewrite !findIndex_set_at. Qed.

(** ** The lists after one and two toggles *)

Lemma toggled_following_flips (fl : list value) (y : value) :
  scalar y -> y ∈ toggled_following fl (Some y) <-> y ∉ fl.
Proof.
  intros Hy. unfold toggled_following.
  destruct (includes fl (Some y)) eqn:Hinc.
  - apply includes_scalar in Hinc; [|done].
    rewrite elem_of_without by done. naive_solver.
  - assert (y ∉ fl) by (rewrite <- includes_scalar by done; congruence).
    simpl. set_solver.
Qed.

Lemma toggled_symmetric (fl gl : list value) (x y : value) :
  scalar x -> scalar y ->
  y ∈ toggled_following fl (Some y) <-> x ∈ toggled_followers fl gl (Some x) (Some y).
Proof.
  intros Hx Hy. unfold toggled_following, toggled_followers.
  destruct (includes fl (Some y)).
  - rewrite !elem_of_without by done. naive_solver.
  - simpl. set_solver.
Qed.

Lemma toggled_following_twice (fl : list value) (y : value) :
  scalar y ->
  same_set (toggled_following (toggled_following fl (Some y)) (Some y)) fl.
Proof.
  intros Hy v. pose proof (toggled_following_flips fl y Hy) as Hflip.
  unfold toggled_following in *.
  destruct (includes fl (Some y)) eqn:Hinc.
  - apply includes_scalar in Hinc; [|done].
    destruct (includes (without fl (Some y)) (Some y)) eqn:Hinc'.
    + apply includes_scalar in Hinc'; [|done]. naive_solver.
    + simpl. rewrite elem_of_app, elem_of_without, list_elem_of_singleton by done.
      destruct (scalar_eq_dec v y Hy); naive_solver.
  - assert (Hnot : y ∉ fl) by (rewrite <- includes_scalar by done; congruence).
    simpl.
    destruct (includes (fl ++ [y]) (Some y)) eqn:Hinc'.
    + rewrite elem_of_without, elem_of_app, list_elem_of_singleton by done.
      destruct (scalar_eq_dec v y Hy); naive_solver.
    + exfalso. assert (y ∉ fl ++ [y]) by (rewrite <- includes_scalar by done; congruence).
      set_solver.
Qed.

Lemma toggled_followers_twice (fl gl : list value) (x y : value) :
  scalar x -> scalar y ->
  (y ∈ fl <-> x ∈ gl) ->
  same_set (toggled_followers (toggled_following fl (Some y))
              (toggled_followers fl gl (Some x) (Some y)) (Some x) (Some y)) gl.
Proof.
  intros Hx Hy Hinv v. pose proof (toggled_following_flips fl y Hy) as Hflip.
  unfold toggled_followers, toggled_following in *.
  destruct (includes fl (Some y)) eqn:Hinc.
  - apply includes_scalar in Hinc; [|done].
    destruct (includes (without fl (Some y)) (Some y)) eqn:Hinc'.
    + apply includes_scalar in Hinc'; [|done]. naive_solver.
    + simpl. rewrite elem_of_app, elem_of_without, list_elem_of_singleton by done.
      destruct (scalar_eq_dec v x Hx); naive_solver.
  - assert (Hnot : y ∉ fl) by (rewrite <- includes_scalar by done; congruence).
    simpl.
    destruct (includes (fl ++ [y]) (Some y)) eqn:Hinc'.
    + rewrite elem_of_without, elem_of_app, list_elem_of_singleton by done.
      destruct (scalar_eq_dec v x Hx); naive_solver.
    + exfalso. assert (y ∉ fl ++ [y]) by (rewrite <- includes_scalar by done; congruence).
      set_solver.
Qed.

(** ** The handler *)

Lemma run_toggle_follow (body : gmap string value) (fs : files) (users users' : list value)
    (fi gi : nat) :
  read_docs fs "users" = Some users ->
  array_findIndex (id_is (body !! "followerId")) users = Ok (Some fi) ->
  array_findIndex (id_is (body !! "followingId")) users = Ok (Some gi) ->
  toggle users fi gi (body !! "followerId") (body !! "followingId") = Ok users' ->
  run (toggle_follow body) fs
  = (<["users.json" := Stringified (VArr users')]> fs,
     Ok (Response 200 (Json (VObj
           (<["follower" := stored (users' !! fi)]>
           (<["following" := stored (users' !! gi)]> ∅)))))).
Proof.
  intros Hu Hfi Hgi Ht. unfold toggle_follow, guarded. run_simpl.
  rewrite (read_docs_result _ _ _ Hu). run_simpl.
  rewrite Hfi. run_simpl. rewrite Hgi. run_simpl. rewrite Ht. run_simpl. done.
Qed.

(** C4: let [followerId] and [followingId] be booleans, numbers or
    strings that designate the users [users[fi]] and [users[gi]], whose
    [following] and [followers] properties are arrays (or are missing).
    Then a toggle answers 200 and leaves the followed id in the
    follower's [following] if and only if it leaves the follower id in
    the followed's [followers], and the followed id is in [following]
    afterwards exactly when it was not before. A second toggle with the
    same body answers 200 too, with the same symmetry; and when the
    symmetry held before the first toggle, the [following] and
    [followers] of both users hold after the second the ids they held
    at the start. A user whose [id] is a string is designated by that
    very string. *)
Theorem toggle_follow_twice (env1 env2 : clock) q (body : gmap string value) (fs : files)
    (users : list value) (x y : value) (fi gi : nat) :
  body !! "followerId" = Some x ->
  body !! "followingId" = Some y ->
  scalar x -> scalar y ->
  read_docs fs "users" = Some users ->
  array_findIndex (id_is (Some x)) users = Ok (Some fi) ->
  array_findIndex (id_is (Some y)) users = Ok (Some gi) ->
  array_or_falsy (field users fi "following") ->
  array_or_falsy (field users gi "followers") ->
  let req := Request POST ["users"; "toggle-follow"] q body in
  exists users1 users2 r1 r2,
    let fs1 := <["users.json" := Stringified (VArr users1)]> fs in
    let fs2 := <["users.json" := Stringified (VArr users2)]> fs1 in
    run (serve env1 req) fs = (fs1, Ok r1) ∧ status r1 = 200 ∧
    run (serve env2 req) fs1 = (fs2, Ok r2) ∧ status r2 = 200 ∧
    (y ∈ id_list users1 fi "following" <-> x ∈ id_list users1 gi "followers") ∧
    (y ∈ id_list users1 fi "following" <-> y ∉ id_list users fi "following") ∧
    (y ∈ id_list users2 fi "following" <-> x ∈ id_list users2 gi "followers") ∧
    ((y ∈ id_list users fi "following" <-> x ∈ id_list users gi "followers") ->
     forall u k, u = fi ∨ u = gi -> k = "following" ∨ k = "followers" ->
       same_set (id_list users2 u k) (id_list users u k)) ∧
    (forall s, field users fi "id" = Some (VStr s) -> forall t, x = VStr t -> s = t) ∧
    (forall s, field users gi "id" = Some (VStr s) -> forall t, y = VStr t -> s = t).
Proof.
  intros Hx Hy Sx Sy Hu Hfi Hgi Hfl Hgl req.
  assert (Dx : defined (Some x)) by (by destruct x).
  assert (Dy : defined (Some y)) by (by destruct y).
  destruct (findIndex_found _ _ _ Hfi) as (a & Ha & Hpa).
  destruct (id_is_object _ _ Dx Hpa) as (A & va & -> & _).
  destruct (findIndex_found _ _ _ Hgi) as (b & Hb & Hpb).
  destruct (id_is_object _ _ Dy Hpb) as (B & vb & -> & _).
  assert (Hids :
    (forall s, field users fi "id" = Some (VStr s) -> forall t, x = VStr t -> s = t) ∧
    (forall s, field users gi "id" = Some (VStr s) -> forall t, y = VStr t -> s = t)).
  { unfold field. rewrite Ha, Hb. split; intros s Hs t ->.
    - rewrite (id_is_string_string s t A Hs) in Hpa.
      injection Hpa as Hpa. by apply bool_decide_eq_true in Hpa.
    - rewrite (id_is_string_string s t B Hs) in Hpb.
      injection Hpb as Hpb. by apply bool_decide_eq_true in Hpb. }
  set (users1 := after_toggle users fi gi (Some x) (Some y)).
  set (users2 := after_toggle users1 fi gi (Some x) (Some y)).
  destruct (after_toggle_obj users fi gi fi (Some x) (Some y) A Ha) as [A1 HA1].
  destruct (after_toggle_obj users fi gi gi (Some x) (Some y) B Hb) as [B1 HB1].
  fold users1 in HA1, HB1.
  assert (Hfl1 : id_list users1 fi "following"
                 = toggled_following (id_list users fi "following") (Some y))
    by (by eapply after_toggle_following).
  assert (Hgl1 : id_list users1 gi "followers"
                 = toggled_followers (id_list users fi "following")
                     (id_list users gi "followers") (Some x) (Some y))
    by (by eapply after_toggle_followers).
  assert (Hfl2 : id_list users2 fi "following"
                 = toggled_following (id_list users1 fi "following") (Some y))
    by (by eapply after_toggle_following).
  assert (Hgl2 : id_list users2 gi "followers"
                 = toggled_followers (id_list users1 fi "following")
                     (id_list users1 gi "followers") (Some x) (Some y))
    by (by eapply after_toggle_followers).
  exists users1, users2.
  eexists _, _. simpl.
  split.
  { unfold req. rewrite serve_toggle_follow.
    apply (run_toggle_follow body fs users users1 fi gi); rewrite ?Hx, ?Hy.
    - done.
    - done.
    - done.
    - by apply (toggle_after users fi gi _ _ A B). }
  split; [done|]. split.
  { unfold req. rewrite serve_toggle_follow.
    apply (run_toggle_follow body _ users1 users2 fi gi); rewrite ?Hx, ?Hy.
    - apply (read_docs_insert fs "users").
    - unfold users1. by rewrite findIndex_after_toggle.
    - unfold users1. by rewrite findIndex_after_toggle.
    - apply (toggle_after users1 fi gi _ _ A1 B1); try done.
      + unfold array_or_falsy, users1, after_toggle.
        rewrite field_set_at_ne by (by right).
        destruct (set_at_lookup_obj users fi fi "following"
                    (VArr (id_list users fi "following")) A Ha) as [m1 H1].
        destruct (set_at_lookup_obj _ gi fi "followers"
                    (VArr (id_list users gi "followers")) m1 H1) as [m2 H2].
        rewrite (field_set_at_eq _ _ _ _ m2 H2). simpl. eauto.
      + unfold array_or_falsy, users1, after_toggle.
        destruct (set_at_lookup_obj users fi gi "following"
                    (VArr (id_list users fi "following")) B Hb) as [m1 H1].
        destruct (set_at_lookup_obj _ gi gi "followers"
                    (VArr (id_list users gi "followers")) m1 H1) as [m2 H2].
        destruct (set_at_lookup_obj _ fi gi "following"
                    (VArr (toggled_following (id_list users fi "following") (Some y)))
                    m2 H2) as [m3 H3].
        rewrite (field_set_at_eq _ _ _ _ m3 H3). simpl. eauto. }
  split; [done|].
  split; [rewrite Hfl1, Hgl1; by apply toggled_symmetric|].
  split; [rewrite Hfl1; by apply toggled_following_flips|].
  split; [rewrite Hfl2, Hgl2; by apply toggled_symmetric|].
  split; [|exact Hids].
  intros Hinv u k Hu' Hk'.
  destruct (decide (u = fi ∧ k = "following")) as [[-> ->]|Hn1].
  { rewrite Hfl2, Hfl1. by apply toggled_following_twice. }
  destruct (decide (u = gi ∧ k = "followers")) as [[-> ->]|Hn2].
  { rewrite Hgl2, Hfl1, Hgl1. by apply toggled_followers_twice. }
  assert (Hf : field users2 u k = field users u k).
  { unfold users2, users1.
    rewrite !after_toggle_frame; [done| | | | ];
      apply not_and_l in Hn1, Hn2; tauto. }
  unfold id_list. rewrite Hf. done.
Qed.

End ToggleFollow.

(* ================================================================== *)
(** * Requests in flight together *)
(* ================================================================== *)

Section Interleaving.
Context `{Coercions}.

(** An insert is two calls: the read, then the write. *)
Lemma steps_insert (env : clock) (collection : string) (body : gmap string value)
    (fs : files) (docs : list value) :
  collection ∈ allowed ->
  read_docs fs collection = Some docs ->
  steps 2 (insert_doc env collection body) fs
  = (<[collection +:+ ".json" := Stringified (VArr (docs ++ [new_doc env body]))]> fs,
     Ret (Response 201 (Json (new_doc env body)))).
Proof.
  intros Hc Hdocs. unfold insert_doc, guarded.
  rewrite readCollection_allowed by done. simpl.
  unfold read_docs, read_result in Hdocs. unfold fs_read.
  destruct (fs !! (collection +:+ ".json")) as [[|[]]|]; simplify_eq; simpl;
    rewrite writeCollection_allowed by done; done.
Qed.

(** Serving one request [n] times in a row is [n] steps of its program. *)
Lemma serve_next_repeat (n i : nat) (fs : files) (pool : list (prog response))
    (p : prog response) :
  pool !! i = Some p ->
  fold_left serve_next (replicate n i) (fs, pool)
  = ((steps n p fs).1, <[i := (steps n p fs).2]> pool).
Proof.
  revert fs pool p. induction n as [|n IH]; intros fs pool p Hp; simpl.
  - by rewrite list_insert_id.
  - unfold serve_next at 2. simpl. rewrite Hp.
    destruct (step p fs) as [fs' p'] eqn:Hstep.
    rewrite (IH fs' _ p') by (apply list_lookup_insert_eq; by eapply lookup_lt_Some).
    by rewrite list_insert_insert_eq.
Qed.

Lemma one_at_a_time_from (collection : string) (todo : list (clock * gmap string value)) :
  collection ∈ allowed ->
  forall (settled_before : list (prog response)) (fs : files) (docs : list value),
    read_docs fs collection = Some docs ->
    exists fs',
      fold_left serve_next
        (flat_map (fun i => replicate 2 i) (seq (length settled_before) (length todo)))
        (fs, settled_before ++ inserts collection todo)
      = (fs', settled_before
              ++ ((fun c => Ret (Response 201 (Json (new_doc c.1 c.2)))) <$> todo)) ∧
      read_docs fs' collection
      = Some (docs ++ ((fun c => new_doc c.1 c.2) <$> todo)).
Proof.
  intros Hc. induction todo as [|[env body] todo IH]; intros before fs docs Hdocs.
  - exists fs. simpl. by rewrite !app_nil_r.
  - cbn [length seq flat_map]. unfold inserts. rewrite !fmap_cons. cbn [fst snd].
    rewrite serve_insert. fold (inserts collection todo).
    rewrite fold_left_app.
    rewrite (serve_next_repeat 2 (length before) fs _ (insert_doc env collection body)).
    2: { rewrite lookup_app_r by done. by rewrite Nat.sub_diag. }
    rewrite (steps_insert env collection body fs docs Hc Hdocs). cbn [fst snd].
    rewrite insert_app_r_alt by done. rewrite Nat.sub_diag. cbn [insert list_insert].
    destruct (IH (before ++ [Ret (Response 201 (Json (new_doc env body)))])
                 (<[collection +:+ ".json" :=
                      Stringified (VArr (docs ++ [new_doc env body]))]> fs)
                 (docs ++ [new_doc env body])) as (fs' & Hrun & Hread).
    { apply read_docs_insert. }
    exists fs'. rewrite length_app in Hrun. cbn [length] in Hrun.
    rewrite Nat.add_1_r, <- !app_assoc in Hrun. cbn [app] in Hrun.
    rewrite Hrun. split; [done|]. by rewrite Hread, <- app_assoc.
Qed.

(** C1, as the code has it: no lock orders the requests, and what
    holds is the sequential case. When the inserts of [n] callers into
    a collection that was never written are served one after the other,
    each read followed by its own write, every caller is answered 201
    and the collection holds the [n] documents, in the order of the
    requests. *)
Theorem inserts_one_at_a_time (collection : string)
    (callers : list (clock * gmap string value)) (fs : files) :
  collection ∈ allowed ->
  fs !! (collection +:+ ".json") = None ->
  let final := interleave (one_at_a_time 2 (length callers)) (fs, inserts collection callers) in
  final.2 = (fun c => Ret (Response 201 (Json (new_doc c.1 c.2)))) <$> callers ∧
  read_docs final.1 collection = Some ((fun c => new_doc c.1 c.2) <$> callers) ∧
  length <$> read_docs final.1 collection = Some (length callers).
Proof.
  intros Hc Hnone final.
  destruct (one_at_a_time_from collection callers Hc [] fs []) as (fs' & Hrun & Hread).
  { unfold read_docs, read_result. by rewrite Hnone. }
  unfold final, interleave, one_at_a_time. cbn [length app] in Hrun. rewrite Hrun. simpl.
  split; [done|]. split; [done|]. rewrite Hread. simpl. by rewrite length_fmap.
Qed.

End Interleaving.

(** C1, as the specification states it, fails. Two callers insert two
    different bodies into [posts], which was never written; both reads
    are served before either write. Both callers are answered 201, and
    the collection holds one document, the second caller's: the first
    insert is lost. *)
Lemma concurrent_inserts_lose_one :
  let first := (Clock "k3v9x0q2ab" "lq2x3abc" "2024-01-01T00:00:00.000Z",
                ({[ "title" := VStr "first" ]} : gmap string value)) in
  let second := (Clock "p7m1z4r8cd" "lq2x3abd" "2024-01-01T00:00:00.001Z",
                 ({[ "title" := VStr "second" ]} : gmap string value)) in
  let final := interleave [0; 1; 0; 1] (∅, inserts "posts" [first; second]) in
  final.2 = [ Ret (Response 201 (Json (new_doc first.1 first.2)));
              Ret (Response 201 (Json (new_doc second.1 second.2))) ] ∧
  read_docs final.1 "posts" = Some [new_doc second.1 second.2] ∧
  length <$> read_docs final.1 "posts" ≠ Some 2.
Proof.
  split; [reflexivity|]. split; [reflexivity|]. vm_compute. discriminate.
Qed.

(* ================================================================== *)
(** * The theorems on sample data *)
(* ================================================================== *)

Module Witness.
Import Sample.

(** Patching [{ a: 1 }] onto [{ id: "d1", a: 0, b: 2 }] yields
    [{ id: "d1", a: 1, b: 2 }]; patching an id that is not stored
    answers 404. *)
Lemma patch_merge_witness :
  run (serve env0 (Request PATCH ["reports"; "d1"] [] patch_a)) one_doc
  = (<["reports.json" := Stringified (VArr
        [VObj (<["id" := VStr "d1"]> (<["a" := VNum 1]> (<["b" := VNum 2]> ∅)))])]> one_doc,
     Ok (Response 200 (Json (VObj
        (<["id" := VStr "d1"]> (<["a" := VNum 1]> (<["b" := VNum 2]> ∅))))))) ∧
  run (serve env0 (Request PATCH ["reports"; "d2"] [] patch_a)) one_doc
  = (one_doc, Ok (Response 404 (error_json "Not found"))).
Proof.
  assert (Hc : "reports" ∈ allowed) by solve_allowed.
  split.
  - destruct (proj2 (patch_not_found_or_merge env0 "reports" "d1" [] patch_a one_doc
                       [VObj doc_ab] Hc eq_refl) 0 eq_refl eq_refl)
      as (doc & Hdoc & Hrun & _).
    injection Hdoc as <-. exact Hrun.
  - apply (proj1 (patch_not_found_or_merge env0 "reports" "d2" [] patch_a one_doc
                    [VObj doc_ab] Hc eq_refl)).
    intros d Hd. apply list_elem_of_singleton in Hd. rewrite Hd. reflexivity.
Defined.

(** Three likers on [p1]: the answer carries them and counts three. *)
Lemma like_update_witness :
  exists doc',
    (run (serve env0 (Request PATCH ["posts"; "p1"] [] like_body)) one_post).2
    = Ok (Response 200 (Json (VObj doc'))) ∧
    doc' !! "likers" = Some (VArr three_likers) ∧
    doc' !! "likesCount" = Some (VNum 3).
Proof.
  destruct (like_update env0 "posts" "p1" [] like_body one_post [VObj post1] []
              three_likers 0 (or_introl eq_refl) eq_refl eq_refl eq_refl eq_refl)
    as (doc & note & _ & _ & Hrun & Hlikers & Hcount & _).
  eexists. split; [|split].
  - rewrite Hrun. reflexivity.
  - exact Hlikers.
  - exact Hcount.
Defined.


(** The like of [p1] writes the notifications, then the posts. *)
Lemma like_update_write_order_witness :
  written_paths (serve env0 (Request PATCH ["posts"; "p1"] [] like_body)) one_post
  = ["notifications.json"; "posts.json"].
Proof.
  exact (proj1 (like_update_write_order env0 "posts" "p1" [] like_body one_post
                  [VObj post1] [] 0 eq_refl eq_refl eq_refl eq_refl)).
Defined.


(** [a] follows [b], then unfollows: after the first toggle each is in
    the other's list, after the second the lists are as at the start. *)
Lemma toggle_follow_twice_witness :
  let req := Request POST ["users"; "toggle-follow"] [] follow_body in
  exists users1 users2,
    read_docs (run (serve env0 req) users_file).1 "users" = Some users1 ∧
    read_docs (run (serve env1 req) (run (serve env0 req) users_file).1).1 "users"
    = Some users2 ∧
    VStr "b" ∈ id_list users1 0 "following" ∧
    VStr "a" ∈ id_list users1 1 "followers" ∧
    same_set (id_list users2 0 "following") (id_list two_users 0 "following") ∧
    same_set (id_list users2 1 "followers") (id_list two_users 1 "followers").
Proof.
  intros req.
  destruct (toggle_follow_twice env0 env1 [] follow_body users_file two_users
              (VStr "a") (VStr "b") 0 1 eq_refl eq_refl I I eq_refl eq_refl eq_refl
              (ex_intro _ [] eq_refl) (ex_intro _ [] eq_refl))
    as (users1 & users2 & r1 & r2 & Hr1 & _ & Hr2 & _ & Hsym & Hflip & _ & Htwice & _).
  assert (Hempty : VStr "b" ∉ id_list two_users 0 "following").
  { intros Hin. inversion Hin. }
  assert (Hinv : VStr "b" ∈ id_list two_users 0 "following"
                 <-> VStr "a" ∈ id_list two_users 1 "followers").
  { split; intros Hin; inversion Hin. }
  exists users1, users2. unfold req. rewrite Hr1. simpl. rewrite Hr2. simpl.
  split; [apply (read_docs_insert _ "users")|].
  split; [apply (read_docs_insert _ "users")|].
  split; [by apply Hflip|].
  split; [by apply Hsym, Hflip|].
  split; apply Htwice; auto.
Defined.

(** Two inserts served one after the other leave two documents. *)
Lemma inserts_one_at_a_time_witness :
  length <$> read_docs
    (interleave (one_at_a_time 2 2)
       (∅, inserts "posts" [(env0, patch_a); (env1, like_body)])).1 "posts"
  = Some 2.
Proof.
  assert (Hc : "posts" ∈ allowed) by solve_allowed.
  exact (proj2 (proj2 (inserts_one_at_a_time "posts" [(env0, patch_a); (env1, like_body)]
                         ∅ Hc eq_refl))).
Defined.

End Witness.

(** C4, as the specification states it, fails. [a] lists [b] in her
    [following] while [b]'s [followers] is empty, as a generic insert
    or patch of [users] stores them without a check. The first toggle
    takes [b] out of [a]'s [following]; the second puts [b] back and
    adds [a] to [b]'s [followers]. Both are answered 200, and after the
    two toggles [b]'s followers are not those he had. *)
Lemma two_toggles_from_asymmetry :
  let a : gmap string value := <["id" := VStr "a"]> (<["following" := VArr [VStr "b"]]> ∅) in
  let b : gmap string value := <["id" := VStr "b"]> (<["followers" := VArr []]> ∅) in
  let users := [VObj a; VObj b] in
  let fs : files := {[ "users.json" := Stringified (VArr users) ]} in
  let req := Request POST ["users"; "toggle-follow"] [] Sample.follow_body in
  let once := run (serve Sample.env0 req) fs in
  let twice := run (serve Sample.env1 req) once.1 in
  (exists r1 r2, once.2 = Ok r1 ∧ status r1 = 200 ∧ twice.2 = Ok r2 ∧ status r2 = 200) ∧
  read_docs once.1 "users"
  = Some [VObj (<["following" := VArr []]> a); VObj b] ∧
  read_docs twice.1 "users"
  = Some [VObj a; VObj (<["followers" := VArr [VStr "a"]]> b)] ∧
  id_list users 1 "followers" = [] ∧
  (exists users2, read_docs twice.1 "users" = Some users2 ∧
     id_list users2 1 "followers" = [VStr "a"] ∧
     ¬ same_set (id_list users2 1 "followers") (id_list users 1 "followers")).
Proof.
  split; [eexists _, _; repeat split; reflexivity|].
  split; [reflexivity|]. split; [reflexivity|]. split; [reflexivity|].
  eexists. split; [reflexivity|]. split; [reflexivity|].
  intros Hsame. destruct (Hsame (VStr "a")) as [Hin _].
  assert (Hnil : VStr "a" ∈ ([] : list value)) by (apply Hin; left).
  inversion Hnil.
Qed.

(** C3, as the specification states it, fails. The like of [p1] writes
    [notifications.json] first and [posts.json] second; a process that
    stops between the two writes leaves a notification for [p1] while
    [posts.json] still holds the post without its likers. *)
Lemma like_notification_written_first :
  let p := serve Sample.env0 (Request PATCH ["posts"; "p1"] [] Sample.like_body) in
  written_paths p Sample.one_post = ["notifications.json"; "posts.json"] ∧
  read_docs (crash_after 3 p Sample.one_post) "notifications"
  = Some [like_notification Sample.env0 "posts" "p1" Sample.like_body] ∧
  read_docs (crash_after 3 p Sample.one_post) "posts" = Some [VObj Sample.post1] ∧
  Sample.post1 !! "likers" = None.
Proof. repeat split; reflexivity. Qed.

(* ================================================================== *)
(** * Every request: answers, statuses, files written *)
(* ================================================================== *)

Transparent readCollection writeCollection.

Lemma within_readCollection (W : string -> Prop) (collection : string) :
  within W (fun _ => True) (fun _ => True) (readCollection collection).
Proof.
  unfold readCollection, getFilePath. case_bool_decide; simpl.
  - apply within_read. intros [[|v]|[]]; simpl; by constructor.
  - by constructor.
Qed.

Lemma within_writeCollection (W : string -> Prop) (collection : string) (data : value) :
  (collection ∈ allowed -> W (collection +:+ ".json")) ->
  within W (fun _ => True) (fun _ => True) (writeCollection collection data).
Proof.
  intros HW. unfold writeCollection, getFilePath. case_bool_decide; simpl.
  - apply within_write; [auto|]. intros [[]|]; by constructor.
  - by constructor.
Qed.

Lemma readCollection_other (collection : string) :
  collection ∉ allowed -> readCollection collection = Throw (Error "Invalid collection").
Proof. intros Hc. unfold readCollection. by rewrite getFilePath_other. Qed.

Opaque readCollection writeCollection.

Lemma within_lift {A : Type} (W : string -> Prop) (r : result A) :
  within W (fun _ => True) (fun _ => True) (lift r).
Proof. destruct r; by constructor. Qed.

Lemma within_bind {A B : Type} (W : string -> Prop) (Q : B -> Prop) (E : exn -> Prop)
    (p : prog A) (f : A -> prog B) :
  within W (fun _ => True) E p ->
  (forall a, within W Q E (f a)) ->
  within W Q E (p ≫= f).
Proof.
  intros Hp Hf. induction Hp as [a _|e He|path k _ IH|path data k HW _ IH]; simpl.
  - apply Hf.
  - by constructor.
  - constructor. apply IH.
  - constructor; [done|]. apply IH.
Qed.

Lemma within_guarded (W : string -> Prop) (Q : response -> Prop) (p : prog response) :
  within W Q (fun _ => True) p ->
  (forall err, Q (Response 400 (error_body err))) ->
  within W Q (fun _ => False) (guarded p).
Proof.
  intros Hp H400. unfold guarded.
  induction Hp as [a Ha|e _|path k _ IH|path data k HW _ IH]; simpl.
  - by constructor.
  - constructor. apply H400.
  - constructor. apply IH.
  - constructor; [done|]. apply IH.
Qed.

(** What a run of a program [within W Q E] leaves and returns, whatever
    becomes of its writes. *)
Lemma run_with_within {A : Type} (W : string -> Prop) (Q : A -> Prop) (E : exn -> Prop)
    (p : prog A) (fates : list fate) (fs : files) :
  within W Q E p ->
  (forall path, ¬ W path -> (run_with fates p fs).1 !! path = fs !! path) ∧
  match (run_with fates p fs).2 with
  | Ok a => Q a
  | Raise e => E e
  end.
Proof.
  intros Hp. revert fates fs.
  induction Hp as [a Ha|e He|path k _ IH|path data k HW _ IH]; intros fates fs; simpl.
  - done.
  - done.
  - apply IH.
  - assert (Hframe : forall f path', ¬ W path' ->
              fs_write fs path data f !! path' = fs !! path').
    { intros f path' Hn. destruct f; simpl; apply lookup_insert_ne; congruence. }
    destruct fates as [|[] fates]; simpl.
    + destruct (IH (Done ()) [] (<[path:=data]> fs)) as [Hfs Hr]. split; [|done].
      intros path' Hn. rewrite Hfs by done. apply (Hframe Completes path' Hn).
    + destruct (IH (Done ()) fates (<[path:=data]> fs)) as [Hfs Hr]. split; [|done].
      intros path' Hn. rewrite Hfs by done. apply (Hframe Completes path' Hn).
    + destruct (IH (Failed EIO) fates (<[path:=Garbled]> fs)) as [Hfs Hr]. split; [|done].
      intros path' Hn. rewrite Hfs by done. apply (Hframe Interrupted path' Hn).
Qed.

Lemma run_with_nil {A : Type} (p : prog A) (fs : files) : run_with [] p fs = run p fs.
Proof.
  revert fs. induction p as [a|e|path k IH|path data k IH]; intros fs; simpl; auto.
Qed.

Lemma status_allowed (n : nat) : bool_decide (n ∈ statuses) = true -> n ∈ statuses.
Proof. apply bool_decide_eq_true_1. Qed.

(** Taking a handler apart along its binds and branches. *)
Ltac within_step :=
  match goal with
  | |- within _ _ _ (guarded _) => apply within_guarded; [|intros ?]
  | |- within _ _ _ (mbind _ _) => apply within_bind; [|intros ?]
  | |- within _ _ _ (lift _) => apply within_lift
  | |- within _ _ _ (readCollection _) => apply within_readCollection
  | |- within _ _ _ (writeCollection _ _) => apply within_writeCollection; intros ?
  | |- within _ _ _ (Ret _) => apply within_ret
  | |- within _ _ _ (if ?b then _ else _) => destruct b
  | |- within _ _ _ (match ?x with _ => _ end) => destruct x
  end.

Ltac within_auto :=
  repeat within_step; try done; try (apply status_allowed; reflexivity); auto.

(** A handler that answers with one of the statuses, lets no exception
    escape and writes within [W]. *)
Abbreviation sound W p :=
  (within W (fun resp : response => status resp ∈ statuses) (fun _ => False) p).

Section EveryRequest.
Context `{Coercions}.

Lemma within_list_docs (W : string -> Prop) (collection : string) q :
  sound W (list_docs collection q).
Proof. unfold list_docs. within_auto. Qed.

Lemma within_get_doc (W : string -> Prop) (collection id : string) :
  sound W (get_doc collection id).
Proof. unfold get_doc. within_auto. Qed.

Lemma within_login (W : string -> Prop) (body : gmap string value) :
  sound W (login body).
Proof. unfold login. within_auto. Qed.

Lemma within_insert_doc (W : string -> Prop) (env : clock) (collection : string)
    (body : gmap string value) :
  (collection ∈ allowed -> W (collection +:+ ".json")) ->
  sound W (insert_doc env collection body).
Proof. intros HW. unfold insert_doc. within_auto. Qed.

Lemma within_delete_doc (W : string -> Prop) (collection id : string) :
  (collection ∈ allowed -> W (collection +:+ ".json")) ->
  sound W (delete_doc collection id).
Proof. intros HW. unfold delete_doc. within_auto. Qed.

Lemma within_set_field (W : string -> Prop) (collection id field missing : string)
    (x : option value) :
  (collection ∈ allowed -> W (collection +:+ ".json")) ->
  sound W (set_field collection id field x missing).
Proof. intros HW. unfold set_field. within_auto. Qed.

Lemma within_patch_doc (W : string -> Prop) (env : clock) (collection id : string)
    (body : gmap string value) :
  (collection ∈ allowed -> W (collection +:+ ".json")) ->
  W "notifications.json" ->
  sound W (patch_doc env collection id body).
Proof. intros HW HN. unfold patch_doc. within_auto. Qed.

Lemma within_toggle_follow (W : string -> Prop) (body : gmap string value) :
  W "users.json" -> sound W (toggle_follow body).
Proof. intros HU. unfold toggle_follow. within_auto. Qed.

Lemma within_signup (W : string -> Prop) (env : clock) (body : gmap string value) :
  W "users.json" -> sound W (signup env body).
Proof. intros HU. unfold signup. within_auto. Qed.

Lemma within_submit_report (W : string -> Prop) (env : clock) (body : gmap string value) :
  W "reports.json" -> sound W (submit_report env body).
Proof. intros HR. unfold submit_report. within_auto. Qed.

(** One branch of [serve]. *)
Ltac within_branch :=
  lazymatch goal with
  | |- within _ _ _ (Ret _) => apply within_ret; apply status_allowed; reflexivity
  | |- within _ _ _ (list_docs _ _) => apply within_list_docs
  | |- within _ _ _ (get_doc _ _) => apply within_get_doc
  | |- within _ _ _ (login _) => apply within_login
  | |- within _ _ _ (insert_doc _ _ _) => apply within_insert_doc
  | |- within _ _ _ (delete_doc _ _) => apply within_delete_doc
  | |- within _ _ _ (patch_doc _ _ _ _) => apply within_patch_doc
  | |- within _ _ _ (toggle_follow _) => apply within_toggle_follow
  | |- within _ _ _ (signup _ _) => apply within_signup
  | |- within _ _ _ (submit_report _ _) => apply within_submit_report
  | |- within _ _ _ (ad_approval _ _) => apply within_set_field
  | |- within _ _ _ (user_approval _ _) => apply within_set_field
  | |- within _ _ _ (user_block _ _) => apply within_set_field
  | |- within _ _ _ (resolve_report _) => apply within_set_field
  end.

Lemma within_serve (W : string -> Prop) (env : clock) (req : request) :
  (forall collection, collection ∈ allowed -> W (collection +:+ ".json")) ->
  sound W (serve env req).
Proof.
  intros HW.
  assert (HN : W "notifications.json") by (apply (HW "notifications"); solve_allowed).
  assert (HU : W "users.json") by (apply (HW "users"); solve_allowed).
  assert (HR : W "reports.json") by (apply (HW "reports"); solve_allowed).
  assert (HA : W "ads.json") by (apply (HW "ads"); solve_allowed).
  unfold serve.
  destruct (dispatch (req_method req) (req_path req)) as [[h params]|];
    [|within_branch].
  destruct h; destruct params as [|a [|b [|c params]]]; cbn beta iota;
    within_branch; auto.
Qed.


(** X2: Whatever the request and whatever becomes of the writes, a file
    that is not the file of one of the five collections is left as it
    was. *)
Theorem serve_writes_collection_files (fates : list fate) (env : clock) (req : request)
    (fs : files) (path : string) :
  ¬ collection_file path ->
  (run_with fates (serve env req) fs).1 !! path = fs !! path.
Proof.
  intros Hpath.
  destruct (run_with_within collection_file _ _ (serve env req) fates fs
              (within_serve collection_file env req
                 (fun c Hc => ex_intro _ c (conj Hc eq_refl)))) as [Hfs _].
  exact (Hfs path Hpath).
Qed.

Lemma sound_any (W : string -> Prop) (p : prog response) :
  sound W p -> within W (fun _ => True) (fun _ => False) p.
Proof. intros Hp. induction Hp; constructor; auto. Qed.

Lemma within_serve_own (env : clock) (req : request) :
  within (own_files req) (fun _ => True) (fun _ => False) (serve env req).
Proof.
  apply sound_any.
  destruct req as [m path q body]. unfold serve.
  cbn [req_method req_path req_query req_body].
  destruct (dispatch m path) as [[h params]|] eqn:Hd; [|cbn beta iota; within_branch].
  unfold dispatch in Hd.
  destruct m; destruct path as [|a [|b [|c [|d path]]]]; simpl in Hd;
    repeat (case_bool_decide; simpl in Hd); simplify_eq; cbn beta iota; within_branch.
  all: try (intros _); unfold own_files; cbn [req_method req_path]; auto.
  all: match goal with
       | Hl : _ = lower ?x |- _ = lower ?x +:+ _ => by rewrite <- Hl
       end.
Qed.

(** X3: A request writes no other file than its own: none for a [GET], the
    file of the collection its path names for the others (the users for
    a toggle), and the notifications as well for a [PATCH] of a
    document; and this whatever becomes of the writes. *)
Theorem request_writes_own_files (fates : list fate) (env : clock) (req : request)
    (fs : files) (path : string) :
  ¬ own_files req path ->
  (run_with fates (serve env req) fs).1 !! path = fs !! path.
Proof.
  intros Hpath.
  destruct (run_with_within (own_files req) _ _ (serve env req) fates fs
              (within_serve_own env req)) as [Hfs _].
  exact (Hfs path Hpath).
Qed.

(** X4: A [GET] changes no file, whatever it asks for and whatever the
    files hold. *)
Theorem get_changes_nothing (env : clock) (path : list string) q (body : gmap string value)
    (fs : files) :
  (run (serve env (Request GET path q body)) fs).1 = fs.
Proof.
  apply map_eq. intros file. rewrite <- run_with_nil.
  destruct (run_with_within (own_files (Request GET path q body)) _ _
              (serve env (Request GET path q body)) [] fs (within_serve_own env _))
    as [Hfs _].
  apply Hfs. intros [].
Qed.

End EveryRequest.

(* ================================================================== *)
(** * The generic routes: names, corrupt files, listing *)
(* ================================================================== *)

Lemma allowed_cases (collection : string) :
  collection ∈ allowed ->
  collection = "users" ∨ collection = "ads" ∨ collection = "posts"
  ∨ collection = "notifications" ∨ collection = "reports".
Proof. unfold allowed. set_solver. Qed.

Section GenericRoutes.
Context `{Coercions}.

Lemma serve_delete (env : clock) (collection id : string) q (body : gmap string value) :
  serve env (Request DELETE [collection; id] q body) = delete_doc collection id.
Proof. reflexivity. Qed.

Lemma serve_list (env : clock) (collection : string) q (body : gmap string value) :
  lower collection ≠ "health" ->
  serve env (Request GET [collection] q body) = list_docs collection q.
Proof.
  intros Hc. unfold serve, dispatch. simpl. rewrite bool_decide_eq_false_2; [done|].
  intros Heq. by apply Hc.
Qed.

Lemma allowed_not_health (collection : string) :
  collection ∈ allowed -> lower collection ≠ "health".
Proof.
  intros Hc. destruct (allowed_cases _ Hc) as [-> | [-> | [-> | [-> | ->]]]]; discriminate.
Qed.

(** X5: A name that is not one of the five collections is refused before
    the file system is called: the five generic routes answer 400
    [Invalid collection] and make no call at all. ([GET /health] is a
    route of its own.) *)
Theorem invalid_collection_rejected (env : clock) (collection id : string) q
    (body : gmap string value) (fs : files) :
  collection ∉ allowed ->
  let rejected := fun req =>
    run (serve env req) fs = (fs, Ok (Response 400 (error_json "Invalid collection"))) ∧
    trace (serve env req) fs = [] in
  rejected (Request GET [collection; id] q body) ∧
  rejected (Request POST [collection] q body) ∧
  rejected (Request PATCH [collection; id] q body) ∧
  rejected (Request DELETE [collection; id] q body) ∧
  (lower collection ≠ "health" -> rejected (Request GET [collection] q body)).
Proof.
  intros Hc rejected. unfold rejected.
  split; [|split; [|split; [|split]]].
  - rewrite serve_get. unfold get_doc. rewrite (readCollection_other _ Hc). split; reflexivity.
  - rewrite serve_insert. unfold insert_doc. rewrite (readCollection_other _ Hc). split; reflexivity.
  - rewrite serve_patch. unfold patch_doc. rewrite (readCollection_other _ Hc). split; reflexivity.
  - rewrite serve_delete. unfold delete_doc. rewrite (readCollection_other _ Hc). split; reflexivity.
  - intros Hh. rewrite serve_list by done. unfold list_docs.
    rewrite (readCollection_other _ Hc). split; reflexivity.
Qed.

(** X6: A collection file whose text is not JSON is never reset, repaired
    or read as empty: each of the five generic routes answers 400 with
    the [SyntaxError] message of [JSON.parse] and writes nothing. *)
Theorem corrupt_collection_surfaces (env : clock) (collection id : string) q
    (body : gmap string value) (fs : files) :
  collection ∈ allowed ->
  fs !! (collection +:+ ".json") = Some Garbled ->
  let refused := fun req =>
    run (serve env req) fs = (fs, Ok (Response 400 (RuntimeMessage SyntaxError))) in
  refused (Request GET [collection] q body) ∧
  refused (Request GET [collection; id] q body) ∧
  refused (Request POST [collection] q body) ∧
  refused (Request PATCH [collection; id] q body) ∧
  refused (Request DELETE [collection; id] q body).
Proof.
  intros Hc Hfile refused. unfold refused.
  assert (Hr : read_result fs collection = Raise SyntaxError)
    by (unfold read_result; by rewrite Hfile).
  split; [|split; [|split; [|split]]].
  - rewrite serve_list by (by apply allowed_not_health).
    unfold list_docs, guarded. run_simpl. by rewrite Hr.
  - rewrite serve_get. unfold get_doc, guarded. run_simpl. by rewrite Hr.
  - rewrite serve_insert. unfold insert_doc, guarded. run_simpl. by rewrite Hr.
  - rewrite serve_patch. unfold patch_doc, guarded. run_simpl. by rewrite Hr.
  - rewrite serve_delete. unfold delete_doc, guarded. run_simpl. by rewrite Hr.
Qed.

(** X7: A list without filter answers 200 with what the file holds, as it
    is: the documents in stored order, the empty array for a collection
    never written, and any other JSON value just as well. *)
Theorem list_without_filter (env : clock) (collection : string) (body : gmap string value)
    (fs : files) :
  collection ∈ allowed ->
  (fs !! (collection +:+ ".json") = None ->
     run (serve env (Request GET [collection] [] body)) fs
     = (fs, Ok (Response 200 (Json (VArr []))))) ∧
  (forall v, fs !! (collection +:+ ".json") = Some (Stringified v) ->
     run (serve env (Request GET [collection] [] body)) fs
     = (fs, Ok (Response 200 (Json v)))).
Proof.
  intros Hc. rewrite serve_list by (by apply allowed_not_health).
  unfold list_docs, guarded. run_simpl. unfold read_result.
  split; [intros ->|intros v ->]; done.
Qed.

End GenericRoutes.

(* ================================================================== *)
(** * Searching and filtering arrays *)
(* ================================================================== *)

Lemma findIndex_from_first (p : value -> result bool) (l : list value) (i idx : nat) (d : value) :
  first_match p l idx d -> array_findIndex_from p l i = Ok (Some (i + idx)).
Proof.
  revert i idx. induction l as [|x l IH]; intros i idx (Hd & Hp & Hbefore); [done|].
  destruct idx as [|idx]; simpl in *.
  - injection Hd as ->. rewrite Hp. simpl. by rewrite Nat.add_0_r.
  - rewrite (Hbefore 0 x) by (done || lia). simpl.
    rewrite (IH (S i) idx).
    + do 2 f_equal. lia.
    + split; [done|]. split; [done|]. intros j y Hj Hy. apply (Hbefore (S j) y); [lia|done].
Qed.

Lemma findIndex_first (p : value -> result bool) (l : list value) (idx : nat) (d : value) :
  first_match p l idx d -> array_findIndex p l = Ok (Some idx).
Proof.
  intros Hf. unfold array_findIndex. by rewrite (findIndex_from_first p l 0 idx d Hf).
Qed.

Lemma find_first (p : value -> result bool) (l : list value) (idx : nat) (d : value) :
  first_match p l idx d -> array_find p l = Ok (Some d).
Proof.
  revert idx. induction l as [|x l IH]; intros idx (Hd & Hp & Hbefore); [done|].
  destruct idx as [|idx]; simpl in *.
  - injection Hd as ->. by rewrite Hp.
  - rewrite (Hbefore 0 x) by (done || lia). simpl.
    apply (IH idx). split; [done|]. split; [done|].
    intros j y Hj Hy. apply (Hbefore (S j) y); [lia|done].
Qed.

Lemma findIndex_from_is_first (p : value -> result bool) (l : list value) (i idx : nat) :
  array_findIndex_from p l i = Ok (Some idx) ->
  exists d, i ≤ idx ∧ first_match p l (idx - i) d.
Proof.
  revert i. induction l as [|x l IH]; intros i; simpl; [done|].
  destruct (p x) as [[|]|e] eqn:Hp; simpl; [| |done].
  - intros [= <-]. exists x. rewrite Nat.sub_diag. split; [done|].
    split; [done|]. split; [done|]. intros; lia.
  - intros Hidx. destruct (IH _ Hidx) as (d & Hle & Hd & Hpd & Hbefore).
    exists d. split; [lia|]. replace (idx - i) with (S (idx - S i)) by lia.
    split; [done|]. split; [done|].
    intros [|j] y Hj Hy; simpl in Hy.
    + by injection Hy as <-.
    + apply (Hbefore j y); [lia|done].
Qed.

Lemma findIndex_is_first (p : value -> result bool) (l : list value) (idx : nat) :
  array_findIndex p l = Ok (Some idx) -> exists d, first_match p l idx d.
Proof.
  intros Hidx. destruct (findIndex_from_is_first p l 0 idx Hidx) as (d & _ & Hd).
  rewrite Nat.sub_0_r in Hd. eauto.
Qed.

Lemma delete_last (l : list value) (x : value) : delete (length l) (l ++ [x]) = l.
Proof. induction l as [|y l IH]; simpl; [done|]. by f_equal. Qed.

(** [arr.filter(p)] keeps, in order, the elements [p] holds of. *)
Lemma array_filter_spec (p : value -> result bool) (l : list value) :
  (forall d, d ∈ l -> exists b, p d = Ok b) ->
  exists kept,
    array_filter p l = Ok kept ∧ sublist kept l ∧
    forall d, d ∈ kept <-> d ∈ l ∧ p d = Ok true.
Proof.
  induction l as [|x l IH]; intros Hok; simpl.
  - exists []. split; [done|]. split; [done|]. set_solver.
  - destruct (Hok x) as [b Hb]; [set_solver|].
    destruct IH as (kept & Hkept & Hsub & Hin); [intros; apply Hok; set_solver|].
    rewrite Hb, Hkept. simpl. destruct b.
    + exists (x :: kept). split; [done|]. split; [by constructor|].
      intros d. rewrite !elem_of_cons, Hin. naive_solver.
    + exists kept. split; [done|]. split; [by constructor|].
      intros d. rewrite elem_of_cons, Hin. split; [naive_solver|].
      intros [[->|Hd] Hp]; [congruence|done].
Qed.

Section Listing.
Context `{Coercions}.

Lemma filter_by_spec (query : list (string * string)) (docs : list value) :
  (forall d key val, d ∈ docs -> (key, val) ∈ query -> exists b, field_is key val d = Ok b) ->
  exists kept,
    filter_by query (VArr docs) = Ok (VArr kept) ∧ sublist kept docs ∧
    forall d, d ∈ kept <->
      d ∈ docs ∧ forall key val, (key, val) ∈ query -> field_is key val d = Ok true.
Proof.
  revert docs. induction query as [|[key val] query IH]; intros docs Hok; simpl.
  - exists docs. split; [done|]. split; [done|]. set_solver.
  - destruct (array_filter_spec (field_is key val) docs) as (l1 & Hl1 & Hsub1 & Hin1).
    { intros d Hd. apply (Hok d key val Hd). set_solver. }
    unfold field_is in Hl1 at 1. rewrite Hl1. simpl.
    destruct (IH l1) as (kept & Hkept & Hsub & Hin).
    { intros d k v Hd Hkv. apply Hok; [by apply Hin1|set_solver]. }
    exists kept. split; [done|]. split; [by etrans|].
    intros d. rewrite Hin, Hin1. split.
    + intros [[Hd Hp] Hq]. split; [done|]. intros k v Hkv.
      apply elem_of_cons in Hkv. destruct Hkv as [[= -> ->]|Hkv]; auto.
    + intros [Hd Hq]. split; [split; [done|]|]; intros; apply Hq; set_solver.
Qed.

Lemma get_index_object (m : gmap string value) (key : string) :
  get_index (VObj m) key
  = Ok (match m !! key with Some v => Some v | None => Inherited (VObj m) key end).
Proof. unfold get_index. simpl. by destruct (m !! key). Qed.

(** X8: [GET /:collection] with a query, the entries of [req.query] being
    names and strings. It answers 200 with the documents, in stored
    order, for which [doc[key] == val] holds of every entry, [doc[key]]
    being the document's own property or, when it has none of that
    name, the one it inherits from its prototype. So a plain object
    with its own [key] is kept only if that property [==] the string,
    and one that neither has nor inherits [key] is left out. (The tests
    are assumed not to throw: no element is [null].) *)
Theorem list_filters (env : clock) (collection : string) (query : list (string * string))
    (body : gmap string value) (fs : files) (docs : list value) :
  collection ∈ allowed ->
  read_docs fs collection = Some docs ->
  (forall d key val, d ∈ docs -> (key, val) ∈ query -> exists b, field_is key val d = Ok b) ->
  exists kept,
    run (serve env (Request GET [collection] query body)) fs
    = (fs, Ok (Response 200 (Json (VArr kept)))) ∧
    sublist kept docs ∧
    (forall d, d ∈ kept <->
       d ∈ docs ∧ forall key val, (key, val) ∈ query -> field_is key val d = Ok true) ∧
    (forall d key val, (key, val) ∈ query -> get_index d key = Ok None -> d ∉ kept) ∧
    (forall m key val x, (key, val) ∈ query -> m !! key = Some x -> VObj m ∈ kept ->
       loose_eq (Some x) (Some (VStr val)) = Ok true) ∧
    (forall m key val, (key, val) ∈ query -> m !! key = None ->
       Inherited (VObj m) key = None -> VObj m ∉ kept).
Proof.
  intros Hc Hdocs Hok.
  destruct (filter_by_spec query docs Hok) as (kept & Hkept & Hsub & Hin).
  assert (Hnone : forall d key val, (key, val) ∈ query -> get_index d key = Ok None -> d ∉ kept).
  { intros d key val Hq Hnone Hd. apply Hin in Hd. destruct Hd as [_ Hd].
    specialize (Hd key val Hq). unfold field_is in Hd. by rewrite Hnone in Hd. }
  exists kept. split; [|split; [done|split; [done|split; [done|split]]]].
  - rewrite serve_list by (by apply allowed_not_health).
    unfold list_docs, guarded. run_simpl.
    rewrite (read_docs_result _ _ _ Hdocs). run_simpl. by rewrite Hkept.
  - intros m key val x Hq Hx Hd. apply Hin in Hd. destruct Hd as [_ Hd].
    specialize (Hd key val Hq). unfold field_is in Hd.
    by rewrite get_index_object, Hx in Hd.
  - intros m key val Hq Hm Hi. apply (Hnone _ key val Hq).
    by rewrite get_index_object, Hm, Hi.
Qed.

End Listing.

(* ================================================================== *)
(** * Get, delete, and how the operations compose *)
(* ================================================================== *)

Section Composition.
Context `{Coercions}.

(** The document an id finds is an object, hence truthy. *)
Lemma first_match_object (id : string) (docs : list value) (idx : nat) (d : value) :
  first_match (id_is (Some (VStr id))) docs idx d ->
  exists doc, d = VObj doc.
Proof.
  intros (_ & Hp & _). destruct (id_is_object (Some (VStr id)) d I Hp) as (m & v & -> & _).
  eauto.
Qed.

(** X9: A get answers with the first document, in stored order, whose [id]
    [==] the id asked for, even when later documents have it too; it
    answers 404 when none has it. *)
Theorem get_first_match (env : clock) (collection id : string) q (body : gmap string value)
    (fs : files) (docs : list value) :
  collection ∈ allowed ->
  read_docs fs collection = Some docs ->
  (forall idx d, first_match (id_is (Some (VStr id))) docs idx d ->
     run (serve env (Request GET [collection; id] q body)) fs
     = (fs, Ok (Response 200 (Json d)))) ∧
  ((forall d, d ∈ docs -> id_is (Some (VStr id)) d = Ok false) ->
     run (serve env (Request GET [collection; id] q body)) fs
     = (fs, Ok (Response 404 (error_json "Not found")))).
Proof.
  intros Hc Hdocs. rewrite serve_get. split.
  - intros idx d Hfirst. destruct (first_match_object _ _ _ _ Hfirst) as [doc ->].
    apply (run_get_found _ _ _ docs); [done|done| |done].
    by apply (find_first _ _ idx).
  - intros Hnone. apply (run_get_missing _ _ _ docs); [done|done|].
    by apply find_none.
Qed.

Lemma run_delete (collection id : string) (fs : files) (docs : list value) (idx : nat)
    (d : value) :
  collection ∈ allowed ->
  read_docs fs collection = Some docs ->
  first_match (id_is (Some (VStr id))) docs idx d ->
  run (delete_doc collection id) fs
  = (<[collection +:+ ".json" := Stringified (VArr (delete idx docs))]> fs,
     Ok (Response 200 (Json d))).
Proof.
  intros Hc Hdocs Hfirst. unfold delete_doc, guarded. run_simpl.
  rewrite (read_docs_result _ _ _ Hdocs). run_simpl.
  rewrite (findIndex_first _ _ _ _ Hfirst). run_simpl.
  destruct Hfirst as (-> & _). done.
Qed.

(** X10: A delete removes one document, the first whose [id] [==] the id,
    and answers 200 with it: the documents before it and after it stay,
    in order, and the collection is one shorter. When no document has
    the id it answers 404 and writes nothing. *)
Theorem delete_removes_first (env : clock) (collection id : string) q (body : gmap string value)
    (fs : files) (docs : list value) :
  collection ∈ allowed ->
  read_docs fs collection = Some docs ->
  (forall idx d, first_match (id_is (Some (VStr id))) docs idx d ->
     run (serve env (Request DELETE [collection; id] q body)) fs
     = (<[collection +:+ ".json" := Stringified (VArr (take idx docs ++ drop (S idx) docs))]> fs,
        Ok (Response 200 (Json d))) ∧
     docs = take idx docs ++ d :: drop (S idx) docs ∧
     S (length (take idx docs ++ drop (S idx) docs)) = length docs) ∧
  ((forall d, d ∈ docs -> id_is (Some (VStr id)) d = Ok false) ->
     run (serve env (Request DELETE [collection; id] q body)) fs
     = (fs, Ok (Response 404 (error_json "Not found")))).
Proof.
  intros Hc Hdocs. rewrite serve_delete. split.
  - intros idx d Hfirst. pose proof Hfirst as (Hd & _).
    assert (Hsplit : docs = take idx docs ++ d :: drop (S idx) docs)
      by (symmetry; by apply take_drop_middle).
    split; [|split; [done|]].
    + rewrite (run_delete _ _ _ docs idx d) by done.
      by rewrite delete_take_drop.
    + rewrite Hsplit at 3. rewrite !length_app. simpl. lia.
  - intros Hnone. unfold delete_doc, guarded. run_simpl.
    rewrite (read_docs_result _ _ _ Hdocs). run_simpl.
    by rewrite (findIndex_none _ _ Hnone).
Qed.

(** X11: After the delete of a document whose id no other document has, a
    get of that id answers 404. *)
Theorem delete_then_get (env env' : clock) (collection id : string) q q'
    (body body' : gmap string value) (fs : files) (docs : list value) (idx : nat) (d : value) :
  collection ∈ allowed ->
  read_docs fs collection = Some docs ->
  first_match (id_is (Some (VStr id))) docs idx d ->
  (forall j x, j ≠ idx -> docs !! j = Some x -> id_is (Some (VStr id)) x = Ok false) ->
  let fs' := (run (serve env (Request DELETE [collection; id] q body)) fs).1 in
  run (serve env' (Request GET [collection; id] q' body')) fs'
  = (fs', Ok (Response 404 (error_json "Not found"))).
Proof.
  intros Hc Hdocs Hfirst Huniq fs'. unfold fs'.
  rewrite serve_delete, (run_delete _ _ _ docs idx d) by done. simpl.
  rewrite serve_get.
  apply (run_get_missing _ _ _ (delete idx docs)); [done|apply read_docs_insert|].
  apply find_none. intros x Hx.
  apply list_elem_of_lookup in Hx. destruct Hx as [j Hj].
  destruct (decide (j < idx)).
  - rewrite list_lookup_delete_lt in Hj by done. apply (Huniq j); [lia|done].
  - rewrite list_lookup_delete_ge in Hj by lia. apply (Huniq (S j)); [lia|done].
Qed.

(** X12: An insert followed by the delete of the returned id gives back the
    inserted document and leaves the collection holding the documents
    it held, in order (the generated id being fresh). *)
Theorem insert_then_delete (env env' : clock) (collection : string) q q'
    (body body' : gmap string value) (fs : files) (docs : list value) :
  collection ∈ allowed ->
  read_docs fs collection = Some docs ->
  (forall d, d ∈ docs -> id_is (Some (VStr (generateId env))) d = Ok false) ->
  let fs1 := (run (serve env (Request POST [collection] q body)) fs).1 in
  let after := run (serve env' (Request DELETE [collection; generateId env] q' body')) fs1 in
  after.2 = Ok (Response 200 (Json (new_doc env body))) ∧
  read_docs after.1 collection = Some docs ∧
  (forall path, path ≠ collection +:+ ".json" -> after.1 !! path = fs !! path).
Proof.
  intros Hc Hdocs Hfresh fs1 after. unfold after, fs1.
  rewrite serve_insert, (run_insert env collection body fs docs Hc Hdocs). simpl.
  rewrite serve_delete.
  rewrite (run_delete _ _ _ (docs ++ [new_doc env body]) (length docs) (new_doc env body)).
  - simpl. split; [done|]. split.
    + rewrite delete_last. apply read_docs_insert.
    + intros path Hpath. by rewrite !lookup_insert_ne.
  - done.
  - apply read_docs_insert.
  - split; [|split].
    + by rewrite lookup_app_r, Nat.sub_diag.
    + unfold new_doc.
      rewrite (id_is_string_string (generateId env)); [by rewrite bool_decide_eq_true_2|].
      by rewrite lookup_insert_ne, lookup_insert_eq.
    + intros j x Hj Hx. rewrite lookup_app_l in Hx by done.
      apply Hfresh. by eapply list_elem_of_lookup_2.
Qed.

End Composition.

(* ================================================================== *)
(** * Patches and moderation *)
(* ================================================================== *)

Section PatchAgain.
Context `{Coercions}.

(** A patch that does not name [id] leaves the search by id as it was:
    the patched document is still the first the id finds. *)
Lemma first_match_after_patch (id : string) (docs : list value) (idx : nat)
    (doc patched : gmap string value) :
  first_match (id_is (Some (VStr id))) docs idx (VObj doc) ->
  patched !! "id" = doc !! "id" ->
  first_match (id_is (Some (VStr id))) (<[idx := VObj patched]> docs) idx (VObj patched).
Proof.
  intros (Hd & Hp & Hbefore) Hid. split; [|split].
  - apply list_lookup_insert_eq. by eapply lookup_lt_Some.
  - unfold id_is in *. simpl in *. by rewrite Hid.
  - intros j x Hj Hx. rewrite list_lookup_insert_ne in Hx by lia. by apply (Hbefore j).
Qed.

Lemma found_first_object (id : string) (docs : list value) (idx : nat) :
  array_findIndex (id_is (Some (VStr id))) docs = Ok (Some idx) ->
  exists doc, first_match (id_is (Some (VStr id))) docs idx (VObj doc).
Proof.
  intros Hidx. destruct (findIndex_is_first _ _ _ Hidx) as [d Hd].
  pose proof Hd as (_ & Hp & _).
  destruct (id_is_object (Some (VStr id)) d I Hp) as (m & v & -> & _). eauto.
Qed.

(** X13: After a patch outside the like branch whose body does not name
    [id], a get of the id answers 200 with the merged document. *)
Theorem patch_then_get (env env' : clock) (collection id : string) q q'
    (body body' : gmap string value) (fs : files) (docs : list value) (idx : nat) :
  collection ∈ allowed ->
  read_docs fs collection = Some docs ->
  array_findIndex (id_is (Some (VStr id))) docs = Ok (Some idx) ->
  like_intercept collection body = false ->
  body !! "id" = None ->
  let fs' := (run (serve env (Request PATCH [collection; id] q body)) fs).1 in
  exists doc,
    docs !! idx = Some (VObj doc) ∧
    run (serve env' (Request GET [collection; id] q' body')) fs'
    = (fs', Ok (Response 200 (Json (VObj (body ∪ doc))))).
Proof.
  intros Hc Hdocs Hidx Hlike Hid fs'.
  destruct (found_first_object _ _ _ Hidx) as [doc Hfirst].
  pose proof Hfirst as (Hdoc & _).
  exists doc. split; [done|]. unfold fs'.
  rewrite serve_patch, (run_patch_merge env _ _ body _ _ _ _ Hc Hdocs Hidx Hdoc Hlike).
  simpl. rewrite serve_get.
  apply (run_get_found _ _ _ (<[idx := VObj (body ∪ doc)]> docs)); [done| | |done].
  - apply read_docs_insert.
  - apply (find_first _ _ idx). apply (first_match_after_patch id docs idx doc); [done|].
    by apply lookup_union_r.
Qed.

(** X14: The same patch sent twice leaves the files as it left them the
    first time, and is answered the same (outside the like branch, the
    body not naming [id]). *)
Theorem patch_twice (env env' : clock) (collection id : string) q q'
    (body : gmap string value) (fs : files) (docs : list value) (idx : nat) :
  collection ∈ allowed ->
  read_docs fs collection = Some docs ->
  array_findIndex (id_is (Some (VStr id))) docs = Ok (Some idx) ->
  like_intercept collection body = false ->
  body !! "id" = None ->
  let once := run (serve env (Request PATCH [collection; id] q body)) fs in
  run (serve env' (Request PATCH [collection; id] q' body)) once.1 = once.
Proof.
  intros Hc Hdocs Hidx Hlike Hid once.
  destruct (found_first_object _ _ _ Hidx) as [doc Hfirst].
  pose proof Hfirst as (Hdoc & _).
  unfold once.
  rewrite !serve_patch, (run_patch_merge env _ _ body _ _ _ _ Hc Hdocs Hidx Hdoc Hlike).
  simpl.
  rewrite (run_patch_merge env' _ _ body _ (<[idx := VObj (body ∪ doc)]> docs) idx
             (body ∪ doc)); try done.
  - rewrite list_insert_insert_eq, insert_insert_eq.
    by rewrite (assoc_L (∪)), (idemp_L (∪)).
  - apply read_docs_insert.
  - apply (findIndex_first _ _ _ (VObj (body ∪ doc))).
    apply (first_match_after_patch id docs idx doc); [done|]. by apply lookup_union_r.
  - apply list_lookup_insert_eq. by eapply lookup_lt_Some.
Qed.

Lemma run_set_field (collection id field missing : string) (x : option value)
    (fs : files) (docs : list value) (idx : nat) (doc : gmap string value) :
  collection ∈ allowed ->
  read_docs fs collection = Some docs ->
  array_findIndex (id_is (Some (VStr id))) docs = Ok (Some idx) ->
  docs !! idx = Some (VObj doc) ->
  run (set_field collection id field x missing) fs
  = (<[collection +:+ ".json" := Stringified (VArr (<[idx := VObj (assigned field x doc)]> docs))]> fs,
     Ok (Response 200 (Json (VObj (assigned field x doc))))).
Proof.
  intros Hc Hdocs Hidx Hdoc. unfold set_field, guarded. run_simpl.
  rewrite (read_docs_result _ _ _ Hdocs). run_simpl.
  rewrite Hidx. run_simpl. unfold assign_at. rewrite Hdoc. run_simpl.
  rewrite list_lookup_insert_eq by (by eapply lookup_lt_Some). done.
Qed.

Lemma run_set_field_missing (collection id field missing : string) (x : option value)
    (fs : files) (docs : list value) :
  collection ∈ allowed ->
  read_docs fs collection = Some docs ->
  (forall d, d ∈ docs -> id_is (Some (VStr id)) d = Ok false) ->
  run (set_field collection id field x missing) fs
  = (fs, Ok (Response 404 (error_json missing))).
Proof.
  intros Hc Hdocs Hnone. unfold set_field, guarded. run_simpl.
  rewrite (read_docs_result _ _ _ Hdocs). run_simpl.
  by rewrite (findIndex_none _ _ Hnone).
Qed.

Lemma serve_moderation (env : clock) (id : string) q (body : gmap string value) :
  serve env (Request PATCH ["ads"; id; "approval"] q body) = ad_approval id body ∧
  serve env (Request PATCH ["users"; id; "approval"] q body) = user_approval id body ∧
  serve env (Request PATCH ["users"; id; "block"] q body) = user_block id body ∧
  serve env (Request PATCH ["reports"; id; "resolve"] q body) = resolve_report id.
Proof. repeat split; reflexivity. Qed.

(** X15: The three moderation routes driven by the body ([/ads/:id/approval]
    with [status], [/users/:id/approval] with [approvalStatus],
    [/users/:id/block] with [isBlocked]) copy one field of the body,
    whatever its value, into the document the id finds and answer 200
    with the document; every other field and every other document is
    left as it was. When the body does not have the field, the document
    loses it. When no document has the id they answer 404 with their
    own message and write nothing. *)
Theorem moderation_copies_one_field (env : clock) (id : string) q (body : gmap string value)
    (fs : files) :
  let copies := fun (route : list string) (collection field missing : string) =>
    forall docs, read_docs fs collection = Some docs ->
      (forall idx, array_findIndex (id_is (Some (VStr id))) docs = Ok (Some idx) ->
         exists doc,
           docs !! idx = Some (VObj doc) ∧
           run (serve env (Request PATCH route q body)) fs
           = (<[collection +:+ ".json" :=
                  Stringified (VArr (<[idx := VObj (assigned field (body !! field) doc)]> docs))]> fs,
              Ok (Response 200 (Json (VObj (assigned field (body !! field) doc))))) ∧
           assigned field (body !! field) doc !! field = body !! field ∧
           (forall k, k ≠ field -> assigned field (body !! field) doc !! k = doc !! k)) ∧
      ((forall d, d ∈ docs -> id_is (Some (VStr id)) d = Ok false) ->
         run (serve env (Request PATCH route q body)) fs
         = (fs, Ok (Response 404 (error_json missing)))) in
  copies ["ads"; id; "approval"] "ads" "status" "Ad not found" ∧
  copies ["users"; id; "approval"] "users" "approvalStatus" "User not found" ∧
  copies ["users"; id; "block"] "users" "isBlocked" "User not found".
Proof.
  intros copies.
  assert (Hassigned : forall field doc,
    assigned field (body !! field) doc !! field = body !! field ∧
    (forall k, k ≠ field -> assigned field (body !! field) doc !! k = doc !! k)).
  { intros field doc. unfold assigned. destruct (body !! field) as [v|].
    - split; [apply lookup_insert_eq|]. intros k Hk. by apply lookup_insert_ne.
    - split; [apply lookup_delete_eq|]. intros k Hk. by apply lookup_delete_ne. }
  assert (Hads : "ads" ∈ allowed) by solve_allowed.
  assert (Husers : "users" ∈ allowed) by solve_allowed.
  assert (Hcopies : forall collection field missing docs,
    collection ∈ allowed -> read_docs fs collection = Some docs ->
      (forall idx, array_findIndex (id_is (Some (VStr id))) docs = Ok (Some idx) ->
         exists doc,
           docs !! idx = Some (VObj doc) ∧
           run (set_field collection id field (body !! field) missing) fs
           = (<[collection +:+ ".json" :=
                  Stringified (VArr (<[idx := VObj (assigned field (body !! field) doc)]> docs))]> fs,
              Ok (Response 200 (Json (VObj (assigned field (body !! field) doc))))) ∧
           assigned field (body !! field) doc !! field = body !! field ∧
           (forall k, k ≠ field -> assigned field (body !! field) doc !! k = doc !! k)) ∧
      ((forall d, d ∈ docs -> id_is (Some (VStr id)) d = Ok false) ->
         run (set_field collection id field (body !! field) missing) fs
         = (fs, Ok (Response 404 (error_json missing))))).
  { intros collection field missing docs Hc Hdocs. split.
    - intros idx Hidx. destruct (found_by_id _ _ _ Hidx) as (doc & v & Hdoc & _).
      exists doc. split; [exact Hdoc|]. split; [|apply Hassigned].
      exact (run_set_field collection id field missing _ fs docs idx doc Hc Hdocs Hidx Hdoc).
    - intros Hnone.
      exact (run_set_field_missing collection id field missing _ fs docs Hc Hdocs Hnone). }
  destruct (serve_moderation env id q body) as (Ha & Hu & Hb & _).
  unfold copies. rewrite Ha, Hu, Hb.
  unfold ad_approval, user_approval, user_block.
  split; [|split]; intros docs Hdocs.
  - exact (Hcopies "ads" "status" "Ad not found" docs Hads Hdocs).
  - exact (Hcopies "users" "approvalStatus" "User not found" docs Husers Hdocs).
  - exact (Hcopies "users" "isBlocked" "User not found" docs Husers Hdocs).
Qed.

(** X16: Resolving a report sets its [status] to [resolved] whatever the
    body says, and resolving it again changes nothing more: the second
    request leaves the files as the first left them and is answered the
    same. *)
Theorem resolve_report_twice (env env' : clock) (id : string) q q'
    (body body' : gmap string value) (fs : files) (docs : list value) (idx : nat) :
  read_docs fs "reports" = Some docs ->
  array_findIndex (id_is (Some (VStr id))) docs = Ok (Some idx) ->
  let once := run (serve env (Request PATCH ["reports"; id; "resolve"] q body)) fs in
  exists doc,
    docs !! idx = Some (VObj doc) ∧
    once = (<["reports.json" :=
                Stringified (VArr (<[idx := VObj (<["status" := VStr "resolved"]> doc)]> docs))]> fs,
            Ok (Response 200 (Json (VObj (<["status" := VStr "resolved"]> doc))))) ∧
    run (serve env' (Request PATCH ["reports"; id; "resolve"] q' body')) once.1 = once.
Proof.
  intros Hdocs Hidx once.
  destruct (found_first_object _ _ _ Hidx) as [doc Hfirst].
  pose proof Hfirst as (Hdoc & _).
  assert (Hr : "reports" ∈ allowed) by solve_allowed.
  assert (Honce : once = (<["reports.json" :=
                Stringified (VArr (<[idx := VObj (<["status" := VStr "resolved"]> doc)]> docs))]> fs,
            Ok (Response 200 (Json (VObj (<["status" := VStr "resolved"]> doc)))))).
  { unfold once.
    destruct (serve_moderation env id q body) as (_ & _ & _ & ->).
    unfold resolve_report.
    by rewrite (run_set_field "reports" id "status" _ _ fs docs idx doc Hr Hdocs Hidx Hdoc). }
  exists doc. split; [done|]. split; [done|]. rewrite Honce. cbn [fst].
  destruct (serve_moderation env' id q' body') as (_ & _ & _ & ->).
  unfold resolve_report.
  rewrite (run_set_field "reports" id "status" _ _ _
             (<[idx := VObj (<["status" := VStr "resolved"]> doc)]> docs) idx
             (<["status" := VStr "resolved"]> doc) Hr).
  - simpl. by rewrite list_insert_insert_eq, !insert_insert_eq.
  - apply (read_docs_insert fs "reports").
  - apply (findIndex_first _ _ _ (VObj (<["status" := VStr "resolved"]> doc))).
    apply (first_match_after_patch id docs idx doc); [done|]. by rewrite lookup_insert_ne.
  - apply list_lookup_insert_eq. by eapply lookup_lt_Some.
Qed.

End PatchAgain.

(* ================================================================== *)
(** * Routes that never run *)
(* ================================================================== *)

Section Shadowed.
Context `{Coercions}.

(** X17: Whatever the method and the path, the router never hands a request
    to the handlers registered for [POST /signup], [POST /login] and
    [POST /reports]: [POST /:collection] is registered before them and
    matches every path of one segment. *)
Theorem shadowed_handlers_never_run (m : method) (path : list string) (h : handler)
    (params : list string) :
  dispatch m path = Some (h, params) ->
  h ≠ Signup ∧ h ≠ Login ∧ h ≠ SubmitReport.
Proof.
  unfold dispatch.
  destruct m; destruct path as [|a [|b [|c [|d path]]]]; simpl;
    repeat (case_bool_decide; simpl); intros Hd; simplify_eq; done.
Qed.

Lemma login_not_allowed : "login" ∉ allowed.
Proof. intros Hl. destruct (allowed_cases _ Hl) as [? | [? | [? | [? | ?]]]]; discriminate. Qed.

(** X18: What runs in their place. A [POST /login] is answered 400 [Invalid
    collection], whatever the credentials, and nothing is read or
    written. A [POST /reports] is the generic insert: the stored report
    is the body with [id] and [createdAt], and its [status] is the
    body's (none when the body has none), where the route's own handler
    would have stored [status: new]. *)
Theorem post_login_and_reports (env : clock) q (body : gmap string value) (fs : files) :
  run (serve env (Request POST ["login"] q body)) fs
  = (fs, Ok (Response 400 (error_json "Invalid collection"))) ∧
  trace (serve env (Request POST ["login"] q body)) fs = [] ∧
  forall docs, read_docs fs "reports" = Some docs ->
    let report := <["createdAt" := VStr (now_iso env)]> (<["id" := VStr (generateId env)]> body) in
    run (serve env (Request POST ["reports"] q body)) fs
    = (<["reports.json" := Stringified (VArr (docs ++ [VObj report]))]> fs,
       Ok (Response 201 (Json (VObj report)))) ∧
    report !! "status" = body !! "status" ∧
    run (submit_report env body) fs
    = (<["reports.json" := Stringified (VArr (docs ++ [VObj (<["status" := VStr "new"]> report)]))]> fs,
       Ok (Response 201 (Json (VObj (<["status" := VStr "new"]> report))))).
Proof.
  rewrite !serve_insert. split; [|split].
  - unfold insert_doc, guarded. by rewrite (readCollection_other _ login_not_allowed).
  - unfold insert_doc, guarded. by rewrite (readCollection_other _ login_not_allowed).
  - intros docs Hdocs report.
    assert (Hr : "reports" ∈ allowed) by solve_allowed.
    split; [|split].
    + exact (run_insert env "reports" body fs docs Hr Hdocs).
    + unfold report. by rewrite !lookup_insert_ne.
    + unfold submit_report, guarded. run_simpl.
      rewrite (read_docs_result _ _ _ Hdocs). run_simpl. done.
Qed.

(** X19: The login handler, were it called: it answers 200 with the whole
    stored document (the password with it) of the first user whose
    [username] and [password] both [==] the body's, and 401 when there
    is none; it writes nothing. *)
Theorem login_when_called (body : gmap string value) (fs : files) (users : list value)
    (name : string) :
  read_docs fs "users" = Some users ->
  body !! "username" = Some (VStr name) ->
  (forall idx u,
     first_match (credentials_are (body !! "username") (body !! "password")) users idx u ->
     run (login body) fs = (fs, Ok (Response 200 (Json u)))) ∧
  ((forall u, u ∈ users ->
      credentials_are (body !! "username") (body !! "password") u = Ok false) ->
   run (login body) fs = (fs, Ok (Response 401 (error_json "Invalid credentials")))).
Proof.
  intros Hu Hname. split.
  - intros idx u Hfirst.
    pose proof (find_first _ _ _ _ Hfirst) as Hfind.
    destruct Hfirst as (_ & Hp & _).
    assert (Hobj : exists m, u = VObj m).
    { unfold credentials_are, username_is in Hp. rewrite Hname in Hp.
      destruct u as [|b|n|s|l|m]; simpl in Hp; try done. eauto. }
    destruct Hobj as [m ->].
    unfold login, guarded. run_simpl.
    rewrite (read_docs_result _ _ _ Hu). run_simpl.
    unfold credentials_are in Hfind. rewrite Hfind. done.
  - intros Hnone.
    unfold login, guarded. run_simpl.
    rewrite (read_docs_result _ _ _ Hu). run_simpl.
    pose proof (find_none _ _ Hnone) as Hfind.
    unfold credentials_are in Hfind. rewrite Hfind. done.
Qed.

End Shadowed.

(* ================================================================== *)
(** * Edges of the like branch and of toggle-follow *)
(* ================================================================== *)

Section Edges.
Context `{Coercions}.

(** X20: The like branch takes any truthy [likers]. When it is neither an
    array nor a string, the stored [likesCount] is what [likers.length]
    is: the [length] property of an object, and nothing for a number or
    [true], so that the count the document had is lost. *)
Theorem like_count_follows_length (env : clock) (collection id : string)
    q (body : gmap string value) (fs : files) (docs ns : list value) (idx : nat)
    (likers : value) :
  collection = "posts" ∨ collection = "ads" ->
  read_docs fs collection = Some docs ->
  array_findIndex (id_is (Some (VStr id))) docs = Ok (Some idx) ->
  read_docs fs "notifications" = Some ns ->
  body !! "likers" = Some likers ->
  truthy (Some likers) = true ->
  (forall l, likers ≠ VArr l) ->
  (forall s, likers ≠ VStr s) ->
  exists doc doc',
    docs !! idx = Some (VObj doc) ∧
    run (serve env (Request PATCH [collection; id] q body)) fs
    = (<[collection +:+ ".json" := Stringified (VArr (<[idx := VObj doc']> docs))]>
         (<["notifications.json" :=
              Stringified (VArr (ns ++ [like_notification env collection id body]))]> fs),
       Ok (Response 200 (Json (VObj doc')))) ∧
    doc' !! "likers" = Some likers ∧
    doc' !! "likesCount" = match likers with VObj m => m !! "length" | _ => None end.
Proof.
  intros Hc Hdocs Hidx Hns Hlikers Htruthy Harr Hstr.
  assert (Hlike : like_intercept collection body = true).
  { apply like_intercept_true. split; [done|]. by rewrite Hlikers. }
  destruct (found_by_id _ _ _ Hidx) as (doc & v & Hdoc & _).
  pose proof (run_patch_like env collection id body fs docs ns idx doc
                Hlike Hdocs Hidx Hdoc Hns) as Hrun.
  rewrite Hlikers in Hrun. cbn [stored default] in Hrun.
  exists doc, (with_like likers doc). split; [done|].
  split; [rewrite serve_patch; exact Hrun|].
  unfold with_like.
  destruct likers as [|b|n|s|l|m]; simpl in *; try done.
  - by rewrite lookup_delete_ne, lookup_insert_eq, lookup_delete_eq.
  - by rewrite lookup_delete_ne, lookup_insert_eq, lookup_delete_eq.
  - by destruct (Hstr s).
  - by destruct (Harr l).
  - destruct (m !! "length") as [len|] eqn:Hlen.
    + by rewrite lookup_insert_ne, !lookup_insert_eq.
    + by rewrite lookup_delete_ne, lookup_insert_eq, lookup_delete_eq.
Qed.

(** X21: A like is recorded only if the notifications can be read: when
    [notifications.json] is garbled or holds something that is not an
    array, the patch is answered 400 and neither file is written, the
    liked document's included. *)
Theorem like_needs_notifications (env : clock) (collection id : string)
    q (body : gmap string value) (fs : files) (docs : list value) (idx : nat) :
  like_intercept collection body = true ->
  read_docs fs collection = Some docs ->
  array_findIndex (id_is (Some (VStr id))) docs = Ok (Some idx) ->
  read_docs fs "notifications" = None ->
  exists p,
    run (serve env (Request PATCH [collection; id] q body)) fs
    = (fs, Ok (Response 400 p)).
Proof.
  intros Hlike Hdocs Hidx Hns.
  destruct (found_by_id _ _ _ Hidx) as (doc & v & Hdoc & _).
  rewrite serve_patch.
  exact (run_patch_like_unreadable env collection id body fs docs idx doc
           Hlike Hdocs Hidx Hdoc Hns).
Qed.

(** A search that never throws ends: on nothing when no element
    passes, on an index otherwise. *)
Lemma findIndex_from_total (p : value -> result bool) (l : list value) (i : nat) :
  (forall u, u ∈ l -> exists b, p u = Ok b) ->
  exists r, array_findIndex_from p l i = Ok r.
Proof.
  revert i. induction l as [|d l IH]; intros i Hall; simpl; [eauto|].
  destruct (Hall d) as [b ->]; [set_solver|]. simpl.
  destruct b; [eauto|]. apply IH. intros; apply Hall; set_solver.
Qed.

Lemma id_is_name (x : option value) (m : gmap string value) (s : string) :
  (x = None ∨ exists t, x = Some (VStr t)) ->
  m !! "id" = Some (VStr s) ->
  exists b, id_is x (VObj m) = Ok b ∧ (b = true -> x = Some (VStr s)).
Proof.
  intros [-> | [t ->]] Hs; unfold id_is; simpl; rewrite Hs; simpl.
  - by exists false.
  - eexists. split; [done|]. intros Heq. apply bool_decide_eq_true in Heq. by subst.
Qed.

(** X22: Toggle-follow needs both users. When every stored user has a string
    [id] and [followerId] or [followingId] is missing from the body, or
    is a string that is no user's id, the request is answered 404 [User
    not found] and nothing is written. *)
Theorem toggle_follow_unknown_user (env : clock) q (body : gmap string value) (fs : files)
    (users : list value) :
  read_docs fs "users" = Some users ->
  (forall u, u ∈ users -> exists m s, u = VObj m ∧ m !! "id" = Some (VStr s)) ->
  let name := fun (x : option value) => x = None ∨ exists t, x = Some (VStr t) in
  let known := fun (x : option value) =>
    exists m s, VObj m ∈ users ∧ m !! "id" = Some (VStr s) ∧ x = Some (VStr s) in
  name (body !! "followerId") -> name (body !! "followingId") ->
  ¬ known (body !! "followerId") ∨ ¬ known (body !! "followingId") ->
  run (serve env (Request POST ["users"; "toggle-follow"] q body)) fs
  = (fs, Ok (Response 404 (error_json "User not found"))).
Proof.
  intros Hu Hids name known Hx Hy Hunknown.
  assert (Htotal : forall x, name x -> exists r, array_findIndex (id_is x) users = Ok r).
  { intros x Hname. apply findIndex_from_total. intros u Hin.
    destruct (Hids u Hin) as (m & s & -> & Hs).
    destruct (id_is_name x m s Hname Hs) as (b & -> & _). eauto. }
  assert (Hnone : forall x, name x -> ¬ known x -> array_findIndex (id_is x) users = Ok None).
  { intros x Hname Hnot. apply findIndex_none. intros u Hin.
    destruct (Hids u Hin) as (m & s & -> & Hs).
    destruct (id_is_name x m s Hname Hs) as (b & -> & Hb). f_equal.
    destruct b; [|done]. destruct Hnot. exists m, s. by rewrite Hb. }
  rewrite serve_toggle_follow. unfold toggle_follow, guarded. run_simpl.
  rewrite (read_docs_result _ _ _ Hu). run_simpl.
  destruct (Htotal _ Hx) as [fi Hfi]. destruct (Htotal _ Hy) as [gi Hgi].
  destruct Hunknown as [Hnot | Hnot].
  - rewrite (Hnone _ Hx Hnot). run_simpl. rewrite Hgi. run_simpl. by destruct gi.
  - rewrite Hfi. run_simpl. rewrite (Hnone _ Hy Hnot). run_simpl. by destruct fi.
Qed.

End Edges.

(* ================================================================== *)
(** * The read-only server *)
(* ================================================================== *)

Section ReadOnlyServer.
Context `{Coercions}.

Lemma run_read_all (name : string) (fs : files) :
  run (Server.read_all name) fs
  = (fs, match fs !! (name +:+ ".json") with
         | None => Ok (Response 500 (error_json ("Cannot read " +:+ name)))
         | Some Garbled => Raise SyntaxError
         | Some (Stringified v) => Ok (Response 200 (Json v))
         end).
Proof.
  unfold Server.read_all. simpl. unfold fs_read.
  destruct (fs !! (name +:+ ".json")) as [[|v]|]; done.
Qed.

(** X23: [server.js] against the main application on the same directory,
    for the four collections [server.js] serves. Both answer a file
    that holds JSON with that JSON. They part on the other files: where
    the file is missing [server.js] answers 500 [Cannot read <name>]
    and the application 200 with the empty list; where the file is not
    JSON the exception escapes [server.js], which sends no answer, and
    the application answers 400. [server.js] matches the name without
    regard to case and writes nothing. *)
Theorem server_js_against_app (env : clock) (name : string) (body : gmap string value)
    (fs : files) :
  name ∈ ["users"; "posts"; "ads"; "notifications"] ->
  (forall x, lower x = name ->
     run (Server.serve GET [x]) fs
     = (fs, match fs !! (name +:+ ".json") with
            | None => Ok (Response 500 (error_json ("Cannot read " +:+ name)))
            | Some Garbled => Raise SyntaxError
            | Some (Stringified v) => Ok (Response 200 (Json v))
            end)) ∧
  run (serve env (Request GET [name] [] body)) fs
  = (fs, match fs !! (name +:+ ".json") with
         | None => Ok (Response 200 (Json (VArr [])))
         | Some Garbled => Ok (Response 400 (RuntimeMessage SyntaxError))
         | Some (Stringified v) => Ok (Response 200 (Json v))
         end).
Proof.
  intros Hname.
  assert (Hcases : name = "users" ∨ name = "posts" ∨ name = "ads" ∨ name = "notifications")
    by set_solver.
  split.
  - intros x Hx. unfold Server.serve. rewrite Hx.
    destruct Hcases as [-> | [-> | [-> | ->]]]; cbn [bool_decide decide_rel]; apply run_read_all.
  - assert (Hc : name ∈ allowed).
    { destruct Hcases as [-> | [-> | [-> | ->]]]; solve_allowed. }
    rewrite serve_list by (by apply allowed_not_health).
    unfold list_docs, guarded. run_simpl. unfold read_result.
    destruct (fs !! (name +:+ ".json")) as [[|v]|]; done.
Qed.

End ReadOnlyServer.

(* ================================================================== *)
(** * Inserts into different collections *)
(* ================================================================== *)

Section TwoInFlight.
Variables (p0 mid0 p1 mid1 : prog response) (r0 r1 : response).
Variables (path0 path1 : string) (data0 data1 : text) (fs : files).
Hypothesis paths_differ : path0 ≠ path1.
Hypothesis read0 : forall fs', fs' !! path0 = fs !! path0 -> step p0 fs' = (fs', mid0).
Hypothesis read1 : forall fs', fs' !! path1 = fs !! path1 -> step p1 fs' = (fs', mid1).
Hypothesis write0 : forall fs', step mid0 fs' = (<[path0 := data0]> fs', Ret r0).
Hypothesis write1 : forall fs', step mid1 fs' = (<[path1 := data1]> fs', Ret r1).

Lemma serve_next_first (k0 k1 : nat) :
  k0 ≤ 2 -> k1 ≤ 2 ->
  serve_next (written path1 data1 k1 (written path0 data0 k0 fs),
              [in_flight p0 mid0 r0 k0; in_flight p1 mid1 r1 k1]) 0
  = (written path1 data1 k1 (written path0 data0 (Nat.min 2 (S k0)) fs),
     [in_flight p0 mid0 r0 (Nat.min 2 (S k0)); in_flight p1 mid1 r1 k1]).
Proof using All.
  intros Hk0 Hk1. unfold serve_next. cbn [snd fst lookup list_lookup].
  destruct k0 as [|[|[|k0]]]; [| | |lia]; cbn [in_flight Nat.min].
  - rewrite read0; [done|]. unfold written. simpl.
    case_decide; [|done]. by rewrite lookup_insert_ne.
  - rewrite write0. unfold written. simpl.
    case_decide; [|done]. by rewrite insert_insert_ne.
  - done.
Qed.

Lemma serve_next_second (k0 k1 : nat) :
  k0 ≤ 2 -> k1 ≤ 2 ->
  serve_next (written path1 data1 k1 (written path0 data0 k0 fs),
              [in_flight p0 mid0 r0 k0; in_flight p1 mid1 r1 k1]) 1
  = (written path1 data1 (Nat.min 2 (S k1)) (written path0 data0 k0 fs),
     [in_flight p0 mid0 r0 k0; in_flight p1 mid1 r1 (Nat.min 2 (S k1))]).
Proof using All.
  intros Hk0 Hk1. unfold serve_next. cbn [snd fst lookup list_lookup].
  destruct k1 as [|[|[|k1]]]; [| | |lia]; cbn [in_flight Nat.min].
  - rewrite read1; [done|]. unfold written. simpl.
    case_decide; [|done]. by rewrite lookup_insert_ne.
  - rewrite write1. unfold written. simpl. done.
  - done.
Qed.

Lemma two_in_flight (schedule : list nat) : forall k0 k1,
  k0 ≤ 2 -> k1 ≤ 2 ->
  interleave schedule (written path1 data1 k1 (written path0 data0 k0 fs),
                       [in_flight p0 mid0 r0 k0; in_flight p1 mid1 r1 k1])
  = (written path1 data1 (Nat.min 2 (k1 + count_occ Nat.eq_dec schedule 1))
       (written path0 data0 (Nat.min 2 (k0 + count_occ Nat.eq_dec schedule 0)) fs),
     [in_flight p0 mid0 r0 (Nat.min 2 (k0 + count_occ Nat.eq_dec schedule 0));
      in_flight p1 mid1 r1 (Nat.min 2 (k1 + count_occ Nat.eq_dec schedule 1))]).
Proof using All.
  assert (Hmin : forall k n, Nat.min 2 (Nat.min 2 (S k) + n) = Nat.min 2 (k + S n)) by lia.
  unfold interleave.
  induction schedule as [|i schedule IH]; intros k0 k1 Hk0 Hk1.
  - cbn [fold_left count_occ]. rewrite !Nat.add_0_r, !Nat.min_r by done. done.
  - cbn [fold_left]. destruct i as [|[|i]].
    + rewrite serve_next_first by done. rewrite IH by lia.
      cbn [count_occ]. destruct (Nat.eq_dec 0 0) as [_|]; [|done].
      destruct (Nat.eq_dec 0 1) as [|_]; [done|].
      by rewrite Hmin.
    + rewrite serve_next_second by done. rewrite IH by lia.
      cbn [count_occ]. destruct (Nat.eq_dec 1 1) as [_|]; [|done].
      destruct (Nat.eq_dec 1 0) as [|_]; [done|].
      by rewrite Hmin.
    + replace (serve_next (written path1 data1 k1 (written path0 data0 k0 fs),
                            [in_flight p0 mid0 r0 k0; in_flight p1 mid1 r1 k1]) (S (S i)))
        with (written path1 data1 k1 (written path0 data0 k0 fs),
              [in_flight p0 mid0 r0 k0; in_flight p1 mid1 r1 k1]) by reflexivity.
      rewrite IH by done. cbn [count_occ].
      destruct (Nat.eq_dec (S (S i)) 0) as [|_]; [done|].
      destruct (Nat.eq_dec (S (S i)) 1) as [|_]; [done|]. done.
Qed.

End TwoInFlight.

Section Elsewhere.
Context `{Coercions}.

Lemma file_names_differ (c c' : string) :
  c ∈ allowed -> c' ∈ allowed -> c ≠ c' -> c +:+ ".json" ≠ c' +:+ ".json".
Proof.
  intros Hc Hc' Hne.
  destruct (allowed_cases _ Hc) as [-> | [-> | [-> | [-> | ->]]]];
  destruct (allowed_cases _ Hc') as [-> | [-> | [-> | [-> | ->]]]];
  done.
Qed.

(** The two calls of an insert: the read, which changes nothing, and
    the write of the documents read with the new one after them. *)
Lemma insert_calls (env : clock) (collection : string) (body : gmap string value)
    (docs : list value) :
  collection ∈ allowed ->
  exists mid,
    (forall fs, read_docs fs collection = Some docs ->
       step (insert_doc env collection body) fs = (fs, mid)) ∧
    (forall fs, step mid fs
       = (<[collection +:+ ".json" := Stringified (VArr (docs ++ [new_doc env body]))]> fs,
          Ret (Response 201 (Json (new_doc env body))))).
Proof.
  intros Hc.
  exists (step (insert_doc env collection body)
            (<[collection +:+ ".json" := Stringified (VArr docs)]> ∅)).2.
  unfold insert_doc, guarded. rewrite readCollection_allowed by done. simpl.
  unfold fs_read. rewrite lookup_insert_eq. simpl.
  rewrite writeCollection_allowed by done. simpl. split; [|done].
  intros fs Hdocs. unfold read_docs, read_result in Hdocs.
  destruct (fs !! (collection +:+ ".json")) as [[|[]]|]; simplify_eq; simpl;
    rewrite ?writeCollection_allowed by done; done.
Qed.

(** X24: Two inserts into two different collections, their file-system
    calls interleaved in any order that lets each make its two calls:
    both are answered 201 and both documents are stored, each after the
    documents its collection had. (Two inserts into one collection can
    lose one.) *)
Theorem inserts_elsewhere_both_land (env0 env1 : clock) (c0 c1 : string) q0 q1
    (body0 body1 : gmap string value) (fs : files) (docs0 docs1 : list value)
    (schedule : list nat) :
  c0 ∈ allowed -> c1 ∈ allowed -> c0 ≠ c1 ->
  read_docs fs c0 = Some docs0 ->
  read_docs fs c1 = Some docs1 ->
  2 ≤ count_occ Nat.eq_dec schedule 0 ->
  2 ≤ count_occ Nat.eq_dec schedule 1 ->
  interleave schedule
    (fs, [serve env0 (Request POST [c0] q0 body0); serve env1 (Request POST [c1] q1 body1)])
  = (<[c1 +:+ ".json" := Stringified (VArr (docs1 ++ [new_doc env1 body1]))]>
       (<[c0 +:+ ".json" := Stringified (VArr (docs0 ++ [new_doc env0 body0]))]> fs),
     [Ret (Response 201 (Json (new_doc env0 body0)));
      Ret (Response 201 (Json (new_doc env1 body1)))]).
Proof.
  intros Hc0 Hc1 Hne Hdocs0 Hdocs1 Hn0 Hn1. rewrite !serve_insert.
  destruct (insert_calls env0 c0 body0 docs0 Hc0) as (mid0 & Hread0 & Hwrite0).
  destruct (insert_calls env1 c1 body1 docs1 Hc1) as (mid1 & Hread1 & Hwrite1).
  assert (Hr0 : forall fs', fs' !! (c0 +:+ ".json") = fs !! (c0 +:+ ".json") ->
                 step (insert_doc env0 c0 body0) fs' = (fs', mid0)).
  { intros fs' Hsame. apply Hread0. unfold read_docs, read_result in *. by rewrite Hsame. }
  assert (Hr1 : forall fs', fs' !! (c1 +:+ ".json") = fs !! (c1 +:+ ".json") ->
                 step (insert_doc env1 c1 body1) fs' = (fs', mid1)).
  { intros fs' Hsame. apply Hread1. unfold read_docs, read_result in *. by rewrite Hsame. }
  pose proof (two_in_flight _ _ _ _ _ _ _ _ _ _ fs
                (file_names_differ c0 c1 Hc0 Hc1 Hne) Hr0 Hr1 Hwrite0 Hwrite1
                schedule 0 0 ltac:(lia) ltac:(lia)) as Htwo.
  rewrite !Nat.add_0_l, !Nat.min_l in Htwo by done.
  exact Htwo.
Qed.

End Elsewhere.

(* ================================================================== *)
(** * An interrupted write *)
(* ================================================================== *)

Section Interrupted.
Context `{Coercions}.

Lemma run_with_insert_interrupted (env : clock) (collection : string)
    (body : gmap string value) (fs : files) (docs : list value) (fates : list fate) :
  collection ∈ allowed ->
  read_docs fs collection = Some docs ->
  run_with (Interrupted :: fates) (insert_doc env collection body) fs
  = (<[collection +:+ ".json" := Garbled]> fs,
     Ok (Response 400 (RuntimeMessage (FsError EIO)))).
Proof.
  intros Hc Hdocs. unfold insert_doc, guarded.
  rewrite readCollection_allowed by done. simpl.
  unfold read_docs, read_result in Hdocs. unfold fs_read.
  destruct (fs !! (collection +:+ ".json")) as [[|[]]|]; simplify_eq; simpl;
    rewrite writeCollection_allowed by done; done.
Qed.

(** X25: An insert whose write is cut short is answered 400 and leaves its
    collection file garbled: the documents the collection had are gone
    with the new one, and from then on a list of the collection and an
    insert into it are answered 400 with the message of [JSON.parse]. *)
Theorem interrupted_insert_poisons (env env' : clock) (collection : string) q q'
    (body body' : gmap string value) (fs : files) (docs : list value) (fates : list fate) :
  collection ∈ allowed ->
  read_docs fs collection = Some docs ->
  let after :=
    run_with (Interrupted :: fates) (serve env (Request POST [collection] q body)) fs in
  after = (<[collection +:+ ".json" := Garbled]> fs,
           Ok (Response 400 (RuntimeMessage (FsError EIO)))) ∧
  run (serve env' (Request GET [collection] q' body')) after.1
  = (after.1, Ok (Response 400 (RuntimeMessage SyntaxError))) ∧
  run (serve env' (Request POST [collection] q' body')) after.1
  = (after.1, Ok (Response 400 (RuntimeMessage SyntaxError))).
Proof.
  intros Hc Hdocs after. unfold after.
  rewrite serve_insert, (run_with_insert_interrupted env _ body fs docs fates Hc Hdocs).
  cbn [fst].
  assert (Hr : read_result (<[collection +:+ ".json" := Garbled]> fs) collection
               = Raise SyntaxError).
  { unfold read_result. by rewrite lookup_insert_eq. }
  split; [done|]. split.
  - rewrite serve_list by (by apply allowed_not_health).
    unfold list_docs, guarded. run_simpl. by rewrite Hr.
  - rewrite serve_insert. unfold insert_doc, guarded. run_simpl. by rewrite Hr.
Qed.

End Interrupted.

(* ================================================================== *)
(** * Closed instances *)
(* ================================================================== *)

Module Closed.
Import Sample.

Lemma d1_first : first_match (id_is (Some (VStr "d1"))) [VObj doc_ab] 0 (VObj doc_ab).
Proof.
  split; [reflexivity|]. split; [reflexivity|]. intros j x Hj. inversion Hj.
Defined.

Lemma d1_only (d : value) : d ∈ [VObj doc_ab] -> d = VObj doc_ab.
Proof. intros Hd. by apply list_elem_of_singleton in Hd. Defined.

(** An insert into [posts] leaves [server.js] alone. *)
Lemma serve_writes_collection_files_witness :
  (run_with [] (serve env0 (Request POST ["posts"] [] like_body)) one_post).1 !! "server.js"
  = one_post !! "server.js".
Proof.
  apply serve_writes_collection_files.
  intros (c & Hc & Heq).
  destruct (allowed_cases _ Hc) as [-> | [-> | [-> | [-> | ->]]]]; discriminate Heq.
Defined.

(** An interrupted insert into [posts] leaves [users.json] alone. *)
Lemma request_writes_own_files_witness :
  (run_with [Interrupted] (serve env0 (Request POST ["posts"] [] like_body)) one_post).1
    !! "users.json"
  = one_post !! "users.json".
Proof.
  apply request_writes_own_files. simpl. discriminate.
Defined.

(** There is no collection [comments]. *)
Lemma invalid_collection_rejected_witness :
  run (serve env0 (Request POST ["comments"] [] patch_a)) one_doc
  = (one_doc, Ok (Response 400 (error_json "Invalid collection"))).
Proof.
  assert (Hc : "comments" ∉ allowed).
  { intros Hc. destruct (allowed_cases _ Hc) as [? | [? | [? | [? | ?]]]]; discriminate. }
  exact (proj1 (proj1 (proj2
    (invalid_collection_rejected env0 "comments" "c1" [] patch_a one_doc Hc)))).
Defined.

(** A garbled [posts.json] is reported by a get. *)
Lemma corrupt_collection_surfaces_witness :
  run (serve env0 (Request GET ["posts"; "p1"] [] ∅)) {[ "posts.json" := Garbled ]}
  = ({[ "posts.json" := Garbled ]}, Ok (Response 400 (RuntimeMessage SyntaxError))).
Proof.
  assert (Hc : "posts" ∈ allowed) by solve_allowed.
  exact (proj1 (proj2
    (corrupt_collection_surfaces env0 "posts" "p1" [] ∅ {[ "posts.json" := Garbled ]}
       Hc eq_refl))).
Defined.

(** No [ads.json]: the list is empty. *)
Lemma list_without_filter_witness :
  run (serve env0 (Request GET ["ads"] [] ∅)) one_post
  = (one_post, Ok (Response 200 (Json (VArr [])))).
Proof.
  assert (Hc : "ads" ∈ allowed) by solve_allowed.
  exact (proj1 (list_without_filter env0 "ads" ∅ one_post Hc) eq_refl).
Defined.

(** [?a=0] keeps the report whose [a] is the number [0]. *)
Lemma list_filters_witness :
  exists kept,
    run (serve env0 (Request GET ["reports"] [("a", "0")] ∅)) one_doc
    = (one_doc, Ok (Response 200 (Json (VArr kept)))) ∧
    VObj doc_ab ∈ kept.
Proof.
  assert (Hc : "reports" ∈ allowed) by solve_allowed.
  assert (Htests : forall d key val, d ∈ [VObj doc_ab] -> (key, val) ∈ [("a", "0")] ->
            exists b, field_is key val d = Ok b).
  { intros d key val Hd Hq. apply list_elem_of_singleton in Hd, Hq.
    injection Hq as -> ->. rewrite Hd. exists true. reflexivity. }
  destruct (list_filters env0 "reports" [("a", "0")] ∅ one_doc [VObj doc_ab]
              Hc eq_refl Htests) as (kept & Hrun & _ & Hkept & _).
  exists kept. split; [exact Hrun|].
  apply Hkept. split; [apply list_elem_of_singleton; reflexivity|].
  intros key val Hq. apply list_elem_of_singleton in Hq. injection Hq as -> ->. reflexivity.
Defined.

(** [?constructor=...] with the text Node prints for [Object]: every
    plain object inherits [constructor] and is kept; with any other
    text none is. *)
Example list_by_constructor :
  run (serve env0 (Request GET ["reports"]
         [("constructor", "function Object() { [native code] }")] ∅)) one_doc
  = (one_doc, Ok (Response 200 (Json (VArr [VObj doc_ab])))) ∧
  run (serve env0 (Request GET ["reports"] [("constructor", "Object")] ∅)) one_doc
  = (one_doc, Ok (Response 200 (Json (VArr [])))).
Proof. split; reflexivity. Qed.

(** A get of [d1]. *)
Lemma get_first_match_witness :
  run (serve env0 (Request GET ["reports"; "d1"] [] ∅)) one_doc
  = (one_doc, Ok (Response 200 (Json (VObj doc_ab)))).
Proof.
  assert (Hc : "reports" ∈ allowed) by solve_allowed.
  exact (proj1 (get_first_match env0 "reports" "d1" [] ∅ one_doc [VObj doc_ab] Hc eq_refl)
           0 (VObj doc_ab) d1_first).
Defined.

(** Deleting [d1] leaves no report. *)
Lemma delete_removes_first_witness :
  run (serve env0 (Request DELETE ["reports"; "d1"] [] ∅)) one_doc
  = (<["reports.json" := Stringified (VArr [])]> one_doc,
     Ok (Response 200 (Json (VObj doc_ab)))).
Proof.
  assert (Hc : "reports" ∈ allowed) by solve_allowed.
  exact (proj1 (proj1 (delete_removes_first env0 "reports" "d1" [] ∅ one_doc [VObj doc_ab]
                         Hc eq_refl) 0 (VObj doc_ab) d1_first)).
Defined.

(** After the delete of [d1], a get of [d1] answers 404. *)
Lemma delete_then_get_witness :
  let fs' := (run (serve env0 (Request DELETE ["reports"; "d1"] [] ∅)) one_doc).1 in
  run (serve env1 (Request GET ["reports"; "d1"] [] ∅)) fs'
  = (fs', Ok (Response 404 (error_json "Not found"))).
Proof.
  assert (Hc : "reports" ∈ allowed) by solve_allowed.
  apply (delete_then_get env0 env1 "reports" "d1" [] [] ∅ ∅ one_doc [VObj doc_ab] 0
           (VObj doc_ab) Hc eq_refl d1_first).
  intros [|j] x Hj Hx; [by destruct Hj|]. inversion Hx.
Defined.

(** An insert into [reports], then the delete of the returned id: the
    reports are the one there was. *)
Lemma insert_then_delete_witness :
  let fs1 := (run (serve env0 (Request POST ["reports"] [] patch_a)) one_doc).1 in
  let after := run (serve env1 (Request DELETE ["reports"; generateId env0] [] ∅)) fs1 in
  after.2 = Ok (Response 200 (Json (new_doc env0 patch_a))) ∧
  read_docs after.1 "reports" = Some [VObj doc_ab].
Proof.
  assert (Hc : "reports" ∈ allowed) by solve_allowed.
  assert (Hfresh : forall d, d ∈ [VObj doc_ab] ->
            id_is (Some (VStr (generateId env0))) d = Ok false).
  { intros d Hd. rewrite (d1_only d Hd). reflexivity. }
  destruct (insert_then_delete env0 env1 "reports" [] [] patch_a ∅ one_doc [VObj doc_ab]
              Hc eq_refl Hfresh) as (Hresp & Hdocs & _).
  split; [exact Hresp|exact Hdocs].
Defined.

(** [{ a: 1 }] patched onto [d1], then a get of [d1]. *)
Lemma patch_then_get_witness :
  let fs' := (run (serve env0 (Request PATCH ["reports"; "d1"] [] patch_a)) one_doc).1 in
  exists doc,
    [VObj doc_ab] !! 0 = Some (VObj doc) ∧
    run (serve env1 (Request GET ["reports"; "d1"] [] ∅)) fs'
    = (fs', Ok (Response 200 (Json (VObj (patch_a ∪ doc))))).
Proof.
  assert (Hc : "reports" ∈ allowed) by solve_allowed.
  exact (patch_then_get env0 env1 "reports" "d1" [] [] patch_a ∅ one_doc [VObj doc_ab] 0
           Hc eq_refl eq_refl eq_refl eq_refl).
Defined.

(** [{ a: 1 }] patched onto [d1] twice. *)
Lemma patch_twice_witness :
  let once := run (serve env0 (Request PATCH ["reports"; "d1"] [] patch_a)) one_doc in
  run (serve env1 (Request PATCH ["reports"; "d1"] [] patch_a)) once.1 = once.
Proof.
  assert (Hc : "reports" ∈ allowed) by solve_allowed.
  exact (patch_twice env0 env1 "reports" "d1" [] [] patch_a one_doc [VObj doc_ab] 0
           Hc eq_refl eq_refl eq_refl eq_refl).
Defined.

(** Blocking user [a]. *)
Lemma moderation_copies_one_field_witness :
  exists doc,
    two_users !! 0 = Some (VObj doc) ∧
    run (serve env0 (Request PATCH ["users"; "a"; "block"] [] {[ "isBlocked" := VBool true ]}))
      users_file
    = (<["users.json" :=
           Stringified (VArr (<[0 := VObj (<["isBlocked" := VBool true]> doc)]> two_users))]>
         users_file,
       Ok (Response 200 (Json (VObj (<["isBlocked" := VBool true]> doc))))).
Proof.
  destruct (proj1 (proj2 (proj2
              (moderation_copies_one_field env0 "a" [] {[ "isBlocked" := VBool true ]}
                 users_file)) two_users eq_refl) 0 eq_refl)
    as (doc & Hdoc & Hrun & _).
  exists doc. split; [exact Hdoc|exact Hrun].
Defined.

(** Resolving [d1] twice. *)
Lemma resolve_report_twice_witness :
  let once := run (serve env0 (Request PATCH ["reports"; "d1"; "resolve"] [] patch_a)) one_doc in
  run (serve env1 (Request PATCH ["reports"; "d1"; "resolve"] [] ∅)) once.1 = once.
Proof.
  destruct (resolve_report_twice env0 env1 "d1" [] [] patch_a ∅ one_doc [VObj doc_ab] 0
              eq_refl eq_refl) as (doc & _ & _ & Htwice).
  exact Htwice.
Defined.

(** [POST /login] goes to the generic insert. *)
Lemma shadowed_handlers_never_run_witness :
  dispatch POST ["login"] = Some (InsertDoc, ["login"]) ∧
  InsertDoc ≠ Signup ∧ InsertDoc ≠ Login ∧ InsertDoc ≠ SubmitReport.
Proof.
  split; [reflexivity|].
  exact (shadowed_handlers_never_run POST ["login"] InsertDoc ["login"] eq_refl).
Defined.

(** A report posted without a [status] is stored without one. *)
Lemma post_login_and_reports_witness :
  let report := <["createdAt" := VStr (now_iso env0)]> (<["id" := VStr (generateId env0)]> patch_a) in
  run (serve env0 (Request POST ["reports"] [] patch_a)) one_doc
  = (<["reports.json" := Stringified (VArr ([VObj doc_ab] ++ [VObj report]))]> one_doc,
     Ok (Response 201 (Json (VObj report)))) ∧
  report !! "status" = None.
Proof.
  destruct (proj2 (proj2 (post_login_and_reports env0 [] patch_a one_doc))
              [VObj doc_ab] eq_refl) as (Hrun & _ & _).
  split; [exact Hrun|reflexivity].
Defined.

(** [alice] has no stored password: a login that sends none gets her
    document. *)
Lemma login_when_called_witness :
  run (login {[ "username" := VStr "alice" ]}) users_file
  = (users_file, Ok (Response 200 (Json (VObj user_a)))).
Proof.
  assert (Hname : ({[ "username" := VStr "alice" ]} : gmap string value) !! "username"
                  = Some (VStr "alice")) by reflexivity.
  apply (proj1 (login_when_called {[ "username" := VStr "alice" ]} users_file two_users
                  "alice" eq_refl Hname) 0 (VObj user_a)).
  split; [reflexivity|]. split; [reflexivity|]. intros j x Hj. inversion Hj.
Defined.

(** A like whose [likers] is the number 5: no [likesCount] is stored. *)
Lemma like_count_follows_length_witness :
  exists doc doc',
    [VObj post1] !! 0 = Some (VObj doc) ∧
    (run (serve env0 (Request PATCH ["posts"; "p1"] [] {[ "likers" := VNum 5 ]})) one_post).2
    = Ok (Response 200 (Json (VObj doc'))) ∧
    doc' !! "likers" = Some (VNum 5) ∧
    doc' !! "likesCount" = None.
Proof.
  assert (Hl : ({[ "likers" := VNum 5 ]} : gmap string value) !! "likers" = Some (VNum 5))
    by reflexivity.
  destruct (like_count_follows_length env0 "posts" "p1" [] {[ "likers" := VNum 5 ]}
              one_post [VObj post1] [] 0 (VNum 5)
              (or_introl eq_refl) eq_refl eq_refl eq_refl Hl eq_refl
              ltac:(discriminate) ltac:(discriminate))
    as (doc & doc' & Hdoc & Hrun & Hlikers & Hcount).
  exists doc, doc'. split; [exact Hdoc|]. split; [by rewrite Hrun|].
  split; [exact Hlikers|exact Hcount].
Defined.

(** With a garbled [notifications.json] the like of [p1] is refused. *)
Lemma like_needs_notifications_witness :
  exists p,
    run (serve env0 (Request PATCH ["posts"; "p1"] [] like_body))
      (<["notifications.json" := Garbled]> one_post)
    = (<["notifications.json" := Garbled]> one_post, Ok (Response 400 p)).
Proof.
  exact (like_needs_notifications env0 "posts" "p1" [] like_body
           (<["notifications.json" := Garbled]> one_post) [VObj post1] 0
           eq_refl eq_refl eq_refl eq_refl).
Defined.

(** A toggle that names no [followingId]. *)
Lemma toggle_follow_unknown_user_witness :
  run (serve env0 (Request POST ["users"; "toggle-follow"] [] {[ "followerId" := VStr "a" ]}))
    users_file
  = (users_file, Ok (Response 404 (error_json "User not found"))).
Proof.
  apply (toggle_follow_unknown_user env0 [] {[ "followerId" := VStr "a" ]} users_file
           two_users eq_refl).
  - intros u Hu. apply elem_of_cons in Hu as [-> | Hu].
    + exists user_a, "a". split; reflexivity.
    + apply list_elem_of_singleton in Hu as ->. exists user_b, "b". split; reflexivity.
  - right. exists "a". reflexivity.
  - left. reflexivity.
  - right. intros (m & s & _ & _ & Heq). discriminate Heq.
Defined.

(** [server.js] serves [/Posts]. *)
Lemma server_js_against_app_witness :
  run (Server.serve GET ["Posts"]) one_post
  = (one_post, Ok (Response 200 (Json (VArr [VObj post1])))).
Proof.
  assert (Hname : "posts" ∈ ["users"; "posts"; "ads"; "notifications"]).
  { apply (bool_decide_unpack _). vm_compute. exact I. }
  exact (proj1 (server_js_against_app env0 "posts" ∅ one_post Hname) "Posts" eq_refl).
Defined.

(** An insert into [posts] and one into [reports], their calls
    alternating. *)
Lemma inserts_elsewhere_both_land_witness :
  interleave [0; 1; 0; 1]
    (one_post, [serve env0 (Request POST ["posts"] [] patch_a);
                serve env1 (Request POST ["reports"] [] like_body)])
  = (<["reports.json" := Stringified (VArr ([] ++ [new_doc env1 like_body]))]>
       (<["posts.json" := Stringified (VArr ([VObj post1] ++ [new_doc env0 patch_a]))]> one_post),
     [Ret (Response 201 (Json (new_doc env0 patch_a)));
      Ret (Response 201 (Json (new_doc env1 like_body)))]).
Proof.
  assert (Hc0 : "posts" ∈ allowed) by solve_allowed.
  assert (Hc1 : "reports" ∈ allowed) by solve_allowed.
  apply (inserts_elsewhere_both_land env0 env1 "posts" "reports" [] [] patch_a like_body
           one_post [VObj post1] [] [0; 1; 0; 1] Hc0 Hc1); [discriminate|reflexivity..].
Defined.

(** An insert into [posts] cut short: [p1] can no longer be listed. *)
Lemma interrupted_insert_poisons_witness :
  let after := run_with [Interrupted] (serve env0 (Request POST ["posts"] [] patch_a)) one_post in
  after = (<["posts.json" := Garbled]> one_post,
           Ok (Response 400 (RuntimeMessage (FsError EIO)))) ∧
  run (serve env1 (Request GET ["posts"] [] ∅)) after.1
  = (after.1, Ok (Response 400 (RuntimeMessage SyntaxError))).
Proof.
  assert (Hc : "posts" ∈ allowed) by solve_allowed.
  destruct (interrupted_insert_poisons env0 env1 "posts" [] [] patch_a ∅ one_post
              [VObj post1] [] Hc eq_refl) as (Hafter & Hlist & _).
  split; [exact Hafter|exact Hlist].
Defined.

End Closed.
